(** * Hardware offboarding automation: report materialization and notification

    A shallow embedding of [hardware-offboarding-automation.py] and the
    properties of its loader, materializer, dispatcher and orchestrator.

    Conventions of the embedding.
    - A Python [str] is a [string]; a character is a code point below 256.
    - A value of a database row is an [option string]: [None] is SQL NULL /
      Python [None], [Some s] is a value whose [str()] is [s] (what
      [csv.writer] and [str(x)] put on the page).
    - A delimited file is the list of records that [csv.writer.writerow]
      put in it, in order; quoting is the concern of the [csv] module.
    - A workbook is its sheet name, header cells and data cells.  Of the
      type inference of [pd.read_csv] the integer columns and the tokens
      that can only be text are written out; what it makes of any other
      token is kept as a symbol.
    - Exceptions are values of [exn]; code that can raise returns a
      [result].  Printing appends to a log, and acquiring or releasing a
      connection appends to a trace.
    - The input file, the database, the file system's permissions and the
      mail relay are a [world]: a record of the answers they give, the
      requests for the employee at position [i] of the batch carrying
      [i].  Paths are POSIX paths. *)

From Stdlib Require Import ZArith Lia Bool Ascii String List.
From Stdlib Require Import DecimalString DecimalPos DecimalZ.
From stdpp Require Import base option list strings gmap.

Local Open Scope string_scope.
Local Open Scope list_scope.

(** ** Python string primitives *)

Module PyStr.

Definition dq : string := String (ascii_of_nat 34) EmptyString.
Definition nl : string := String (ascii_of_nat 10) EmptyString.
Definition tab : string := String (ascii_of_nat 9) EmptyString.

(** [bool(s)]: a string is truthy when it is not empty. *)
Definition truthy (s : string) : bool :=
  match s with EmptyString => false | String _ _ => true end.

(** [c.isspace()] for a code point below 256. *)
Definition isspace (c : ascii) : bool :=
  let n := nat_of_ascii c in
  (((9 <=? n) && (n <=? 13)) || ((28 <=? n) && (n <=? 32))
   || (n =? 133) || (n =? 160))%nat.

Fixpoint lstrip (s : string) : string :=
  match s with
  | EmptyString => EmptyString
  | String c r => if isspace c then lstrip r else s
  end.

Fixpoint rstrip (s : string) : string :=
  match s with
  | EmptyString => EmptyString
  | String c r =>
      match rstrip r with
      | EmptyString => if isspace c then EmptyString else String c EmptyString
      | r' => String c r'
      end
  end.

(** [s.strip()] *)
Definition strip (s : string) : string := rstrip (lstrip s).

(** [sep in s] for a one-character [sep]. *)
Fixpoint contains (sep : ascii) (s : string) : bool :=
  match s with
  | EmptyString => false
  | String c r => if Ascii.eqb c sep then true else contains sep r
  end.

(** [s.split(sep)] for a one-character [sep]: one more piece than there
    are separators. *)
Fixpoint split (sep : ascii) (s : string) : list string :=
  match s with
  | EmptyString => [EmptyString]
  | String c r =>
      if Ascii.eqb c sep then EmptyString :: split sep r
      else match split sep r with
           | h :: t => String c h :: t
           | [] => [String c EmptyString]
           end
  end.

(** [c.lower()] for a code point below 256: A-Z and the Latin-1 capitals. *)
Definition lower_char (c : ascii) : ascii :=
  let n := nat_of_ascii c in
  if (((65 <=? n) && (n <=? 90))
      || ((192 <=? n) && (n <=? 222) && negb (n =? 215)))%nat
  then ascii_of_nat (n + 32) else c.

Fixpoint lower (s : string) : string :=
  match s with
  | EmptyString => EmptyString
  | String c r => String (lower_char c) (lower r)
  end.

(** [s.replace(old, new)] for a one-character [old]. *)
Fixpoint replace (old : ascii) (new : string) (s : string) : string :=
  match s with
  | EmptyString => EmptyString
  | String c r =>
      if Ascii.eqb c old then new ++ replace old new r
      else String c (replace old new r)
  end.

(** [sep.join(l)] *)
Fixpoint join (sep : string) (l : list string) : string :=
  match l with
  | [] => EmptyString
  | [x] => x
  | x :: r => x ++ sep ++ join sep r
  end.

Definition concat_all (l : list string) : string := join EmptyString l.

(** [str(n)] for a natural number and for an integer. *)
Definition str_nat (n : nat) : string := NilZero.string_of_uint (Nat.to_uint n).
Definition str_Z (z : Z) : string := NilZero.string_of_int (Z.to_int z).

End PyStr.
Import PyStr.

(** ** Directive loader: [_split_emails] (lines 55-69) *)

(** The [for sep in (";", ","): ... break] loop: the pieces for the first
    separator that occurs in [raw], the empty list when none occurs. *)
Fixpoint split_on_first (seps : list ascii) (raw : string) : list string :=
  match seps with
  | [] => []
  | sep :: rest =>
      if contains sep raw then map strip (split sep raw)
      else split_on_first rest raw
  end.

Definition _split_emails (raw : string) : list string :=
  if negb (truthy raw) then []
  else
    let parts := split_on_first [";"%char; ","%char] raw in
    let parts := match parts with [] => [strip raw] | _ => parts end in
    filter (fun p => truthy p = true) parts.

(** The splitter as the specification words it: split on the semicolon when
    there is one, else on the comma when there is one, else the whole
    trimmed string; tokens are trimmed and the empty ones dropped. *)
Definition split_emails_spec (raw : string) : list string :=
  let tokens :=
    if contains ";"%char raw then map strip (split ";"%char raw)
    else if contains ","%char raw then map strip (split ","%char raw)
    else [strip raw] in
  filter (fun p => p ≠ EmptyString) tokens.

(** ** Notification dispatcher: [build_recipient_email] (lines 113-118) *)

Definition build_recipient_email (given sur domain : string) : string :=
  let local_part := replace " "%char EmptyString (lower (given ++ "." ++ sur)) in
  local_part ++ "@" ++ domain.

(** The address as the specification words it: the given name and the
    surname, spaces taken out, joined by a dot, in lower case, then the
    at sign and the domain. *)
Definition strip_spaces (s : string) : string :=
  string_of_list_ascii
    (filter (fun c => c ≠ " "%char) (list_ascii_of_string s)).

Definition recipient_spec (given sur domain : string) : string :=
  lower (strip_spaces given ++ "." ++ strip_spaces sur) ++ "@" ++ domain.

(** ** Exceptions, results, and the run monad *)

Inductive exn : Type :=
| ValueError (msg : string)
| FileNotFoundError (path : string)
| OSError (msg : string)
| DatabaseError (msg : string)
| SMTPException (msg : string)
| EmptyDataError
| IllegalCharacterError (value : string)
| IndexError (msg : string).

(** [str(ex)] *)
Definition exn_str (e : exn) : string :=
  match e with
  | ValueError m | OSError m | DatabaseError m | SMTPException m | IndexError m => m
  | FileNotFoundError p => "[Errno 2] No such file or directory: '" ++ p ++ "'"
  | EmptyDataError => "No columns to parse from file"
  | IllegalCharacterError v => v ++ " cannot be used in worksheets."
  end.

Inductive result (A : Type) : Type :=
| Ok (a : A)
| Raise (e : exn).
Arguments Ok {A} a.
Arguments Raise {A} e.

(** What the environment answers to one request. *)
Inductive outcome : Type :=
| Success
| Failure (msg : string).

Definition succeeds (o : outcome) : bool :=
  match o with Success => true | Failure _ => false end.

(** ** Directive loader: [read_employees] (lines 72-110) *)

Definition employee : Type := string * string * list string.

(** [csv.DictReader]: the dictionary of one row.  [zip] pairs the field
    names with the cells, a later duplicate name overwriting an earlier
    one; names beyond the end of a short row get [restval], [None]. *)
Definition dict_of_row (fieldnames row : list string) : gmap string (option string) :=
  let zipped :=
    foldl (fun d kv => <[kv.1 := Some kv.2]> d) ∅ (zip fieldnames row) in
  foldl (fun d k => <[k := None]> d) zipped (drop (length row) fieldnames).

(** [(row.get(key) or "")] *)
Definition get_or_empty (d : gmap string (option string)) (key : string) : string :=
  match d !! key with
  | Some (Some v) => v
  | _ => EmptyString
  end.

Definition cc_candidates : list string := ["Email"; "EmailAddress"; "CC"; "Cc"].

(** [next((c for c in cc_candidates if c in fieldnames), None)] *)
Definition find_cc_col (fieldnames : gset string) : option string :=
  List.find (fun c => bool_decide (c ∈ fieldnames)) cc_candidates.

(** [sorted(required.difference(fieldnames))] with
    [required = {"Surname", "GivenName"}]. *)
Definition missing_required (fieldnames : gset string) : list string :=
  List.filter (fun r => negb (bool_decide (r ∈ fieldnames))) ["GivenName"; "Surname"].

(** The body of the [for row in reader] loop. *)
Definition read_row (fieldnames : list string) (cc_col : string)
    (row : list string) : option employee :=
  let d := dict_of_row fieldnames row in
  let sur := strip (get_or_empty d "Surname") in
  let given := strip (get_or_empty d "GivenName") in
  let raw_cc := strip (get_or_empty d cc_col) in
  if negb (truthy given) || negb (truthy sur) then None
  else Some (given, sur, _split_emails raw_cc).

(** [read_employees] on the records of the input file: the first record
    is [reader.fieldnames] ([None], hence [[]], for an empty file);
    [DictReader] passes over records without a cell. *)
Definition read_employees (records : list (list string)) : result (list employee) :=
  let header := match records with [] => [] | h :: _ => h end in
  let fieldnames : gset string := list_to_set (map strip header) in
  match missing_required fieldnames with
  | (_ :: _) as missing =>
      Raise (ValueError ("Input CSV missing required column(s): " ++ join ", " missing))
  | [] =>
      match find_cc_col fieldnames with
      | None =>
          Raise (ValueError
            ("Input CSV missing the third column for CC email. " ++
             "Please include one of: 'Email', 'EmailAddress', 'CC', or 'Cc'."))
      | Some cc_col =>
          let rows := List.filter (fun r => negb (bool_decide (r = []))) (tail records) in
          Ok (omap (read_row header cc_col) rows)
      end
  end.

(** A header holds a label as the specification reads it, without regard
    to case, when some field name, trimmed and lowered, is the lowered
    label. *)
Definition has_label_ci (label : string) (header : list string) : bool :=
  existsb (fun h => String.eqb (lower (strip h)) (lower label)) header.

Definition has_cc_header (header : list string) : bool :=
  existsb (fun h => existsb (String.eqb (strip h)) cc_candidates) header.

Definition raises {A} (r : result A) : bool :=
  match r with Ok _ => false | Raise _ => true end.

(** ** Configuration (lines 13-52) *)

Definition INPUT_EMPLOYEES_CSV : string := "employeesInput.csv".
Definition COMBINED_OUTPUT_PATH : string := "hardwareOutput.csv".
Definition OUTPUT_DIR : string := "out".
Definition SMTP_HOST : string := "smtp.example.com".
Definition SMTP_PORT : nat := 25.
Definition SENDER_EMAIL : string := "noreply@example.com".
Definition RECIPIENT_DOMAIN : string := "example.com".
Definition EMAIL_SUBJECT : string := "IT Equipment Return (Offboarding)".

(** ** Paths: [os.path.join], [os.path.splitext], [os.path.basename] *)

(** [s.rfind(c)]: the index of the last [c] in [s]. *)
Fixpoint rfind (c : ascii) (s : string) : option nat :=
  match s with
  | EmptyString => None
  | String x r =>
      match rfind c r with
      | Some i => Some (S i)
      | None => if Ascii.eqb x c then Some 0%nat else None
      end
  end.

(** [os.path.splitext(p)[0]]: the extension starts at the last dot of the
    last component, unless only dots come before it there. *)
Definition splitext_root (p : string) : string :=
  let filenameIndex := match rfind "/"%char p with Some i => S i | None => 0%nat end in
  match rfind "."%char p with
  | None => p
  | Some dotIndex =>
      if (filenameIndex <=? dotIndex)%nat
         && negb (forallb (Ascii.eqb "."%char)
                    (list_ascii_of_string
                       (substring filenameIndex (dotIndex - filenameIndex) p)))
      then substring 0 dotIndex p
      else p
  end.

(** [os.path.basename(p)] *)
Definition basename (p : string) : string :=
  match rfind "/"%char p with
  | Some i => substring (S i) (String.length p - S i) p
  | None => p
  end.

Definition path_join (dir name : string) : string := dir ++ "/" ++ name.

(** The last character of a path, by which a table file is told from a
    workbook. *)
Fixpoint last_char (s : string) : option ascii :=
  match s with
  | EmptyString => None
  | String c r => match last_char r with Some x => Some x | None => Some c end
  end.

(** ** Tables, workbooks and files *)

(** A value of a result row: [None] is NULL. *)
Definition cell : Type := option string.
Definition row : Type := list cell.

(** [["" if v is None else v for v in row]] as [csv.writer] puts it. *)
Definition cell_text (v : cell) : string := default EmptyString v.
Definition row_text (r : row) : list string := map cell_text r.

(** A cell of a workbook.  [XInt z] is a number cell, [XStr s] a text
    cell.  [XInferred t] stands for whatever pandas makes of the token
    [t] outside the part of its inference that is written out below (a
    float, a boolean, a blank for a missing value, the text itself, a
    renamed column label). *)
Inductive xl_value : Type :=
| XInt (z : Z)
| XStr (s : string)
| XInferred (token : string).

Record dataframe : Type := {
  df_columns : list xl_value;
  df_rows : list (list xl_value)
}.

Record workbook : Type := {
  wb_sheet : string;
  wb_header : list xl_value;
  wb_rows : list (list xl_value)
}.

(** [XlsxUnfinished df] is what is at the path of a workbook when
    [df.to_excel] has raised: the writer had opened the file, and leaves
    in it the cells that were put on the sheet before the exception, if
    any. *)
Inductive file : Type :=
| CsvFile (records : list (list string))
| XlsxFile (wb : workbook)
| XlsxUnfinished (df : dataframe).

(** *** [pd.read_csv] with its default inference, on the records of a file *)

Definition isspace_c (c : ascii) : bool :=
  let n := nat_of_ascii c in (((9 <=? n) && (n <=? 13)) || (n =? 32))%nat.

Definition isdigit_c (c : ascii) : bool :=
  let n := nat_of_ascii c in ((48 <=? n) && (n <=? 57))%nat.

Definition digit_val (c : ascii) : Z := Z.of_nat (nat_of_ascii c - 48).

Fixpoint skip_spaces (s : string) : string :=
  match s with
  | String c r => if isspace_c c then skip_spaces r else s
  | EmptyString => EmptyString
  end.

Fixpoint read_digits (acc : Z) (s : string) : Z * string :=
  match s with
  | String c r =>
      if isdigit_c c then read_digits (10 * acc + digit_val c) r else (acc, s)
  | EmptyString => (acc, EmptyString)
  end.

Definition in_int64 (z : Z) : bool :=
  ((- 2 ^ 63 <=? z) && (z <? 2 ^ 63))%Z.

(** The tokenizer's integer reader: blanks, a sign, at least one digit,
    digits, blanks, the end; within 64 bits. *)
Definition parse_int64 (s : string) : option Z :=
  let s1 := skip_spaces s in
  let '(neg, s2) :=
    match s1 with
    | String c r =>
        if Ascii.eqb c "-"%char then (true, r)
        else if Ascii.eqb c "+"%char then (false, r)
        else (false, s1)
    | EmptyString => (false, s1)
    end in
  match s2 with
  | String c _ =>
      if isdigit_c c then
        let '(v, rest) := read_digits 0 s2 in
        match skip_spaces rest with
        | EmptyString =>
            let z := if (neg : bool) then (- v)%Z else v in
            if in_int64 z then Some z else None
        | String _ _ => None
        end
      else None
  | EmptyString => None
  end.

(** A column is read as 64-bit integers when every one of its tokens is
    an integer literal. *)
Definition column_is_int64 (data : list (list string)) (j : nat) : bool :=
  forallb (fun r => match r !! j with
                    | Some t => bool_decide (is_Some (parse_int64 t))
                    | None => false
                    end) data.

(** The characters of which the tokenizer makes numbers: digits, signs,
    the point, the exponent letter, and the blanks it passes over. *)
Definition number_char (c : ascii) : bool :=
  isdigit_c c || isspace_c c
  || existsb (Ascii.eqb c) ["+"; "-"; "."; "e"; "E"]%char.

(** The words that are read as a missing value, an infinity or a
    boolean, in lower case; the match here is wider than that of pandas
    (which compares some of them exactly), so that a token is taken for
    text only when it is none of them in any spelling. *)
Definition special_words : list string :=
  ["inf"; "+inf"; "-inf"; "infinity"; "+infinity"; "-infinity";
   "nan"; "+nan"; "-nan"; "na"; "n/a"; "null"; "none"; "<na>";
   "#n/a"; "#n/a n/a"; "#na"; "-1.#ind"; "1.#ind"; "-1.#qnan"; "1.#qnan";
   "true"; "false"].

Definition special_word (t : string) : bool :=
  existsb (String.eqb (lower (strip t))) special_words.

(** A token that can only be text: it holds a character that no number
    holds, and is none of the special words.  Whatever else its column
    holds, pandas keeps it as the string it is. *)
Definition surely_text (t : string) : bool :=
  existsb (fun c => negb (number_char c)) (list_ascii_of_string t)
  && negb (special_word t).

(** A text made of printable ASCII characters, not empty, not longer
    than a cell can hold, and not starting like a formula or an error
    code: a workbook stores such a text as it is. *)
Definition plain_label (s : string) : bool :=
  truthy s
  && (Z.of_nat (String.length s) <=? 32767)%Z
  && forallb (fun c => let n := nat_of_ascii c in ((32 <=? n) && (n <=? 126))%nat)
       (list_ascii_of_string s)
  && negb (match s with
           | String c _ => Ascii.eqb c "="%char || Ascii.eqb c "#"%char
           | EmptyString => false
           end).

Definition text_token (t : string) : bool := surely_text t && plain_label t.

Definition infer_cell (data : list (list string)) (j : nat) (t : string) : xl_value :=
  if text_token t then XStr t
  else if column_is_int64 data j then
    match parse_int64 t with Some z => XInt z | None => XInferred t end
  else XInferred t.

(** Labels are kept as they are when each is plain and none repeats;
    pandas renames empty and repeated labels. *)
Definition clean_header (header : list string) : bool :=
  bool_decide (NoDup header) && forallb plain_label header.

(** A line the tokenizer passes over: an empty one, or one made of
    blanks and tabs only.  [csv.writer] writes an empty line for a
    record without a cell, and puts a lone empty cell in quotes; so the
    records passed over are those without a cell and those of one cell
    that is not empty and holds blanks and tabs only. *)
Definition blank_line (r : list string) : bool :=
  match r with
  | [] => true
  | [t] => truthy t
           && forallb (fun c => Ascii.eqb c " "%char || Ascii.eqb c (ascii_of_nat 9))
                (list_ascii_of_string t)
  | _ :: _ :: _ => false
  end.

(** Blank lines are passed over; a file without a header line raises;
    the first line gives the labels and the others the rows.  Rows that
    do not have one token per label are outside what the orchestrator
    writes (a cursor's rows are as wide as its description), and their
    cells are left uninterpreted. *)
Definition pd_read_csv (records : list (list string)) : result dataframe :=
  match List.filter (fun r => negb (blank_line r)) records with
  | [] => Raise EmptyDataError
  | header :: data =>
      let columns :=
        if clean_header header then map XStr header else map XInferred header in
      let rows :=
        if forallb (fun r => (length r =? length header)%nat) data
        then map (imap (infer_cell data)) data
        else map (map XInferred) data in
      Ok {| df_columns := columns; df_rows := rows |}
  end.

(** *** [df.to_excel(writer, sheet_name=..., index=False)] *)

(** The characters openpyxl refuses in a text: the control characters
    other than tab, line feed and carriage return. *)
Definition illegal_char (c : ascii) : bool :=
  let n := nat_of_ascii c in
  ((n <? 32) && negb (n =? 9) && negb (n =? 10) && negb (n =? 13))%nat.

Definition has_illegal (s : string) : bool :=
  existsb illegal_char (list_ascii_of_string s).

(** The text of a value that cannot be put in a cell.  A number is never
    refused.  An uninterpreted token with an illegal character is taken
    for text (a vertical tab or a form feed beside the digits of a
    number that pandas reads as a float is not told apart). *)
Definition refused_text (v : xl_value) : option string :=
  match v with
  | XInt _ => None
  | XStr s | XInferred s => if has_illegal s then Some s else None
  end.

(** The cells in the order in which they are put on the sheet: the
    header, then the values column by column. *)
Definition cells_in_write_order (df : dataframe) : list xl_value :=
  df_columns df
  ++ (seq 0 (length (df_columns df)) ≫= fun j => omap (fun r => r !! j) (df_rows df)).

(** The exception that leaves the [with pd.ExcelWriter(...)] block, if
    any.  A frame of more than 2^20 rows or 2^14 columns is refused
    before a sheet is made, and saving a workbook without a sheet, on
    the way out of the block, raises in turn.  Otherwise the first text
    with an illegal character raises when it is put in its cell. *)
Definition to_excel_error (df : dataframe) : option exn :=
  if ((2 ^ 20 <? Z.of_nat (length (df_rows df)))
      || (2 ^ 14 <? Z.of_nat (length (df_columns df))))%Z
  then Some (IndexError "At least one sheet must be visible")
  else
    match list_find (fun v => is_Some (refused_text v)) (cells_in_write_order df) with
    | Some (_, v) => Some (IllegalCharacterError (default EmptyString (refused_text v)))
    | None => None
    end.

(** A number cell holds a double: an integer of magnitude up to 2^53 is
    kept exactly; what is kept of a larger one is not followed here. *)
Definition excel_cell (v : xl_value) : xl_value :=
  match v with
  | XInt z => if (Z.abs z <=? 2 ^ 53)%Z then XInt z else XInferred (str_Z z)
  | XStr _ | XInferred _ => v
  end.

(** The workbook that is written when nothing is refused; the labels
    are texts. *)
Definition to_excel (sheet_name : string) (df : dataframe) : workbook :=
  {| wb_sheet := sheet_name;
     wb_header := df_columns df;
     wb_rows := map (map excel_cell) (df_rows df) |}.

(** Reading a workbook back as strings: [str] of each cell, where the
    cell is one this development interprets. *)
Definition xl_str (v : xl_value) : option string :=
  match v with
  | XInt z => Some (str_Z z)
  | XStr s => Some s
  | XInferred _ => None
  end.

Definition read_back (wb : workbook) : option (list string * list (list string)) :=
  cols ← mapM xl_str (wb_header wb);
  rows ← mapM (mapM xl_str) (wb_rows wb);
  Some (cols, rows).

(** ** HTML preview: [build_html_table] (lines 185-213) *)

Definition esc (x : cell) : string :=
  let s := match x with None => EmptyString | Some s => s end in
  replace ">"%char "&gt;" (replace "<"%char "&lt;" (replace "&"%char "&amp;" s)).

Definition build_html_table (col_names : list string) (rows : list row) : string :=
  let thead :=
    concat_all
      (map (fun c =>
              concat_all
                ["<th style="; dq;
                 "background:#f2f2f2; padding:6px; border:1px solid #ccc; text-align:left;";
                 dq; ">"; esc (Some c); "</th>"])
           col_names) in
  let tbody_rows :=
    map (fun r =>
           let tds :=
             concat_all
               (map (fun v =>
                       concat_all
                         ["<td style="; dq; "padding:6px; border:1px solid #ccc;"; dq; ">";
                          esc v; "</td>"])
                    r) in
           concat_all ["<tr>"; tds; "</tr>"])
        rows in
  concat_all
    ["<table style="; dq; "border-collapse:collapse; width:100%;"; dq; ">";
     "<thead><tr>"; thead; "</tr></thead>";
     "<tbody>"; concat_all tbody_rows; "</tbody>";
     "</table>"].

(** ** Message bodies (lines 321-365) *)

Definition body_with_rows (given sur table_html : string) : string :=
  concat_all [
    nl;
    "                <!DOCTYPE html>"; nl;
    "                <html>"; nl;
    "                  <body style="; dq; "font-family:Segoe UI, Arial, sans-serif; font-size:18px; color:#333; line-height:1.5;"; dq; ">"; nl;
    "                    <p>Dear "; given; " "; sur; ",</p>"; nl;
    "                "; nl;
    "                    <p>"; nl;
    "                      For your <strong>Offboarding</strong>, please make sure to"; nl;
    "                      <u><strong>return all your IT Equipment as seen in the screenshot below.</strong></u>"; nl;
    "                    </p>"; nl;
    "                "; nl;
    "                    <p>"; nl;
    "                      <span style="; dq; "background-color: yellow;"; dq; "><strong><u>Important:</u></strong></span>"; nl;
    "                    </p>"; nl;
    "                "; nl;
    "                    <hr style="; dq; "border:none; border-top:1px solid #ddd; margin:20px 0;"; dq; ">"; nl;
    "                    <p style="; dq; "margin:0 0 8px 0;"; dq; "><strong>Hardware assigned to your account (inline preview):</strong></p>"; nl;
    "                "; nl;
    "                    "; table_html; nl;
    "                "; nl;
    "                    <p style="; dq; "font-size:12px; color:#666; margin-top:10px;"; dq; ">"; nl;
    "                      This inline table is for a quick preview. The full details are also attached as an Excel file."; nl;
    "                    </p>"; nl;
    "                "; nl;
    "                    <p>"; nl;
    "                      Best regards,"; nl;
    "                "; tab; "    IT Team "; nl;
    "                    </p>"; nl;
    "                "; nl;
    "                  </body>"; nl;
    "                </html>"; nl;
    "                "
  ].

Definition body_nothing_found (given sur : string) : string :=
  concat_all [
    nl;
    "                <!DOCTYPE html>"; nl;
    "                <html>"; nl;
    "                  <body style="; dq; "font-family:Segoe UI, Arial, sans-serif; font-size:14px; color:#333; line-height:1.5;"; dq; ">"; nl;
    "                    <p>Hi "; given; " "; sur; ",</p>"; nl;
    "                    <p>We could not find any hardware currently assigned to your account.</p>"; nl;
    "                    <p>If this is unexpected, please contact IT Support.</p>"; nl;
    "                    <p>Best regards,<br/>IT Support</p>"; nl;
    "                  </body>"; nl;
    "                </html>"; nl;
    "                "
  ].


(** [table_html] and [body_html] of the loop body (lines 317-365). *)
Definition table_html_of (col_names : list string) (rows : list row) : string :=
  match rows with
  | [] => EmptyString
  | _ :: _ => build_html_table col_names rows
  end.

Definition body_html_of (given sur : string) (col_names : list string) (rows : list row) : string :=
  match rows with
  | [] => body_nothing_found given sur
  | _ :: _ => body_with_rows given sur (table_html_of col_names rows)
  end.

(** ** The world outside, and the state of a run *)

(** The assembled message (lines 229-245). *)
Record message : Type := {
  msg_from : string;
  msg_to : string;
  msg_cc : option string;
  msg_subject : string;
  msg_html : string;
  msg_attachment_name : string;
  msg_attachment : file
}.

Inductive event : Type :=
| EvDbConnect
| EvDbClose
| EvSmtpOpen
| EvSmtpEhlo (ok : bool)
| EvSmtpSendmail (sender : string) (recipients : list string) (m : message)
| EvSmtpClose.

(** What the run prints. *)
Inductive out_line : Type :=
| OutNoEmployees
| OutSent (to_email : string) (cc_emails : list string) (nrows : nat) (xlsx_path : string)
| OutErrorSending (to_email : string) (mail_ex : exn)
| OutNoRows
| OutSaved (total_written : nat).

Definition render (cwd : string) (l : out_line) : string :=
  match l with
  | OutNoEmployees =>
      "No valid employees found in " ++ INPUT_EMPLOYEES_CSV ++ ". Nothing to do."
  | OutSent to_email cc_emails nrows xlsx_path =>
      "Sent email to " ++ to_email ++ " (CC: " ++
      (match cc_emails with [] => "none" | _ => join ", " cc_emails end) ++ ") " ++
      "from " ++ SENDER_EMAIL ++ " via " ++ SMTP_HOST ++ ":" ++ str_nat SMTP_PORT ++
      " with " ++ str_nat nrows ++ " row(s). " ++
      "Attachment: " ++ xlsx_path
  | OutErrorSending to_email mail_ex =>
      "ERROR sending to " ++ to_email ++ ": " ++ exn_str mail_ex
  | OutNoRows => "No rows matched any of the provided employees."
  | OutSaved total_written =>
      nl ++ "Saved " ++ str_nat total_written ++ " row(s) to combined file: " ++
      path_join cwd COMBINED_OUTPUT_PATH
  end.

(** The answers of the environment.  The requests made for the employee
    at position [i] of the batch carry [i]. *)
Record world : Type := {
  w_input : option (list (list string));
  w_remove : outcome;
  w_db_connect : outcome;
  w_query : nat -> string -> string -> result (list string * list row);
  w_makedirs : nat -> outcome;
  w_open : nat -> string -> outcome;
  w_smtp_connect : nat -> outcome;
  w_smtp_ehlo : nat -> outcome;
  w_smtp_sendmail : nat -> outcome;
  w_smtp_quit : nat -> outcome
}.

Record state : Type := {
  fs : gmap string file;
  log : list out_line;
  trace : list event
}.

Definition initial (files : gmap string file) : state :=
  {| fs := files; log := []; trace := [] |}.

(** A computation changes the state and returns or raises; what was done
    before an exception stays done. *)
Definition M (A : Type) : Type := state -> result A * state.

Definition ret {A} (a : A) : M A := fun st => (Ok a, st).
Definition raise {A} (e : exn) : M A := fun st => (Raise e, st).
Definition bind {A B} (m : M A) (k : A -> M B) : M B :=
  fun st =>
    match m st with
    | (Ok a, st') => k a st'
    | (Raise e, st') => (Raise e, st')
    end.

#[global] Instance M_ret : MRet M := @ret.
#[global] Instance M_bind : MBind M := fun A B k m => bind m k.

(** [try: body  except Exception as ex: handler] *)
Definition try_except {A} (body : M A) (handler : exn -> M A) : M A :=
  fun st =>
    match body st with
    | (Ok a, st') => (Ok a, st')
    | (Raise e, st') => handler e st'
    end.

(** [try: body  finally: fin] *)
Definition try_finally {A} (body : M A) (fin : M unit) : M A :=
  fun st =>
    match body st with
    | (r, st') =>
        match fin st' with
        | (Ok _, st'') => (r, st'')
        | (Raise e, st'') => (Raise e, st'')
        end
    end.

Definition lift {A} (r : result A) : M A := fun st => (r, st).

Definition with_events (es : list event) (st : state) : state :=
  {| fs := fs st; log := log st; trace := trace st ++ es |}.

Definition with_line (l : out_line) (st : state) : state :=
  {| fs := fs st; log := log st ++ [l]; trace := trace st |}.

Definition with_file (path : string) (f : file) (st : state) : state :=
  {| fs := <[path := f]> (fs st); log := log st; trace := trace st |}.

Definition without_file (path : string) (st : state) : state :=
  {| fs := delete path (fs st); log := log st; trace := trace st |}.

Definition emit (e : event) : M unit := fun st => (Ok tt, with_events [e] st).

Definition print (l : out_line) : M unit := fun st => (Ok tt, with_line l st).

Definition set_file (path : string) (f : file) : M unit :=
  fun st => (Ok tt, with_file path f st).

Definition remove_file (path : string) : M unit :=
  fun st => (Ok tt, without_file path st).

Definition lookup_file (path : string) : M (option file) :=
  fun st => (Ok (fs st !! path), st).

Definition check (o : outcome) : M unit :=
  match o with
  | Success => ret tt
  | Failure msg => raise (OSError msg)
  end.

(** [open(path, "w")], the records written, and the file closed.  A
    refused write is refused at [open]. *)
Definition write_records (w : world) (i : nat) (path : string)
    (records : list (list string)) : M unit :=
  check (w_open w i path);;
  set_file path (CsvFile records).

(** [open(path, "a")], the records written, and the file closed. *)
Definition append_records (w : world) (i : nat) (path : string)
    (records : list (list string)) : M unit :=
  check (w_open w i path);;
  old ← lookup_file path;
  match old with
  | Some (CsvFile existing) => set_file path (CsvFile (existing ++ records))
  | _ => set_file path (CsvFile records)
  end.

(** ** Report materializer *)

(** [write_employee_csv] (lines 121-135) *)
Definition safe_name (given sur : string) : string :=
  replace " "%char "_" (given ++ "_" ++ sur).

Definition csv_path_of (given sur : string) : string :=
  path_join OUTPUT_DIR ("hardware_" ++ safe_name given sur ++ ".csv").

Definition write_employee_csv (w : world) (i : nat) (given sur : string)
    (col_names : list string) (rows : list row) : M string :=
  check (w_makedirs w i);;
  let csv_path := csv_path_of given sur in
  write_records w i csv_path (col_names :: map row_text rows);;
  ret csv_path.

(** [convert_csv_to_xlsx] (lines 138-160).  The widths of the columns
    (lines 150-159) are presentation and are not part of [workbook].
    The writer opens the workbook file before [to_excel] runs; when
    [to_excel] raises, the exception leaves the function and the file
    is left unfinished. *)
Definition xlsx_path_of (csv_path : string) : string :=
  splitext_root csv_path ++ ".xlsx".

Definition convert_csv_to_xlsx (w : world) (i : nat) (csv_path : string) : M string :=
  let xlsx_path := xlsx_path_of csv_path in
  f ← lookup_file csv_path;
  records ← match f with
             | Some (CsvFile records) => ret records
             | Some (XlsxFile _) | Some (XlsxUnfinished _) =>
                 raise (ValueError "not a delimited text file")
             | None => raise (FileNotFoundError csv_path)
             end;
  df ← lift (pd_read_csv records);
  check (w_open w i xlsx_path);;
  match to_excel_error df with
  | Some e => set_file xlsx_path (XlsxUnfinished df);; raise e
  | None => set_file xlsx_path (XlsxFile (to_excel "Hardware" df));; ret xlsx_path
  end.

(** [append_to_combined_csv] (lines 163-182) *)
Definition append_to_combined_csv (w : world) (i : nat) (col_names : list string)
    (rows : list row) (combined_path : string) (first_write : bool) : M nat :=
  match rows with
  | [] =>
      (if first_write then write_records w i combined_path [col_names] else ret tt);;
      ret 0%nat
  | _ :: _ =>
      (if first_write
       then write_records w i combined_path (col_names :: map row_text rows)
       else append_records w i combined_path (map row_text rows));;
      ret (length rows)
  end.

(** ** Notification dispatcher: [send_email_with_attachment] (lines 216-254) *)

Definition smtp_failure (o : outcome) : M unit :=
  match o with
  | Success => ret tt
  | Failure msg => raise (SMTPException msg)
  end.

(** The connection of the [smtplib.SMTP] object of the send for the
    employee at position [i], after its [ehlo]: an [ehlo] that raises
    has closed the socket. *)
Definition still_connected (w : world) (i : nat) : bool :=
  succeeds (w_smtp_ehlo w i).

(** [SMTP.__exit__]: QUIT is sent and the socket closed; a reply other
    than 221 raises, a connection that is no longer there does not. *)
Definition smtp_exit (w : world) (i : nat) : M unit :=
  emit EvSmtpClose;;
  if still_connected w i then smtp_failure (w_smtp_quit w i) else ret tt.

(** [with smtplib.SMTP(host, port) as server: body]: nothing is held when
    the connection cannot be made; once made it is closed on the way
    out, however the body ends. *)
Definition with_smtp {A} (w : world) (i : nat) (body : M A) : M A :=
  smtp_failure (w_smtp_connect w i);;
  emit EvSmtpOpen;;
  try_finally body (smtp_exit w i).

Definition server_ehlo (w : world) (i : nat) : M unit :=
  emit (EvSmtpEhlo (succeeds (w_smtp_ehlo w i)));;
  smtp_failure (w_smtp_ehlo w i).

(** [server.sendmail(...)]: on a socket that has been closed it raises
    before anything is sent. *)
Definition server_sendmail (w : world) (i : nat) (sender : string)
    (recipients : list string) (m : message) : M unit :=
  emit (EvSmtpSendmail sender recipients m);;
  if still_connected w i then smtp_failure (w_smtp_sendmail w i)
  else raise (SMTPException "please run connect() first").

(** The multipart message (lines 229-245): the Cc header is set only
    when there are CC addresses. *)
Definition build_message (to_email subject html_body attachment_path : string)
    (cc_emails : list string) (payload : file) : message :=
  {| msg_from := SENDER_EMAIL;
     msg_to := to_email;
     msg_cc := match cc_emails with
               | [] => None
               | _ :: _ => Some (join ", " cc_emails)
               end;
     msg_subject := subject;
     msg_html := html_body;
     msg_attachment_name := basename attachment_path;
     msg_attachment := payload |}.

Definition send_email_with_attachment (w : world) (i : nat)
    (to_email subject html_body attachment_path : string)
    (cc_emails : list string) : M unit :=
  f ← lookup_file attachment_path;
  payload ← match f with
             | Some payload => ret payload
             | None => raise (FileNotFoundError attachment_path)
             end;
  let m := build_message to_email subject html_body attachment_path cc_emails payload in
  let recipients := to_email :: cc_emails in
  with_smtp w i
    (try_except (server_ehlo w i) (fun _ => ret tt);;
     server_sendmail w i SENDER_EMAIL recipients m).

(** ** Pipeline orchestrator: [main] (lines 258-384) *)

(** The body of the loop over the employees (lines 298-376); the pair is
    [(total_written, first_write_combined)]. *)
Definition process_employee (w : world) (i : nat) (e : employee)
    (acc : nat * bool) : M (nat * bool) :=
  let '(given, sur, cc_emails) := e in
  let '(total_written, first_write_combined) := acc in
  q ← lift (w_query w i given sur);
  let '(col_names, rows) := q in
  csv_path ← write_employee_csv w i given sur col_names rows;
  xlsx_path ← convert_csv_to_xlsx w i csv_path;
  written ← append_to_combined_csv w i col_names rows COMBINED_OUTPUT_PATH
               first_write_combined;
  let first_write_combined :=
    if (0 <? written)%nat && first_write_combined then false
    else first_write_combined in
  let total_written := (total_written + written)%nat in
  let to_email := build_recipient_email given sur RECIPIENT_DOMAIN in
  let body_html := body_html_of given sur col_names rows in
  try_except
    (send_email_with_attachment w i to_email EMAIL_SUBJECT body_html xlsx_path cc_emails;;
     print (OutSent to_email cc_emails (length rows) xlsx_path))
    (fun mail_ex => print (OutErrorSending to_email mail_ex));;
  ret (total_written, first_write_combined).

Fixpoint process_all (w : world) (i : nat) (employees : list employee)
    (acc : nat * bool) : M (nat * bool) :=
  match employees with
  | [] => ret acc
  | e :: rest =>
      acc' ← process_employee w i e acc;
      process_all w (S i) rest acc'
  end.

Definition load_employees (w : world) : M (list employee) :=
  match w_input w with
  | None => raise (FileNotFoundError INPUT_EMPLOYEES_CSV)
  | Some records => lift (read_employees records)
  end.

Definition db_connect (w : world) : M unit :=
  match w_db_connect w with
  | Success => emit EvDbConnect
  | Failure msg => raise (DatabaseError msg)
  end.

Definition main (w : world) : M unit :=
  employees ← load_employees w;
  match employees with
  | [] => print OutNoEmployees
  | _ :: _ =>
      present ← lookup_file COMBINED_OUTPUT_PATH;
      (match present with
       | Some _ => check (w_remove w);; remove_file COMBINED_OUTPUT_PATH
       | None => ret tt
       end);;
      db_connect w;;
      try_finally
        (acc ← process_all w 0 employees (0%nat, true);
         if (acc.1 =? 0)%nat then print OutNoRows else print (OutSaved acc.1))
        (emit EvDbClose)
  end.

(** ** A run told from the answers of the world *)

(** What a send returns, and the events it leaves, when the attachment
    is there. *)
Definition send_result (w : world) (i : nat) : result unit :=
  match w_smtp_connect w i with
  | Failure msg => Raise (SMTPException msg)
  | Success =>
      match w_smtp_ehlo w i with
      | Failure _ => Raise (SMTPException "please run connect() first")
      | Success =>
          match w_smtp_quit w i, w_smtp_sendmail w i with
          | Failure msg, _ => Raise (SMTPException msg)
          | Success, Failure msg => Raise (SMTPException msg)
          | Success, Success => Ok tt
          end
      end
  end.

Definition send_events (w : world) (i : nat) (to_email : string)
    (cc_emails : list string) (m : message) : list event :=
  match w_smtp_connect w i with
  | Failure _ => []
  | Success =>
      [EvSmtpOpen; EvSmtpEhlo (succeeds (w_smtp_ehlo w i));
       EvSmtpSendmail SENDER_EMAIL (to_email :: cc_emails) m; EvSmtpClose]
  end.

(** The line printed for an employee after the send. *)
Definition notify_line (w : world) (i : nat) (to_email : string)
    (cc_emails : list string) (nrows : nat) (xlsx_path : string) : out_line :=
  match send_result w i with
  | Ok _ => OutSent to_email cc_emails nrows xlsx_path
  | Raise mail_ex => OutErrorSending to_email mail_ex
  end.

(** The state after the combined-audit append. *)
Definition combined_written (col_names : list string) (rows : list row)
    (first_write : bool) (st : state) : state :=
  match rows, first_write with
  | [], true => with_file COMBINED_OUTPUT_PATH (CsvFile [col_names]) st
  | [], false => st
  | _ :: _, true =>
      with_file COMBINED_OUTPUT_PATH (CsvFile (col_names :: map row_text rows)) st
  | _ :: _, false =>
      with_file COMBINED_OUTPUT_PATH
        (CsvFile (match fs st !! COMBINED_OUTPUT_PATH with
                  | Some (CsvFile existing) => existing ++ map row_text rows
                  | _ => map row_text rows
                  end)) st
  end.

(** The state after the three writes for one employee. *)
Definition materialized (given sur : string) (col_names : list string)
    (rows : list row) (df : dataframe) (first_write : bool) (st : state) : state :=
  combined_written col_names rows first_write
    (with_file (xlsx_path_of (csv_path_of given sur)) (XlsxFile (to_excel "Hardware" df))
       (with_file (csv_path_of given sur) (CsvFile (col_names :: map row_text rows)) st)).

(** The message composed for one employee. *)
Definition notification (given sur : string) (cc_emails : list string)
    (col_names : list string) (rows : list row) (df : dataframe) : message :=
  build_message (build_recipient_email given sur RECIPIENT_DOMAIN) EMAIL_SUBJECT
    (body_html_of given sur col_names rows) (xlsx_path_of (csv_path_of given sur))
    cc_emails (XlsxFile (to_excel "Hardware" df)).

(** The state after the whole loop body for one employee. *)
Definition notified (w : world) (i : nat) (given sur : string)
    (cc_emails : list string) (col_names : list string) (rows : list row)
    (df : dataframe) (st : state) : state :=
  with_line
    (notify_line w i (build_recipient_email given sur RECIPIENT_DOMAIN) cc_emails
       (length rows) (xlsx_path_of (csv_path_of given sur)))
    (with_events
       (send_events w i (build_recipient_email given sur RECIPIENT_DOMAIN) cc_emails
          (notification given sur cc_emails col_names rows df))
       st).

(** A table that can be written and converted: the header is not a line
    that pandas passes over (so there is at least one column), the rows
    are as wide as the header, no label and no value holds a character
    that a workbook refuses, and the sheet is not too large. *)
Definition writable_table (col_names : list string) (rows : list row) : Prop :=
  blank_line col_names = false
  ∧ Forall (fun r => length r = length col_names) rows
  ∧ Forall (fun c => has_illegal c = false) col_names
  ∧ Forall (Forall (fun v => has_illegal (cell_text v) = false)) rows
  ∧ (Z.of_nat (length rows) ≤ 2 ^ 20)%Z
  ∧ (Z.of_nat (length col_names) ≤ 2 ^ 14)%Z.

(** A query answer that is such a table. *)
Definition well_formed_result (q : result (list string * list row)) : Prop :=
  match q with
  | Ok (col_names, rows) => writable_table col_names rows
  | Raise _ => False
  end.

(** Nothing refuses the materialization of the employee at position
    [j]. *)
Definition step_healthy (w : world) (j : nat) : Prop :=
  w_makedirs w j = Success
  ∧ (∀ path, w_open w j path = Success)
  ∧ (∀ given sur, well_formed_result (w_query w j given sur)).

(** The rows found for an employee, and for a batch. *)
Definition query_rows (w : world) (i : nat) (e : employee) : list row :=
  match w_query w i e.1.1 e.1.2 with
  | Ok (_, rows) => rows
  | Raise _ => []
  end.

Fixpoint all_rows (w : world) (i : nat) (employees : list employee) : list row :=
  match employees with
  | [] => []
  | e :: rest => query_rows w i e ++ all_rows w (S i) rest
  end.

(** The lines printed for a batch, one per employee. *)
Fixpoint notify_lines (w : world) (i : nat) (employees : list employee) : list out_line :=
  match employees with
  | [] => []
  | e :: rest =>
      notify_line w i (build_recipient_email e.1.1 e.1.2 RECIPIENT_DOMAIN) e.2
        (length (query_rows w i e)) (xlsx_path_of (csv_path_of e.1.1 e.1.2))
      :: notify_lines w (S i) rest
  end.

(** Counting the events of one kind in a trace. *)
Definition is_db_connect (e : event) : bool :=
  match e with EvDbConnect => true | _ => false end.
Definition is_db_close (e : event) : bool :=
  match e with EvDbClose => true | _ => false end.
Definition is_smtp_open (e : event) : bool :=
  match e with EvSmtpOpen => true | _ => false end.
Definition is_smtp_close (e : event) : bool :=
  match e with EvSmtpClose => true | _ => false end.

Definition count_events (p : event → bool) (t : list event) : nat :=
  length (List.filter p t).

(** A line about the employee with this address. *)
Definition mentions (to_email : string) (l : out_line) : Prop :=
  match l with
  | OutSent t _ _ _ | OutErrorSending t _ => t = to_email
  | _ => False
  end.

(** One of the writes for the employee at position [i] is refused with
    [msg]: the output directory cannot be made, or the table file, or
    the workbook, or the combined file cannot be opened; the combined
    file is opened when there are rows to append or when it has not
    been written yet in this run. *)
Definition write_refused (w : world) (i : nat) (given sur : string)
    (first_write : bool) (msg : string) : Prop :=
  w_makedirs w i = Failure msg
  ∨ (w_makedirs w i = Success
     ∧ (w_open w i (csv_path_of given sur) = Failure msg
        ∨ (w_open w i (csv_path_of given sur) = Success
           ∧ w_open w i (xlsx_path_of (csv_path_of given sur)) = Failure msg)
        ∨ (w_open w i (csv_path_of given sur) = Success
           ∧ w_open w i (xlsx_path_of (csv_path_of given sur)) = Success
           ∧ w_open w i COMBINED_OUTPUT_PATH = Failure msg
           ∧ (query_rows w i (given, sur, []) ≠ [] ∨ first_write = true)))).

(** The address the loop body derives for an employee. *)
Definition address_of (e : employee) : string :=
  build_recipient_email e.1.1 e.1.2 RECIPIENT_DOMAIN.

(** The workbook and the message of the employee at position [i], as
    the answers of the world give them. *)
Definition step_frame (w : world) (i : nat) (e : employee) : dataframe :=
  match w_query w i e.1.1 e.1.2 with
  | Ok (col_names, rows) =>
      match pd_read_csv (col_names :: map row_text rows) with
      | Ok df => df
      | Raise _ => {| df_columns := []; df_rows := [] |}
      end
  | Raise _ => {| df_columns := []; df_rows := [] |}
  end.

Definition step_columns (w : world) (i : nat) (e : employee) : list string :=
  match w_query w i e.1.1 e.1.2 with
  | Ok (col_names, _) => col_names
  | Raise _ => []
  end.

Definition step_message (w : world) (i : nat) (e : employee) : message :=
  notification e.1.1 e.1.2 e.2 (step_columns w i e) (query_rows w i e) (step_frame w i e).

(** The events of the sends of a batch, one block per employee whose
    send reaches the relay. *)
Fixpoint batch_events (w : world) (i : nat) (employees : list employee) : list event :=
  match employees with
  | [] => []
  | e :: rest =>
      send_events w i (address_of e) e.2 (step_message w i e)
      ++ batch_events w (S i) rest
  end.

(** The state after the loop body for the employee at position [i],
    and after the loop over a batch, when nothing refuses a write. *)
Definition step_state (w : world) (i : nat) (e : employee) (first_write : bool)
    (st : state) : state :=
  notified w i e.1.1 e.1.2 e.2 (step_columns w i e) (query_rows w i e) (step_frame w i e)
    (materialized e.1.1 e.1.2 (step_columns w i e) (query_rows w i e) (step_frame w i e)
       first_write st).

Fixpoint batch_state (w : world) (i : nat) (employees : list employee)
    (first_write : bool) (st : state) : state :=
  match employees with
  | [] => st
  | e :: rest =>
      batch_state w (S i) rest
        (match query_rows w i e with [] => first_write | _ :: _ => false end)
        (step_state w i e first_write st)
  end.

(** One connection to the relay, from its opening to its closing. *)
Definition relay_block (seg : list event) : Prop :=
  ∃ ok sender recipients m,
    seg = [EvSmtpOpen; EvSmtpEhlo ok; EvSmtpSendmail sender recipients m; EvSmtpClose].

(** A stretch of the run in which the database connection is left alone
    and the relay is connected to, if at all, one connection after the
    other, at most [n] times. *)
Definition relay_blocks (n : nat) (seg : list event) : Prop :=
  ∃ blocks, seg = concat blocks ∧ Forall relay_block blocks ∧ (length blocks ≤ n)%nat.

Definition blockwise {A} (n : nat) (m : M A) : Prop :=
  ∀ st, ∃ seg, trace (m st).2 = trace st ++ seg ∧ relay_blocks n seg.

(** ** The round trip of a table through a workbook *)

(** The table of an employee is written, converted, and the workbook
    read back as strings. *)
Definition round_trip (w : world) (i : nat) (given sur : string)
    (col_names : list string) (rows : list row) (st : state)
    : option (list string * list (list string)) :=
  match (csv_path ← write_employee_csv w i given sur col_names rows;
         convert_csv_to_xlsx w i csv_path) st with
  | (Ok xlsx_path, st') =>
      match fs st' !! xlsx_path with
      | Some (XlsxFile wb) => read_back wb
      | _ => None
      end
  | (Raise _, _) => None
  end.

(** A token that the round trip gives back as a number: the decimal
    form of an integer of magnitude up to 2^53, as [str] prints it. *)
Definition small_int_token (t : string) : bool :=
  match parse_int64 t with
  | Some z => (Z.abs z <=? 2 ^ 53)%Z && String.eqb (str_Z z) t
  | None => false
  end.

(** A cell that the round trip gives back as it was written: a text
    that can only be text, or such an integer in a column of integer
    literals. *)
Definition faithful_cell (data : list (list string)) (j : nat) (t : string) : bool :=
  text_token t || (column_is_int64 data j && small_int_token t).

(** ** Statements of the specification that the code does not meet *)

(** The schema check as the specification states it: an error exactly
    when a name column is absent, labels compared without regard to
    case, or no accepted CC header is there. *)
Definition schema_error_as_stated (header : list string) : Prop :=
  ∀ rows,
    raises (read_employees (header :: rows)) = true ↔
    (has_label_ci "Surname" header = false
     ∨ has_label_ci "GivenName" header = false
     ∨ has_cc_header header = false).

(** The round trip as the specification states it: the same labels in
    the same order, and every cell equal as a string to what was
    written. *)
Definition round_trip_faithful_as_stated (col_names : list string) (rows : list row) : Prop :=
  ∀ w i given sur st,
    w_makedirs w i = Success →
    (∀ path, w_open w i path = Success) →
    round_trip w i given sur col_names rows st = Some (col_names, map row_text rows).

(** Isolation of write failures as the specification states it: when
    the only requests refused are writes, the run still returns, and
    every employee whose own writes are accepted gets a line. *)
Definition write_failures_isolated_as_stated (w : world) (files : gmap string file) : Prop :=
  ∀ records employees,
    w_input w = Some records →
    read_employees records = Ok employees →
    w_remove w = Success →
    w_db_connect w = Success →
    (∀ j, w_makedirs w j = Success) →
    (∀ j given sur, well_formed_result (w_query w j given sur)) →
    (main w (initial files)).1 = Ok tt
    ∧ ∀ i given sur cc_emails,
        employees !! i = Some (given, sur, cc_emails) →
        (∀ path, w_open w i path = Success) →
        ∃ l, l ∈ log (main w (initial files)).2
             ∧ mentions (build_recipient_email given sur RECIPIENT_DOMAIN) l.

(** The send as the claim states it: when the connection is made and
    the call of sendmail does not raise, the send returns. *)
Definition send_fails_only_on_connect_or_sendmail_as_stated (w : world) (i : nat) : Prop :=
  ∀ to_email subject html_body attachment_path cc_emails st payload,
    fs st !! attachment_path = Some payload →
    w_smtp_connect w i = Success →
    (∀ sender recipients m st', (server_sendmail w i sender recipients m st').1 = Ok tt) →
    (send_email_with_attachment w i to_email subject html_body attachment_path
       cc_emails st).1 = Ok tt.

(** Connections as the specification states them: over the whole run,
    one acquisition and one release of each. *)
Definition connections_acquired_once_as_stated (w : world) (files : gmap string file) : Prop :=
  let t := trace (main w (initial files)).2 in
  count_events is_db_connect t = 1%nat
  ∧ count_events is_db_close t = 1%nat
  ∧ count_events is_smtp_open t = 1%nat
  ∧ count_events is_smtp_close t = 1%nat.

(** ** Scenarios *)

(** A world in which every request succeeds and every query finds
    nothing. *)
Definition quiet_world : world :=
  {| w_input := Some [];
     w_remove := Success;
     w_db_connect := Success;
     w_query := fun _ _ _ => Ok ([], []);
     w_makedirs := fun _ => Success;
     w_open := fun _ _ => Success;
     w_smtp_connect := fun _ => Success;
     w_smtp_ehlo := fun _ => Success;
     w_smtp_sendmail := fun _ => Success;
     w_smtp_quit := fun _ => Success |}.

(** The relay accepts the connection and goes away during the
    greeting. *)
Definition deaf_relay_world : world :=
  {| w_input := w_input quiet_world;
     w_remove := w_remove quiet_world;
     w_db_connect := w_db_connect quiet_world;
     w_query := w_query quiet_world;
     w_makedirs := w_makedirs quiet_world;
     w_open := w_open quiet_world;
     w_smtp_connect := fun _ => Success;
     w_smtp_ehlo := fun _ => Failure "Connection unexpectedly closed";
     w_smtp_sendmail := fun _ => Success;
     w_smtp_quit := fun _ => Success |}.

(** The relay accepts the connection, the greeting and the message, and
    answers QUIT with an error. *)
Definition quit_refused_world : world :=
  {| w_input := w_input quiet_world;
     w_remove := w_remove quiet_world;
     w_db_connect := w_db_connect quiet_world;
     w_query := w_query quiet_world;
     w_makedirs := w_makedirs quiet_world;
     w_open := w_open quiet_world;
     w_smtp_connect := fun _ => Success;
     w_smtp_ehlo := fun _ => Success;
     w_smtp_sendmail := fun _ => Success;
     w_smtp_quit := fun _ => Failure "(421, b'Service not available')" |}.

Definition sample_workbook : workbook :=
  {| wb_sheet := "Hardware"; wb_header := [XStr "SerialNo"]; wb_rows := [] |}.

Definition sample_state : state :=
  initial {[ "out/hardware_Jane_Doe.xlsx" := XlsxFile sample_workbook ]}.

(** The nine columns the query selects (lines 271-280). *)
Definition asset_columns : list string :=
  ["ManufacturerName"; "DeviceDescription"; "TypeDescription"; "Description";
   "SerialNo"; "Surname"; "GivenName"; "Location"; "ManagerADLogin"].

Definition bob_rows : list row :=
  [[Some "Dell"; Some "Latitude 7440"; Some "Laptop"; None; Some "007";
    Some "Two"; Some "Bob"; Some "Berlin"; Some "amgr"];
   [Some "LG"; Some "27UL850"; Some "Monitor"; Some "4K"; Some "12";
    Some "Two"; Some "Bob"; Some "Berlin"; Some "amgr"]].

(** The records of the input of [three_world], and a file system that
    still holds the combined file of an earlier run. *)
Definition three_records : list (list string) :=
  [["Surname"; "GivenName"; "Email"];
   ["One"; "Ann"; "boss@example.com"];
   ["Two"; "Bob"; EmptyString];
   ["Three"; "Cy"; "a@x.com;b@x.com"]].

Definition stale_files : gmap string file :=
  {[ COMBINED_OUTPUT_PATH := CsvFile [["Old"]; ["row"]] ]}.

(** Three employees; only the second has assets, and only the send to
    the second fails. *)
Definition three_world : world :=
  {| w_input := Some three_records;
     w_remove := Success;
     w_db_connect := Success;
     w_query := fun i _ _ =>
                  Ok (asset_columns, if (i =? 1)%nat then bob_rows else []);
     w_makedirs := fun _ => Success;
     w_open := fun _ _ => Success;
     w_smtp_connect := fun _ => Success;
     w_smtp_ehlo := fun _ => Success;
     w_smtp_sendmail := fun i => if (i =? 1)%nat then Failure "relay down" else Success;
     w_smtp_quit := fun _ => Success |}.

Definition three_employees : list employee :=
  [("Ann", "One", ["boss@example.com"]);
   ("Bob", "Two", []);
   ("Cy", "Three", ["a@x.com"; "b@x.com"])].

(** The same batch when the table file of the first employee cannot be
    written. *)
Definition refused_world : world :=
  {| w_input := w_input three_world;
     w_remove := Success;
     w_db_connect := Success;
     w_query := w_query three_world;
     w_makedirs := fun _ => Success;
     w_open := fun i path =>
                 if (i =? 0)%nat && String.eqb path (csv_path_of "Ann" "One")
                 then Failure "[Errno 13] Permission denied"
                 else Success;
     w_smtp_connect := fun _ => Success;
     w_smtp_ehlo := fun _ => Success;
     w_smtp_sendmail := fun _ => Success;
     w_smtp_quit := fun _ => Success |}.

(** The same batch when the workbook of the second employee cannot be
    written. *)
Definition refused_later_world : world :=
  {| w_input := w_input three_world;
     w_remove := Success;
     w_db_connect := Success;
     w_query := w_query three_world;
     w_makedirs := fun _ => Success;
     w_open := fun i path =>
                 if (i =? 1)%nat
                    && String.eqb path (xlsx_path_of (csv_path_of "Bob" "Two"))
                 then Failure "[Errno 28] No space left on device"
                 else Success;
     w_smtp_connect := fun _ => Success;
     w_smtp_ehlo := fun _ => Success;
     w_smtp_sendmail := fun _ => Success;
     w_smtp_quit := fun _ => Success |}.

(** ** Notions used by the further properties *)

(** An address as the splitter returns it and takes it back: not empty,
    no blank at either end, no semicolon and no comma in it. *)
Definition clean_address (t : string) : Prop :=
  t ≠ EmptyString ∧ strip t = t
  ∧ contains ";"%char t = false ∧ contains ","%char t = false.

(** An employee as the loader hands it on: both names not empty and
    trimmed, every CC address not empty and trimmed. *)
Definition valid_employee (e : employee) : Prop :=
  e.1.1 ≠ EmptyString ∧ strip e.1.1 = e.1.1
  ∧ e.1.2 ≠ EmptyString ∧ strip e.1.2 = e.1.2
  ∧ Forall (fun t => t ≠ EmptyString ∧ strip t = t) e.2.

(** The loop body of [read_employees] told by the positions of the three
    columns in a row. *)
Definition read_row_at (i j k : nat) (row : list string) : option employee :=
  let sur := strip (default EmptyString (row !! i)) in
  let given := strip (default EmptyString (row !! j)) in
  let raw_cc := strip (default EmptyString (row !! k)) in
  if negb (truthy given) || negb (truthy sur) then None
  else Some (given, sur, _split_emails raw_cc).

(** The number of occurrences of a character in a string. *)
Fixpoint count_char (c : ascii) (s : string) : nat :=
  match s with
  | EmptyString => 0
  | String x r => (if Ascii.eqb x c then 1 else 0) + count_char c r
  end.

(** ** Column widths of the sheet (lines 150-159) *)

(** The two inner loops for one column.  [values] are the values of the
    cells below the header: [None] for an empty cell, [Some s] for a cell
    whose [str] is [s]. *)
Fixpoint max_len_loop (max_len : nat) (values : list (option string)) : nat :=
  match values with
  | [] => max_len
  | v :: rest =>
      let val_len := match v with Some s => String.length s | None => 0%nat end in
      max_len_loop (if (max_len <? val_len)%nat then val_len else max_len) rest
  end.

(** [min(max_len + 2, 80)], with [max_len] starting at [len(str(col))]. *)
Definition column_width (col : string) (values : list (option string)) : nat :=
  Nat.min (max_len_loop (String.length col) values + 2) 80.

(** ** What a computation leaves as it is *)

(** [preserves R m]: the state after [m] is related by [R] to the state
    before, whether [m] returns or raises. *)
Definition preserves {A} (R : relation state) (m : M A) : Prop :=
  ∀ st, R st (m st).2.

(** Nothing printed. *)
Definition same_log : relation state :=
  λ st st', log st' = log st.

(** No file outside [allowed] written or removed. *)
Definition same_outside (allowed : string → Prop) : relation state :=
  λ st st', ∀ path, ¬ allowed path → fs st' !! path = fs st !! path.

(** The last line of a run that got through its batch. *)
Definition is_summary (l : out_line) : Prop :=
  l = OutNoRows ∨ ∃ n, n ≠ 0%nat ∧ l = OutSaved n.

(** The paths a run may write: the combined file, and the table file and
    workbook of each employee of the input. *)
Definition employee_output (e : employee) (path : string) : Prop :=
  path = csv_path_of e.1.1 e.1.2 ∨ path = xlsx_path_of (csv_path_of e.1.1 e.1.2).

Definition run_output (w : world) (path : string) : Prop :=
  path = COMBINED_OUTPUT_PATH
  ∨ ∃ records employees e,
      w_input w = Some records ∧ read_employees records = Ok employees
      ∧ e ∈ employees ∧ employee_output e path.

(** ** Further scenarios *)

(** The input holds the header and no employee. *)
Definition header_only_world : world :=
  {| w_input := Some [["Surname"; "GivenName"; "Email"]];
     w_remove := w_remove three_world;
     w_db_connect := w_db_connect three_world;
     w_query := w_query three_world;
     w_makedirs := w_makedirs three_world;
     w_open := w_open three_world;
     w_smtp_connect := w_smtp_connect three_world;
     w_smtp_ehlo := w_smtp_ehlo three_world;
     w_smtp_sendmail := w_smtp_sendmail three_world;
     w_smtp_quit := w_smtp_quit three_world |}.

(** The database refuses the connection. *)
Definition db_down_world : world :=
  {| w_input := w_input three_world;
     w_remove := w_remove three_world;
     w_db_connect := Failure "Login timeout expired";
     w_query := w_query three_world;
     w_makedirs := w_makedirs three_world;
     w_open := w_open three_world;
     w_smtp_connect := w_smtp_connect three_world;
     w_smtp_ehlo := w_smtp_ehlo three_world;
     w_smtp_sendmail := w_smtp_sendmail three_world;
     w_smtp_quit := w_smtp_quit three_world |}.

(** The query for the second employee fails. *)
Definition query_fails_world : world :=
  {| w_input := w_input three_world;
     w_remove := w_remove three_world;
     w_db_connect := w_db_connect three_world;
     w_query := fun i given sur =>
                  if (i =? 1)%nat then Raise (DatabaseError "Invalid object name")
                  else w_query three_world i given sur;
     w_makedirs := w_makedirs three_world;
     w_open := w_open three_world;
     w_smtp_connect := w_smtp_connect three_world;
     w_smtp_ehlo := w_smtp_ehlo three_world;
     w_smtp_sendmail := w_smtp_sendmail three_world;
     w_smtp_quit := w_smtp_quit three_world |}.






(** * Properties *)

(** ** Strings *)

Section string_facts.

Lemma split_nonempty sep s : split sep s ≠ [].
Proof.
  destruct s as [|c r]; simpl; [discriminate|].
  destruct (Ascii.eqb c sep); [discriminate|].
  destruct (split sep r); discriminate.
Qed.

Lemma truthy_true s : truthy s = true ↔ s ≠ EmptyString.
Proof. destruct s; simpl; split; intros; congruence. Qed.

Lemma append_nil_l (b : string) : (EmptyString ++ b)%string = b.
Proof. reflexivity. Qed.

Lemma append_cons x (a b : string) : (String x a ++ b)%string = String x (a ++ b).
Proof. reflexivity. Qed.

Lemma append_assoc (a b c : string) : ((a ++ b) ++ c = a ++ (b ++ c))%string.
Proof.
  induction a as [|x a IH]; [done|].
  rewrite !append_cons. f_equal. exact IH.
Qed.

Lemma lower_app a b : lower (a ++ b) = (lower a ++ lower b)%string.
Proof.
  induction a as [|c a IH]; [done|].
  rewrite append_cons. simpl. by rewrite IH.
Qed.

Lemma replace_app old new a b :
  replace old new (a ++ b) = (replace old new a ++ replace old new b)%string.
Proof.
  induction a as [|c a IH]; [done|].
  rewrite append_cons. simpl.
  destruct (Ascii.eqb c old); rewrite IH; [|done].
  by rewrite append_assoc.
Qed.

Lemma strip_spaces_app a b :
  strip_spaces (a ++ b) = (strip_spaces a ++ strip_spaces b)%string.
Proof.
  unfold strip_spaces. induction a as [|c a IH]; [done|].
  rewrite append_cons. simpl.
  rewrite filter_cons. rewrite (filter_cons _ c).
  destruct (decide (c ≠ " "%char)); simpl; by rewrite IH.
Qed.

Lemma replace_space_strip s : replace " "%char EmptyString s = strip_spaces s.
Proof.
  unfold strip_spaces. induction s as [|c s IH]; simpl; [done|].
  rewrite filter_cons.
  destruct (Ascii.eqb_spec c " "%char) as [->|Hne].
  - rewrite decide_False by (intros H; by apply H). by rewrite IH.
  - rewrite decide_True by done. simpl. by rewrite IH.
Qed.

Lemma lower_char_space c : lower_char c = " "%char ↔ c = " "%char.
Proof.
  destruct c as [[] [] [] [] [] [] [] []]; vm_compute; split; congruence.
Qed.

Lemma strip_spaces_lower s : strip_spaces (lower s) = lower (strip_spaces s).
Proof.
  unfold strip_spaces. induction s as [|c s IH]; simpl; [done|].
  rewrite !filter_cons.
  destruct (decide (c ≠ " "%char)) as [Hc|Hc].
  - rewrite decide_True by (by rewrite lower_char_space). simpl. by rewrite IH.
  - rewrite decide_False by (by rewrite lower_char_space). done.
Qed.

End string_facts.

(** ** The CC splitter *)

(** C7.  For every raw CC string the splitter of the code agrees with the
    splitter of the specification: split on the semicolon when one is
    present, else on the comma when one is present, else the whole
    trimmed string, tokens trimmed and empty tokens dropped.  The four
    sample strings give the listed addresses. *)
Theorem split_emails_refines_spec :
  (∀ raw, _split_emails raw = split_emails_spec raw)
  ∧ _split_emails "a@x.com;b@x.com" = ["a@x.com"; "b@x.com"]
  ∧ _split_emails "a@x.com, b@x.com" = ["a@x.com"; "b@x.com"]
  ∧ _split_emails EmptyString = []
  ∧ _split_emails "a@x.com" = ["a@x.com"].
Proof.
  split; [|by repeat split].
  intros raw. unfold _split_emails, split_emails_spec.
  destruct raw as [|c raw]; [done|]. cbn [truthy negb split_on_first].
  set (s := String c raw).
  assert (Hf : ∀ l : list string,
             filter (λ p, truthy p = true) l = filter (λ p, p ≠ EmptyString) l).
  { intros l. apply list_filter_iff. intros p. apply truthy_true. }
  destruct (contains ";"%char s).
  - pose proof (split_nonempty ";"%char s) as Hne.
    destruct (split ";"%char s) as [|h t]; [done|]. apply Hf.
  - destruct (contains ","%char s).
    + pose proof (split_nonempty ","%char s) as Hne.
      destruct (split ","%char s) as [|h t]; [done|]. apply Hf.
    + apply Hf.
Qed.

(** ** The recipient address *)

(** C8.  For every given name, surname and domain the derived address is
    the lowered given name, a dot and the lowered surname, all spaces
    taken out, then the at sign and the domain; it agrees with the
    wording of the specification, and the two sample names give
    jane.doe@example.com and janeann.doe@example.com. *)
Theorem build_recipient_email_spec :
  (∀ given sur domain,
     build_recipient_email given sur domain = recipient_spec given sur domain)
  ∧ build_recipient_email "Jane" "Doe" "example.com" = "jane.doe@example.com"
  ∧ build_recipient_email "Jane Ann" "Doe" "example.com" = "janeann.doe@example.com".
Proof.
  split; [|by split].
  intros given sur domain. unfold build_recipient_email, recipient_spec.
  f_equal.
  rewrite replace_space_strip, strip_spaces_lower. f_equal.
  by rewrite !strip_spaces_app.
Qed.

(** ** The directive loader *)

Section loader_facts.

Lemma find_ext {A} (f g : A → bool) (l : list A) :
  (∀ x, x ∈ l → f x = g x) → List.find f l = List.find g l.
Proof.
  induction l as [|a l IH]; intros H; [done|]. simpl.
  rewrite (H a) by left. destruct (g a); [done|].
  apply IH. intros x Hx. apply H. by right.
Qed.

(** Renaming the field names by a function that keeps [k] apart from
    the other names does not change what is found under [k]. *)
Lemma foldl_zip_rename (f : string → string) (k : string) :
  ∀ (fns row : list string) (d1 d2 : gmap string (option string)),
    (∀ x, x ∈ fns → f x = f k → x = k) →
    d1 !! f k = d2 !! k →
    foldl (λ d kv, <[kv.1 := Some kv.2]> d) d1 (zip (map f fns) row) !! f k
    = foldl (λ d kv, <[kv.1 := Some kv.2]> d) d2 (zip fns row) !! k.
Proof.
  induction fns as [|a fns IH]; intros row d1 d2 Hinj Hd; [done|].
  destruct row as [|r row]; [done|]. simpl.
  apply IH.
  - intros x Hx. apply Hinj. by right.
  - destruct (decide (a = k)) as [->|Hne].
    + by rewrite !lookup_insert_eq.
    + rewrite !lookup_insert_ne; [done|done|].
      intros Heq. apply Hne, Hinj; [by left|done].
Qed.

Lemma foldl_none_rename (f : string → string) (k : string) :
  ∀ (fns : list string) (d1 d2 : gmap string (option string)),
    (∀ x, x ∈ fns → f x = f k → x = k) →
    d1 !! f k = d2 !! k →
    foldl (λ d x, <[x := None]> d) d1 (map f fns) !! f k
    = foldl (λ d x, <[x := None]> d) d2 fns !! k.
Proof.
  induction fns as [|a fns IH]; intros d1 d2 Hinj Hd; [done|]. simpl.
  apply IH.
  - intros x Hx. apply Hinj. by right.
  - destruct (decide (a = k)) as [->|Hne].
    + by rewrite !lookup_insert_eq.
    + rewrite !lookup_insert_ne; [done|done|].
      intros Heq. apply Hne, Hinj; [by left|done].
Qed.

Lemma dict_of_row_rename (f : string → string) (k : string) fns row :
  (∀ x, x ∈ fns → f x = f k → x = k) →
  dict_of_row (map f fns) row !! f k = dict_of_row fns row !! k.
Proof.
  intros Hinj. unfold dict_of_row.
  change (drop (length row) (map f fns)) with (drop (length row) (f <$> fns)).
  rewrite <- fmap_drop.
  apply foldl_none_rename.
  - intros x Hx. apply Hinj. by eapply subseteq_drop.
  - apply foldl_zip_rename; [done|]. by rewrite !lookup_empty.
Qed.

Lemma find_head_filter {A} (P : A → Prop) `{∀ x, Decision (P x)} (l : list A) :
  List.find (λ x, bool_decide (P x)) l = head (filter P l).
Proof.
  induction l as [|a l IH]; [done|]. simpl. rewrite filter_cons.
  case_bool_decide; by destruct (decide (P a)).
Qed.

Lemma find_cc_col_first (names : list string) :
  find_cc_col (list_to_set names) = head (filter (λ c, c ∈ names) cc_candidates).
Proof.
  unfold find_cc_col. rewrite <- find_head_filter.
  apply find_ext. intros c _. apply bool_decide_ext, elem_of_list_to_set.
Qed.

Lemma find_cc_col_none (names : list string) :
  find_cc_col (list_to_set names) = None ↔ Forall (λ c, c ∉ names) cc_candidates.
Proof.
  rewrite find_cc_col_first. split.
  - intros Hh. apply head_None in Hh. apply Forall_forall. intros c Hc Hin.
    assert (c ∈ filter (λ c, c ∈ names) cc_candidates) as Hf
      by (by apply list_elem_of_filter).
    rewrite Hh in Hf. by apply not_elem_of_nil in Hf.
  - intros Hall. rewrite Forall_forall in Hall.
    destruct (filter (λ c, c ∈ names) cc_candidates) as [|c l] eqn:E; [done|].
    exfalso.
    assert (c ∈ filter (λ c, c ∈ names) cc_candidates) as Hf by (rewrite E; left).
    apply list_elem_of_filter in Hf as [Hin Hc]. by apply (Hall c).
Qed.

Lemma strip_candidate c : c ∈ cc_candidates → strip c = c.
Proof.
  unfold cc_candidates. intros Hc.
  repeat (apply elem_of_cons in Hc as [->|Hc]; [done|]).
  by apply not_elem_of_nil in Hc.
Qed.

Lemma candidate_not_required c :
  c ∈ cc_candidates → c ≠ "Surname" ∧ c ≠ "GivenName".
Proof.
  unfold cc_candidates. intros Hc.
  repeat (apply elem_of_cons in Hc as [->|Hc]; [done|]).
  by apply not_elem_of_nil in Hc.
Qed.

(** The header check decides the same way on two sets of names that
    agree on the two name columns, and picks the one CC name present. *)
Lemma header_with_one_cc (pre post : list string) (c : string) :
  c ∈ cc_candidates →
  Forall (λ h, strip h ∉ cc_candidates) (pre ++ post) →
  find_cc_col (list_to_set (map strip (pre ++ c :: post))) = Some c.
Proof.
  intros Hc Hclean. unfold find_cc_col.
  rewrite (find_ext _ (λ x, bool_decide (x = c))).
  - revert Hc. unfold cc_candidates. intros Hc.
    repeat (apply elem_of_cons in Hc as [->|Hc]; [done|]).
    by apply not_elem_of_nil in Hc.
  - intros x Hx. apply bool_decide_ext.
    rewrite elem_of_list_to_set. rewrite map_app. simpl.
    rewrite (strip_candidate c Hc).
    rewrite elem_of_app, elem_of_cons.
    rewrite Forall_app in Hclean. destruct Hclean as [Hpre Hpost].
    rewrite Forall_forall in Hpre. rewrite Forall_forall in Hpost.
    split; [|by auto].
    intros [Hin|[->|Hin]]; [|done|].
    + apply list_elem_of_fmap in Hin as (h & -> & Hh). by destruct (Hpre h Hh).
    + apply list_elem_of_fmap in Hin as (h & -> & Hh). by destruct (Hpost h Hh).
Qed.

Lemma other_name_mem (pre post : list string) (c k : string) :
  c ∈ cc_candidates → k ≠ c →
  k ∈ (list_to_set (map strip (pre ++ c :: post)) : gset string)
  ↔ k ∈ map strip (pre ++ post).
Proof.
  intros Hc Hk. rewrite elem_of_list_to_set, !map_app. simpl.
  rewrite (strip_candidate c Hc), !elem_of_app, elem_of_cons. intuition congruence.
Qed.

Lemma missing_required_one_cc (pre post : list string) (c1 c2 : string) :
  c1 ∈ cc_candidates → c2 ∈ cc_candidates →
  missing_required (list_to_set (map strip (pre ++ c1 :: post)))
  = missing_required (list_to_set (map strip (pre ++ c2 :: post))).
Proof.
  intros H1 H2. unfold missing_required.
  destruct (candidate_not_required c1 H1) as [Hs1 Hg1].
  destruct (candidate_not_required c2 H2) as [Hs2 Hg2].
  simpl.
  rewrite (bool_decide_ext _ _ (other_name_mem pre post c1 "GivenName" H1 (not_eq_sym Hg1))).
  rewrite (bool_decide_ext _ _ (other_name_mem pre post c1 "Surname" H1 (not_eq_sym Hs1))).
  rewrite (bool_decide_ext _ _ (other_name_mem pre post c2 "GivenName" H2 (not_eq_sym Hg2))).
  rewrite (bool_decide_ext _ _ (other_name_mem pre post c2 "Surname" H2 (not_eq_sym Hs2))).
  done.
Qed.

Lemma omap_ext_all {A B} (f g : A → option B) (l : list A) :
  (∀ x, f x = g x) → omap f l = omap g l.
Proof.
  intros H. induction l as [|a l IH]; [done|]. simpl. rewrite H.
  destruct (g a); [f_equal|]; exact IH.
Qed.

Lemma read_row_one_cc (pre post : list string) (c1 c2 : string) (r : list string) :
  c1 ∈ cc_candidates → c2 ∈ cc_candidates →
  Forall (λ h, strip h ∉ cc_candidates) (pre ++ post) →
  read_row (pre ++ c1 :: post) c1 r = read_row (pre ++ c2 :: post) c2 r.
Proof.
  intros H1 H2 Hclean.
  set (f := λ x : string, if decide (x = c1) then c2 else x).
  assert (Hraw : ∀ x c, x ∈ pre ++ post → c ∈ cc_candidates → x ≠ c).
  { intros x c Hx Hc ->. rewrite Forall_forall in Hclean.
    apply (Hclean c Hx). by rewrite (strip_candidate c Hc). }
  assert (Hmap : map f (pre ++ c1 :: post) = pre ++ c2 :: post).
  { assert (Hid : ∀ l : list string, (∀ x, x ∈ l → x ≠ c1) → map f l = l).
    { induction l as [|a l IH]; intros Hl; [done|]. simpl. unfold f at 1.
      rewrite decide_False by (apply Hl; left).
      f_equal. apply IH. intros x Hx. apply Hl. by right. }
    rewrite map_app. simpl. unfold f at 2. rewrite decide_True by done.
    rewrite !Hid; [done| |].
    - intros x Hx. apply Hraw; [|done]. apply elem_of_app. by right.
    - intros x Hx. apply Hraw; [|done]. apply elem_of_app. by left. }
  assert (Hmem : ∀ x, x ∈ pre ++ c1 :: post → x = c1 ∨ x ∈ pre ++ post).
  { intros x. rewrite !elem_of_app, elem_of_cons. intuition. }
  destruct (candidate_not_required c1 H1) as [Hs1 Hg1].
  destruct (candidate_not_required c2 H2) as [Hs2 Hg2].
  assert (Hkeep : ∀ k, k ≠ c1 → k ≠ c2 →
            dict_of_row (pre ++ c2 :: post) r !! k
            = dict_of_row (pre ++ c1 :: post) r !! k).
  { intros k Hk1 Hk2. rewrite <- Hmap.
    assert (Hfk : f k = k) by (unfold f; by rewrite decide_False).
    rewrite <- (dict_of_row_rename f k (pre ++ c1 :: post) r); [by rewrite Hfk|].
    intros x Hx. rewrite Hfk. unfold f. case_decide; congruence. }
  assert (Hcc : dict_of_row (pre ++ c2 :: post) r !! c2
                = dict_of_row (pre ++ c1 :: post) r !! c1).
  { rewrite <- Hmap.
    assert (Hf1 : f c1 = c2) by (unfold f; by rewrite decide_True).
    rewrite <- (dict_of_row_rename f c1 (pre ++ c1 :: post) r); [by rewrite Hf1|].
    intros x Hx. rewrite Hf1. unfold f. case_decide; [done|]. intros ->.
    destruct (Hmem _ Hx) as [?|Hin]; [done|]. by destruct (Hraw c2 c2 Hin H2). }
  unfold read_row, get_or_empty.
  rewrite (Hkeep "Surname"), (Hkeep "GivenName"), Hcc by done.
  done.
Qed.

End loader_facts.

(** C5, as stated, fails: the header surname, GivenName, Email has both
    name columns when case is ignored and has a CC header, yet the loader
    raises. *)
Lemma schema_check_is_case_sensitive :
  ¬ schema_error_as_stated ["surname"; "GivenName"; "Email"].
Proof.
  intros H. destruct (H []) as [H1 _].
  assert (Hr : raises (read_employees [["surname"; "GivenName"; "Email"]]) = true)
    by (vm_compute; reflexivity).
  destruct (H1 Hr) as [Hc|[Hc|Hc]]; vm_compute in Hc; discriminate.
Qed.

(** C5, amended.  The loader raises exactly when, among the field names
    with surrounding blanks trimmed, the exact label Surname or the exact
    label GivenName is absent or none of Email, EmailAddress, CC, Cc is
    there; the CC column it reads is the first of these four, in this
    order, that is present (with Cc, CC and Email all there, the Email
    cell is read); and a header whose one CC name is replaced by another
    of the four gives the same employees, CC lists included. *)
Theorem read_employees_schema
    (header pre post : list string) (rows : list (list string)) (c1 c2 : string) :
  c1 ∈ cc_candidates → c2 ∈ cc_candidates →
  Forall (λ h, strip h ∉ cc_candidates) (pre ++ post) →
  (raises (read_employees (header :: rows)) = true ↔
     ("Surname" ∉ map strip header
      ∨ "GivenName" ∉ map strip header
      ∨ Forall (λ c, c ∉ map strip header) cc_candidates))
  ∧ find_cc_col (list_to_set (map strip header))
    = head (filter (λ c, c ∈ map strip header) cc_candidates)
  ∧ read_employees [["Surname"; "GivenName"; "Cc"; "CC"; "Email"];
                    ["Doe"; "Jane"; "c1@x.com"; "c2@x.com"; "e@x.com"]]
    = Ok [("Jane", "Doe", ["e@x.com"])]
  ∧ read_employees ((pre ++ c1 :: post) :: rows)
    = read_employees ((pre ++ c2 :: post) :: rows).
Proof.
  intros H1 H2 Hclean. split; [|split; [|split; [by vm_compute|]]].
  - unfold read_employees, missing_required. simpl.
    set (names := map strip header).
    rewrite !(bool_decide_ext _ _ (elem_of_list_to_set _ names)).
    rewrite <- find_cc_col_none.
    destruct (decide ("GivenName" ∈ names)) as [Hg|Hg];
      [rewrite (bool_decide_eq_true_2 _ Hg)|rewrite (bool_decide_eq_false_2 _ Hg)];
      (destruct (decide ("Surname" ∈ names)) as [Hs|Hs];
       [rewrite (bool_decide_eq_true_2 _ Hs)|rewrite (bool_decide_eq_false_2 _ Hs)]);
      simpl; try (split; [intros _; by auto|done]).
    destruct (find_cc_col (list_to_set names)); simpl; intuition congruence.
  - apply find_cc_col_first.
  - unfold read_employees.
    rewrite (missing_required_one_cc pre post c1 c2 H1 H2).
    rewrite !header_with_one_cc by done.
    destruct (missing_required _); [|done].
    f_equal. simpl. apply omap_ext_all. intros r. by apply read_row_one_cc.
Qed.

Lemma read_employees_schema_witness :
  ("Email" ∈ cc_candidates ∧ "Cc" ∈ cc_candidates
   ∧ Forall (λ h, strip h ∉ cc_candidates) ([" Surname"; "GivenName"] ++ ["Dept"]))
  ∧ read_employees (([" Surname"; "GivenName"] ++ "Email" :: ["Dept"])
                      :: [["Doe"; "Jane"; "a@x.com;b@x.com"; "IT"]])
    = read_employees (([" Surname"; "GivenName"] ++ "Cc" :: ["Dept"])
                      :: [["Doe"; "Jane"; "a@x.com;b@x.com"; "IT"]]).
Proof.
  assert (Ha : "Email" ∈ cc_candidates) by (apply (bool_decide_unpack _); vm_compute; exact I).
  assert (Hb : "Cc" ∈ cc_candidates) by (apply (bool_decide_unpack _); vm_compute; exact I).
  assert (Hc : Forall (λ h, strip h ∉ cc_candidates) ([" Surname"; "GivenName"] ++ ["Dept"])).
  { repeat constructor; apply (bool_decide_unpack _); vm_compute; exact I. }
  split; [by repeat split|].
  exact (proj2 (proj2 (proj2 (read_employees_schema
                         [" Surname"; "GivenName"; "Email"; "Dept"]
                         [" Surname"; "GivenName"] ["Dept"]
                         [["Doe"; "Jane"; "a@x.com;b@x.com"; "IT"]]
                         "Email" "Cc" Ha Hb Hc)))).
Defined.

(** ** The run monad *)

Section run_facts.

Lemma bind_ok {A B} (m : M A) (k : A → M B) (st st' : state) (a : A) :
  m st = (Ok a, st') → (x ← m; k x) st = k a st'.
Proof. intros H. unfold mbind, M_bind, bind. by rewrite H. Qed.

Lemma bind_raise {A B} (m : M A) (k : A → M B) (st st' : state) (e : exn) :
  m st = (Raise e, st') → (x ← m; k x) st = (Raise e, st').
Proof. intros H. unfold mbind, M_bind, bind. by rewrite H. Qed.

Lemma write_records_ok w i path records st :
  w_open w i path = Success →
  write_records w i path records st = (Ok tt, with_file path (CsvFile records) st).
Proof. intros H. unfold write_records, check. by rewrite H. Qed.

Lemma write_records_refused w i path records st msg :
  w_open w i path = Failure msg →
  write_records w i path records st = (Raise (OSError msg), st).
Proof. intros H. unfold write_records, check. by rewrite H. Qed.

(** What an append leaves in the file. *)
Lemma append_records_ok w i path records st :
  w_open w i path = Success →
  append_records w i path records st
  = (Ok tt,
     with_file path
       (CsvFile (match fs st !! path with
                 | Some (CsvFile existing) => existing ++ records
                 | _ => records
                 end)) st).
Proof.
  intros H. unfold append_records, check. rewrite H.
  unfold mbind, M_bind, bind, ret, lookup_file, set_file.
  by destruct (fs st !! path) as [[| |]|].
Qed.

Lemma write_employee_csv_ok w i given sur col_names rows st :
  w_makedirs w i = Success →
  w_open w i (csv_path_of given sur) = Success →
  write_employee_csv w i given sur col_names rows st
  = (Ok (csv_path_of given sur),
     with_file (csv_path_of given sur) (CsvFile (col_names :: map row_text rows)) st).
Proof.
  intros Hmk Hopen. unfold write_employee_csv, check. rewrite Hmk.
  unfold mbind, M_bind, bind, ret. by rewrite (write_records_ok _ _ _ _ _ Hopen).
Qed.

Lemma convert_csv_to_xlsx_ok w i csv_path records df st :
  fs st !! csv_path = Some (CsvFile records) →
  pd_read_csv records = Ok df →
  to_excel_error df = None →
  w_open w i (xlsx_path_of csv_path) = Success →
  convert_csv_to_xlsx w i csv_path st
  = (Ok (xlsx_path_of csv_path),
     with_file (xlsx_path_of csv_path) (XlsxFile (to_excel "Hardware" df)) st).
Proof.
  intros Hfile Hdf Hsafe Hopen. unfold convert_csv_to_xlsx.
  unfold mbind, M_bind, bind, ret, lift, lookup_file, check, set_file.
  by rewrite Hfile, Hdf, Hopen, Hsafe.
Qed.

Lemma state_ext (st1 st2 : state) :
  fs st1 = fs st2 → log st1 = log st2 → trace st1 = trace st2 → st1 = st2.
Proof. destruct st1, st2. simpl. by intros -> -> ->. Qed.

Lemma with_events_nil st : with_events [] st = st.
Proof. apply state_ext; [done|done|]. simpl. apply app_nil_r. Qed.

Lemma append_to_combined_csv_ok w i col_names rows first_write st :
  (∀ path, w_open w i path = Success) →
  append_to_combined_csv w i col_names rows COMBINED_OUTPUT_PATH first_write st
  = (Ok (length rows), combined_written col_names rows first_write st).
Proof.
  intros Hopen. unfold append_to_combined_csv, combined_written.
  destruct rows as [|r rows], first_write; unfold mbind, M_bind, bind, ret.
  - by rewrite (write_records_ok _ _ _ _ _ (Hopen _)).
  - done.
  - by rewrite (write_records_ok _ _ _ _ _ (Hopen _)).
  - by rewrite (append_records_ok _ _ _ _ _ (Hopen _)).
Qed.

(** A send, once the attachment is read: the result and the events are
    those the relay's answers give. *)
Lemma send_email_with_attachment_spec w i to_email subject html_body attachment_path
    cc_emails st payload :
  fs st !! attachment_path = Some payload →
  send_email_with_attachment w i to_email subject html_body attachment_path cc_emails st
  = (send_result w i,
     with_events
       (send_events w i to_email cc_emails
          (build_message to_email subject html_body attachment_path cc_emails payload))
       st).
Proof.
  intros Hfile.
  unfold send_email_with_attachment, with_smtp, server_ehlo, server_sendmail,
    send_result, send_events.
  unfold mbind, M_bind, bind, ret, raise, lookup_file, smtp_failure, try_except,
    try_finally, emit.
  rewrite Hfile.
  destruct (w_smtp_connect w i) as [|mc]; [|by rewrite with_events_nil].
  unfold smtp_exit, still_connected, mbind, M_bind, bind, ret, raise, smtp_failure, emit.
  destruct (w_smtp_ehlo w i) as [|me], (w_smtp_sendmail w i) as [|ms],
    (w_smtp_quit w i) as [|mq]; cbn;
    (f_equal; apply state_ext; [done|done|]; cbn; by rewrite <- !app_assoc).
Qed.

Lemma pd_read_csv_header (col_names : list string) (data : list (list string)) :
  blank_line col_names = false →
  ∃ df, pd_read_csv (col_names :: data) = Ok df
        ∧ df_columns df = (if clean_header col_names
                           then map XStr col_names
                           else map XInferred col_names)
        ∧ (length (df_rows df) ≤ length data)%nat
        ∧ (∀ r v, r ∈ df_rows df → v ∈ r →
             (∃ z, v = XInt z)
             ∨ ∃ t row, row ∈ data ∧ t ∈ row ∧ (v = XStr t ∨ v = XInferred t))
        ∧ (data = [] →
           df = {| df_columns := if clean_header col_names
                                 then map XStr col_names
                                 else map XInferred col_names;
                   df_rows := [] |}).
Proof.
  intros Hne. unfold pd_read_csv. cbn [List.filter]. rewrite Hne. cbn [negb].
  set (kept := List.filter (λ r, negb (blank_line r)) data).
  assert (Hkept : ∀ row, row ∈ kept → row ∈ data).
  { intros row Hrow. unfold kept in Hrow.
    apply list_elem_of_In, List.filter_In in Hrow as [Hrow _]. by apply list_elem_of_In. }
  assert (Hlen : (length kept ≤ length data)%nat) by apply List.filter_length_le.
  eexists. split; [reflexivity|]. cbn [df_columns df_rows]. split; [done|].
  split_and!.
  - destruct (forallb _ kept); by rewrite length_map.
  - intros r v Hr Hv. destruct (forallb _ kept).
    + change (map ?f kept) with (f <$> kept) in Hr.
      apply list_elem_of_fmap in Hr as (row & -> & Hrow).
      apply list_elem_of_lookup in Hv as [j Hj].
      rewrite list_lookup_imap in Hj.
      destruct (row !! j) as [t|] eqn:Ht; [|done]. cbn in Hj. injection Hj as <-.
      unfold infer_cell.
      destruct (text_token t).
      * right. exists t, row. split_and!; [by apply Hkept|by eapply list_elem_of_lookup_2|by left].
      * destruct (column_is_int64 kept j); [destruct (parse_int64 t) as [z|]|].
        -- left. by exists z.
        -- right. exists t, row.
           split_and!; [by apply Hkept|by eapply list_elem_of_lookup_2|by right].
        -- right. exists t, row.
           split_and!; [by apply Hkept|by eapply list_elem_of_lookup_2|by right].
    + change (map ?f kept) with (f <$> kept) in Hr.
      apply list_elem_of_fmap in Hr as (row & -> & Hrow).
      change (map ?f row) with (f <$> row) in Hv.
      apply list_elem_of_fmap in Hv as (t & -> & Ht).
      right. exists t, row. split_and!; [by apply Hkept|done|by right].
  - intros ->. by cbn.
Qed.

Lemma to_excel_error_none (df : dataframe) :
  (Z.of_nat (length (df_rows df)) ≤ 2 ^ 20)%Z →
  (Z.of_nat (length (df_columns df)) ≤ 2 ^ 14)%Z →
  Forall (λ v, refused_text v = None) (df_columns df) →
  Forall (Forall (λ v, refused_text v = None)) (df_rows df) →
  to_excel_error df = None.
Proof.
  intros Hrows Hcols Hhead Hbody. unfold to_excel_error.
  assert (H1 : (2 ^ 20 <? Z.of_nat (length (df_rows df)))%Z = false) by lia.
  assert (H2 : (2 ^ 14 <? Z.of_nat (length (df_columns df)))%Z = false) by lia.
  rewrite H1, H2. cbn [orb].
  assert (Hnone : list_find (λ v, is_Some (refused_text v)) (cells_in_write_order df)
                  = None).
  { apply list_find_None. unfold cells_in_write_order. apply Forall_app. split.
    - eapply Forall_impl; [exact Hhead|]. intros v Hv [x Hx]. congruence.
    - apply Forall_forall. intros v Hv.
      apply list_elem_of_bind in Hv as (j & Hv & _).
      apply list_elem_of_omap in Hv as (r & Hr & Hj).
      rewrite Forall_forall in Hbody. specialize (Hbody r Hr).
      rewrite Forall_forall in Hbody.
      specialize (Hbody v ltac:(by eapply list_elem_of_lookup_2)).
      intros [x Hx]. congruence. }
  by rewrite Hnone.
Qed.

(** A table that can be written and converted is read as a frame that
    [to_excel] does not refuse. *)
Lemma pd_read_csv_writable (col_names : list string) (rows : list row) :
  writable_table col_names rows →
  ∃ df, pd_read_csv (col_names :: map row_text rows) = Ok df
        ∧ to_excel_error df = None
        ∧ (rows = [] →
           df = {| df_columns := if clean_header col_names
                                 then map XStr col_names
                                 else map XInferred col_names;
                   df_rows := [] |}).
Proof.
  intros (Hblank & _ & Hlabels & Hcells & Hnrows & Hncols).
  destruct (pd_read_csv_header col_names (map row_text rows) Hblank)
    as (df & Hdf & Hcolumns & Hlen & Hvalues & Hempty).
  exists df. split; [exact Hdf|]. split.
  - apply to_excel_error_none.
    + rewrite length_map in Hlen. lia.
    + rewrite Hcolumns. destruct (clean_header col_names); rewrite length_map; lia.
    + rewrite Hcolumns.
      destruct (clean_header col_names); apply Forall_forall; intros v Hv;
        change (map ?f col_names) with (f <$> col_names) in Hv;
        apply list_elem_of_fmap in Hv as (c & -> & Hc);
        rewrite Forall_forall in Hlabels; cbn; by rewrite (Hlabels c Hc).
    + apply Forall_forall. intros r Hr. apply Forall_forall. intros v Hv.
      destruct (Hvalues r v Hr Hv) as [[z ->]|(t & row & Hrow & Ht & Hcase)]; [done|].
      change (map ?f rows) with (f <$> rows) in Hrow.
      apply list_elem_of_fmap in Hrow as (r0 & -> & Hr0).
      unfold row_text in Ht. change (map ?f r0) with (f <$> r0) in Ht.
      apply list_elem_of_fmap in Ht as (c & -> & Hc).
      rewrite Forall_forall in Hcells. specialize (Hcells r0 Hr0).
      rewrite Forall_forall in Hcells. specialize (Hcells c Hc).
      destruct Hcase as [-> | ->]; cbn; by rewrite Hcells.
  - intros ->. by apply Hempty.
Qed.

End run_facts.

(** ** Paths *)

Section path_facts.

Lemma last_char_app (a b : string) :
  last_char (a ++ b)
  = match last_char b with Some c => Some c | None => last_char a end.
Proof.
  induction a as [|x a IH]; [rewrite append_nil_l; by destruct (last_char b)|].
  rewrite append_cons. cbn [last_char]. rewrite IH.
  by destruct (last_char b), (last_char a).
Qed.

Lemma xlsx_path_last p : last_char (xlsx_path_of p) = Some "x"%char.
Proof. unfold xlsx_path_of. by rewrite last_char_app. Qed.

Lemma csv_path_last given sur : last_char (csv_path_of given sur) = Some "v"%char.
Proof. unfold csv_path_of, path_join. by rewrite !last_char_app. Qed.

Lemma xlsx_path_not_csv p given sur : xlsx_path_of p ≠ csv_path_of given sur.
Proof.
  intros H. apply (f_equal last_char) in H.
  rewrite xlsx_path_last, csv_path_last in H. discriminate.
Qed.

Lemma xlsx_path_not_combined p : xlsx_path_of p ≠ COMBINED_OUTPUT_PATH.
Proof.
  intros H. apply (f_equal last_char) in H.
  rewrite xlsx_path_last in H. vm_compute in H. discriminate.
Qed.

Lemma csv_path_not_combined given sur : csv_path_of given sur ≠ COMBINED_OUTPUT_PATH.
Proof. unfold csv_path_of, path_join, COMBINED_OUTPUT_PATH, OUTPUT_DIR. discriminate. Qed.

End path_facts.

(** ** One employee *)

Section step_facts.

Lemma combined_written_other col_names rows first_write st path :
  path ≠ COMBINED_OUTPUT_PATH →
  fs (combined_written col_names rows first_write st) !! path = fs st !! path.
Proof.
  intros Hne. unfold combined_written.
  destruct rows, first_write; unfold with_file; cbn [fs]; try done;
    by rewrite lookup_insert_ne.
Qed.

Lemma combined_written_log_trace col_names rows first_write st :
  log (combined_written col_names rows first_write st) = log st
  ∧ trace (combined_written col_names rows first_write st) = trace st.
Proof. unfold combined_written. by destruct rows, first_write. Qed.

(** The loop body when nothing refuses the materialization: the three
    files are written, the message is sent or the failure of the send is
    printed, and the counters move on. *)
Lemma process_employee_ok w i given sur cc_emails col_names rows df total first_write st :
  w_query w i given sur = Ok (col_names, rows) →
  w_makedirs w i = Success →
  (∀ path, w_open w i path = Success) →
  pd_read_csv (col_names :: map row_text rows) = Ok df →
  to_excel_error df = None →
  process_employee w i (given, sur, cc_emails) (total, first_write) st
  = (Ok ((total + length rows)%nat, match rows with [] => first_write | _ :: _ => false end),
     notified w i given sur cc_emails col_names rows df
       (materialized given sur col_names rows df first_write st)).
Proof.
  intros Hq Hmk Hopen Hdf Hsafe. unfold process_employee.
  rewrite (bind_ok _ _ st st (col_names, rows)) by (unfold lift; by rewrite Hq).
  cbv beta iota.
  rewrite (bind_ok _ _ _ _ _ (write_employee_csv_ok w i given sur col_names rows st Hmk (Hopen _))).
  rewrite (bind_ok _ _ _ _ _
             (convert_csv_to_xlsx_ok w i _ _ df _ (lookup_insert_eq _ _ _) Hdf Hsafe
                (Hopen _))).
  rewrite (bind_ok _ _ _ _ _ (append_to_combined_csv_ok w i col_names rows first_write _ Hopen)).
  fold (materialized given sur col_names rows df first_write st).
  set (st1 := materialized given sur col_names rows df first_write st).
  assert (Hatt : fs st1 !! xlsx_path_of (csv_path_of given sur)
                 = Some (XlsxFile (to_excel "Hardware" df))).
  { unfold st1, materialized.
    rewrite combined_written_other by apply xlsx_path_not_combined.
    unfold with_file at 1. cbn [fs]. apply lookup_insert_eq. }
  unfold try_except, mbind, M_bind, bind.
  rewrite (send_email_with_attachment_spec w i _ _ _ _ _ st1 _ Hatt).
  unfold notified, notify_line, notification, print, ret.
  destruct (send_result w i) as [[]|e]; cbv beta iota; f_equal; f_equal.
  - by destruct rows as [|r rows], first_write.
  - by destruct rows as [|r rows], first_write.
Qed.

(** What the answers of a healthy step are. *)
Lemma step_healthy_frame w j e :
  step_healthy w j →
  w_query w j e.1.1 e.1.2 = Ok (step_columns w j e, query_rows w j e)
  ∧ writable_table (step_columns w j e) (query_rows w j e)
  ∧ pd_read_csv (step_columns w j e :: map row_text (query_rows w j e))
    = Ok (step_frame w j e)
  ∧ to_excel_error (step_frame w j e) = None.
Proof.
  intros (_ & _ & Hq). specialize (Hq e.1.1 e.1.2).
  unfold step_columns, query_rows, step_frame.
  destruct (w_query w j e.1.1 e.1.2) as [[col_names rows]|ex]; [|done].
  cbn [well_formed_result] in Hq.
  destruct (pd_read_csv_writable col_names rows Hq) as (df & Hdf & Hsafe & _).
  by rewrite Hdf.
Qed.

Lemma process_employee_healthy w j e total first_write st :
  step_healthy w j →
  process_employee w j e (total, first_write) st
  = (Ok ((total + length (query_rows w j e))%nat,
         match query_rows w j e with [] => first_write | _ :: _ => false end),
     step_state w j e first_write st).
Proof.
  intros Hh. destruct (step_healthy_frame w j e Hh) as (Hq & _ & Hdf & Hsafe).
  destruct Hh as (Hmk & Hopen & _).
  destruct e as [[given sur] cc_emails]. cbn [fst snd] in *.
  by apply process_employee_ok.
Qed.

Lemma with_file_keeps path f st p :
  is_Some (fs st !! p) → is_Some (fs (with_file path f st) !! p).
Proof.
  intros H. unfold with_file. cbn [fs].
  destruct (decide (path = p)) as [->|Hne].
  - rewrite lookup_insert_eq. by eexists.
  - by rewrite lookup_insert_ne.
Qed.

Lemma with_file_at path f st : fs (with_file path f st) !! path = Some f.
Proof. unfold with_file. cbn [fs]. apply lookup_insert_eq. Qed.

Lemma lookup_with_file_ne path f st p :
  p ≠ path → fs (with_file path f st) !! p = fs st !! p.
Proof. intros H. unfold with_file. cbn [fs]. by apply lookup_insert_ne. Qed.

Lemma combined_written_keeps col_names rows first_write st p :
  is_Some (fs st !! p) → is_Some (fs (combined_written col_names rows first_write st) !! p).
Proof.
  intros H. unfold combined_written.
  destruct rows, first_write; try done; by apply with_file_keeps.
Qed.

Lemma materialized_keeps given sur col_names rows df first_write st p :
  is_Some (fs st !! p) →
  is_Some (fs (materialized given sur col_names rows df first_write st) !! p).
Proof.
  intros H. unfold materialized.
  by apply combined_written_keeps, with_file_keeps, with_file_keeps.
Qed.

Lemma materialized_files given sur col_names rows df first_write st :
  fs (materialized given sur col_names rows df first_write st) !! csv_path_of given sur
  = Some (CsvFile (col_names :: map row_text rows))
  ∧ fs (materialized given sur col_names rows df first_write st)
      !! xlsx_path_of (csv_path_of given sur)
    = Some (XlsxFile (to_excel "Hardware" df)).
Proof.
  unfold materialized. split.
  - rewrite combined_written_other by apply csv_path_not_combined.
    unfold with_file at 1. cbn [fs].
    rewrite lookup_insert_ne by apply xlsx_path_not_csv.
    apply with_file_at.
  - rewrite combined_written_other by apply xlsx_path_not_combined.
    apply with_file_at.
Qed.

(** The three writes leave every other file as it is. *)
Lemma materialized_other given sur col_names rows df first_write st path :
  path ≠ csv_path_of given sur →
  path ≠ xlsx_path_of (csv_path_of given sur) →
  path ≠ COMBINED_OUTPUT_PATH →
  fs (materialized given sur col_names rows df first_write st) !! path = fs st !! path.
Proof.
  intros H1 H2 H3. unfold materialized.
  rewrite combined_written_other by done.
  by rewrite !lookup_with_file_ne.
Qed.

Lemma materialized_log_trace given sur col_names rows df first_write st :
  log (materialized given sur col_names rows df first_write st) = log st
  ∧ trace (materialized given sur col_names rows df first_write st) = trace st.
Proof. unfold materialized. by rewrite !(proj1 (combined_written_log_trace _ _ _ _)),
         !(proj2 (combined_written_log_trace _ _ _ _)). Qed.

(** What the combined file holds after the append. *)
Lemma materialized_combined given sur col_names rows df first_write st :
  fs (materialized given sur col_names rows df first_write st) !! COMBINED_OUTPUT_PATH
  = match rows, first_write with
    | [], true => Some (CsvFile [col_names])
    | [], false => fs st !! COMBINED_OUTPUT_PATH
    | _ :: _, true => Some (CsvFile (col_names :: map row_text rows))
    | _ :: _, false =>
        Some (CsvFile (match fs st !! COMBINED_OUTPUT_PATH with
                       | Some (CsvFile existing) => existing ++ map row_text rows
                       | _ => map row_text rows
                       end))
    end.
Proof.
  unfold materialized.
  set (st0 := with_file (xlsx_path_of (csv_path_of given sur)) _ _).
  assert (H0 : fs st0 !! COMBINED_OUTPUT_PATH = fs st !! COMBINED_OUTPUT_PATH).
  { unfold st0, with_file. cbn [fs].
    rewrite lookup_insert_ne by apply xlsx_path_not_combined.
    by rewrite lookup_insert_ne by apply csv_path_not_combined. }
  unfold combined_written.
  destruct rows, first_write; rewrite ?with_file_at, ?H0; done.
Qed.

End step_facts.

(** ** A batch *)

Section batch_facts.

Lemma count_events_app p (a b : list event) :
  count_events p (a ++ b) = (count_events p a + count_events p b)%nat.
Proof. unfold count_events. by rewrite List.filter_app, length_app. Qed.

Lemma notified_state w i given sur cc_emails col_names rows df st :
  fs (notified w i given sur cc_emails col_names rows df st) = fs st
  ∧ log (notified w i given sur cc_emails col_names rows df st)
    = log st ++ [notify_line w i (build_recipient_email given sur RECIPIENT_DOMAIN)
                   cc_emails (length rows) (xlsx_path_of (csv_path_of given sur))]
  ∧ trace (notified w i given sur cc_emails col_names rows df st)
    = trace st ++ send_events w i (build_recipient_email given sur RECIPIENT_DOMAIN)
                    cc_emails (notification given sur cc_emails col_names rows df).
Proof. done. Qed.

(** The state after a healthy step. *)
Lemma step_state_facts w i e first_write st :
  log (step_state w i e first_write st)
  = log st ++ [notify_line w i (address_of e) e.2 (length (query_rows w i e))
                 (xlsx_path_of (csv_path_of e.1.1 e.1.2))]
  ∧ trace (step_state w i e first_write st)
    = trace st ++ send_events w i (address_of e) e.2 (step_message w i e)
  ∧ fs (step_state w i e first_write st) !! csv_path_of e.1.1 e.1.2
    = Some (CsvFile (step_columns w i e :: map row_text (query_rows w i e)))
  ∧ fs (step_state w i e first_write st) !! xlsx_path_of (csv_path_of e.1.1 e.1.2)
    = Some (XlsxFile (to_excel "Hardware" (step_frame w i e)))
  ∧ (∀ p, is_Some (fs st !! p) → is_Some (fs (step_state w i e first_write st) !! p))
  ∧ (∀ p, p ≠ csv_path_of e.1.1 e.1.2 → p ≠ xlsx_path_of (csv_path_of e.1.1 e.1.2) →
       p ≠ COMBINED_OUTPUT_PATH →
       fs (step_state w i e first_write st) !! p = fs st !! p).
Proof.
  unfold step_state.
  destruct (notified_state w i e.1.1 e.1.2 e.2 (step_columns w i e) (query_rows w i e)
              (step_frame w i e)
              (materialized e.1.1 e.1.2 (step_columns w i e) (query_rows w i e)
                 (step_frame w i e) first_write st)) as (Hfs & Hlog & Htr).
  destruct (materialized_log_trace e.1.1 e.1.2 (step_columns w i e) (query_rows w i e)
              (step_frame w i e) first_write st) as (Hlogm & Htrm).
  destruct (materialized_files e.1.1 e.1.2 (step_columns w i e) (query_rows w i e)
              (step_frame w i e) first_write st) as (Hcsv & Hxlsx).
  rewrite Hfs, Hlog, Htr, Hlogm, Htrm. split_and!; [done|done|exact Hcsv|exact Hxlsx| |].
  - intros p. apply materialized_keeps.
  - intros p. apply materialized_other.
Qed.

(** A batch that nothing refuses. *)
Lemma process_all_healthy w employees :
  ∀ i total first_write st,
  (∀ j, (i ≤ j < i + length employees)%nat → step_healthy w j) →
  process_all w i employees (total, first_write) st
  = (Ok ((total + length (all_rows w i employees))%nat,
         match all_rows w i employees with [] => first_write | _ :: _ => false end),
     batch_state w i employees first_write st).
Proof.
  induction employees as [|e rest IH]; intros i total first_write st Hh.
  - cbn [process_all all_rows batch_state length]. by rewrite Nat.add_0_r.
  - cbn [length] in Hh. cbn [process_all].
    rewrite (bind_ok _ _ _ _ _
               (process_employee_healthy w i e total first_write st (Hh i ltac:(lia)))).
    rewrite IH by (intros j Hj; apply Hh; lia).
    cbn [all_rows batch_state]. rewrite length_app, Nat.add_assoc.
    by destruct (query_rows w i e), (all_rows w (S i) rest), first_write.
Qed.

Lemma batch_state_facts w employees :
  ∀ i first_write st,
    log (batch_state w i employees first_write st) = log st ++ notify_lines w i employees
    ∧ trace (batch_state w i employees first_write st)
      = trace st ++ batch_events w i employees
    ∧ (∀ p, is_Some (fs st !! p) →
         is_Some (fs (batch_state w i employees first_write st) !! p))
    ∧ (∀ e, e ∈ employees →
         is_Some (fs (batch_state w i employees first_write st) !! csv_path_of e.1.1 e.1.2)
         ∧ is_Some (fs (batch_state w i employees first_write st)
                      !! xlsx_path_of (csv_path_of e.1.1 e.1.2)))
    ∧ (∀ p, p ≠ COMBINED_OUTPUT_PATH →
         (∀ e, e ∈ employees → ¬ employee_output e p) →
         fs (batch_state w i employees first_write st) !! p = fs st !! p).
Proof.
  induction employees as [|e rest IH]; intros i first_write st.
  - cbn [batch_state notify_lines batch_events]. rewrite !app_nil_r.
    split_and!; [done|done|done| |done].
    intros e He. by apply not_elem_of_nil in He.
  - cbn [batch_state notify_lines batch_events].
    destruct (step_state_facts w i e first_write st)
      as (Hlog1 & Htr1 & Hcsv1 & Hxlsx1 & Hkeep1 & Hother1).
    destruct (IH (S i) (match query_rows w i e with [] => first_write | _ :: _ => false end)
                (step_state w i e first_write st))
      as (Hlog & Htr & Hkeep & Hfiles & Hother).
    split_and!.
    + rewrite Hlog, Hlog1, <- app_assoc. done.
    + rewrite Htr, Htr1, <- app_assoc. done.
    + intros p Hp. by apply Hkeep, Hkeep1.
    + intros e' He'. apply elem_of_cons in He' as [->|He']; [|by apply Hfiles].
      split; apply Hkeep; [rewrite Hcsv1|rewrite Hxlsx1]; by eexists.
    + intros p Hp Hout. rewrite Hother.
      * apply Hother1; [| |done].
        -- intros ->. apply (Hout e ltac:(by left)). by left.
        -- intros ->. apply (Hout e ltac:(by left)). by right.
      * done.
      * intros e' He'. apply Hout. by right.
Qed.

(** The combined file along a batch in which every query gives the same
    columns: the header once, then the rows found so far. *)
Lemma process_all_combined w col_names employees :
  (∀ j, step_healthy w j) →
  (∀ j given sur, ∃ rows, w_query w j given sur = Ok (col_names, rows)) →
  ∀ i total first_write st written,
    (first_write = true → written = []) →
    (fs st !! COMBINED_OUTPUT_PATH = Some (CsvFile (col_names :: written))
     ∨ (first_write = true ∧ employees ≠ [])) →
    fs (process_all w i employees (total, first_write) st).2 !! COMBINED_OUTPUT_PATH
    = Some (CsvFile (col_names :: written ++ map row_text (all_rows w i employees))).
Proof.
  intros Hh Hcols. induction employees as [|e rest IH];
    intros i total first_write st written Hfirst Hfile.
  - destruct Hfile as [Hfile|[_ Hne]]; [|done].
    cbn [process_all all_rows map]. by rewrite app_nil_r.
  - pose proof (process_employee_healthy w i e total first_write st (Hh i)) as Hstep.
    assert (Hc : step_columns w i e = col_names).
    { unfold step_columns. destruct (Hcols i e.1.1 e.1.2) as [rows' ->]. done. }
    set (rows := query_rows w i e) in *.
    cbn [process_all]. rewrite (bind_ok _ _ _ _ _ Hstep).
    cbn [all_rows]. fold rows. rewrite map_app, app_assoc.
    apply IH.
    + destruct rows; [|done]. intros Hf. rewrite (Hfirst Hf). done.
    + left. unfold step_state.
      rewrite (proj1 (notified_state _ _ _ _ _ _ _ _ _)), materialized_combined.
      fold rows. rewrite Hc.
      destruct rows as [|r rows], first_write.
      * rewrite (Hfirst eq_refl). done.
      * destruct Hfile as [Hfile|[? _]]; [|done]. rewrite Hfile. cbn [map].
        by rewrite app_nil_r.
      * by rewrite (Hfirst eq_refl).
      * destruct Hfile as [Hfile|[? _]]; [|done]. by rewrite Hfile.
Qed.

Lemma write_employee_csv_no_dir w i given sur col_names rows st msg :
  w_makedirs w i = Failure msg →
  write_employee_csv w i given sur col_names rows st = (Raise (OSError msg), st).
Proof. intros Hmk. unfold write_employee_csv, check. by rewrite Hmk. Qed.

Lemma write_employee_csv_refused w i given sur col_names rows st msg :
  w_makedirs w i = Success →
  w_open w i (csv_path_of given sur) = Failure msg →
  write_employee_csv w i given sur col_names rows st = (Raise (OSError msg), st).
Proof.
  intros Hmk Hopen. unfold write_employee_csv, check. rewrite Hmk.
  unfold mbind, M_bind, bind, ret. by rewrite (write_records_refused _ _ _ _ _ _ Hopen).
Qed.

Lemma convert_csv_to_xlsx_refused w i csv_path records df st msg :
  fs st !! csv_path = Some (CsvFile records) →
  pd_read_csv records = Ok df →
  w_open w i (xlsx_path_of csv_path) = Failure msg →
  convert_csv_to_xlsx w i csv_path st = (Raise (OSError msg), st).
Proof.
  intros Hfile Hdf Hopen. unfold convert_csv_to_xlsx.
  unfold mbind, M_bind, bind, ret, raise, lift, lookup_file, check, set_file.
  by rewrite Hfile, Hdf, Hopen.
Qed.

Lemma append_to_combined_csv_refused w i col_names rows first_write st msg :
  w_open w i COMBINED_OUTPUT_PATH = Failure msg →
  rows ≠ [] ∨ first_write = true →
  append_to_combined_csv w i col_names rows COMBINED_OUTPUT_PATH first_write st
  = (Raise (OSError msg), st).
Proof.
  intros Hopen Hcase. unfold append_to_combined_csv.
  unfold mbind, M_bind, bind, ret.
  destruct rows as [|r rows], first_write.
  - by rewrite (write_records_refused _ _ _ _ _ _ Hopen).
  - by destruct Hcase.
  - by rewrite (write_records_refused _ _ _ _ _ _ Hopen).
  - unfold append_records, check, raise, mbind, M_bind, bind. by rewrite Hopen.
Qed.

(** The loop body when a write is refused: the exception leaves the
    body, nothing is printed or sent for the employee, and no file but
    the table file and the workbook of the employee is touched. *)
Lemma process_employee_refused w i given sur cc_emails total first_write st msg :
  well_formed_result (w_query w i given sur) →
  write_refused w i given sur first_write msg →
  ∃ st', process_employee w i (given, sur, cc_emails) (total, first_write) st
         = (Raise (OSError msg), st')
         ∧ log st' = log st ∧ trace st' = trace st
         ∧ ∀ path, path ≠ csv_path_of given sur →
             path ≠ xlsx_path_of (csv_path_of given sur) →
             fs st' !! path = fs st !! path.
Proof.
  intros Hwf Href. unfold process_employee.
  unfold write_refused, query_rows in Href. cbn [fst snd] in Href.
  destruct (w_query w i given sur) as [[col_names rows]|e] eqn:Hq; [|done].
  cbn [well_formed_result] in Hwf.
  rewrite (bind_ok _ _ st st (col_names, rows)) by done.
  cbv beta iota.
  destruct (pd_read_csv_writable col_names rows Hwf) as (df & Hdf & Hsafe & _).
  destruct Href as [Hmk|(Hmk & [Hcsv|[[Hcsv Hxlsx]|(Hcsv & Hxlsx & Hcomb & Hrows)]])].
  - exists st.
    by rewrite (bind_raise _ _ _ _ _
                  (write_employee_csv_no_dir w i given sur col_names rows st msg Hmk)).
  - exists st.
    by rewrite (bind_raise _ _ _ _ _
                  (write_employee_csv_refused w i given sur col_names rows st msg Hmk Hcsv)).
  - eexists.
    rewrite (bind_ok _ _ _ _ _
               (write_employee_csv_ok w i given sur col_names rows st Hmk Hcsv)).
    rewrite (bind_raise _ _ _ _ _
               (convert_csv_to_xlsx_refused w i _ _ df _ msg (lookup_insert_eq _ _ _)
                  Hdf Hxlsx)).
    split_and!; [done|done|done|].
    intros path H1 _. by apply lookup_with_file_ne.
  - eexists.
    rewrite (bind_ok _ _ _ _ _
               (write_employee_csv_ok w i given sur col_names rows st Hmk Hcsv)).
    rewrite (bind_ok _ _ _ _ _
               (convert_csv_to_xlsx_ok w i _ _ df _ (lookup_insert_eq _ _ _) Hdf Hsafe
                  Hxlsx)).
    rewrite (bind_raise _ _ _ _ _
               (append_to_combined_csv_refused w i col_names rows first_write _ msg
                  Hcomb Hrows)).
    split_and!; [done|done|done|].
    intros path H1 H2. by rewrite !lookup_with_file_ne.
Qed.

Lemma process_all_raises w before e after ex :
  ∀ i acc st acc1 st1 st2,
    process_all w i before acc st = (Ok acc1, st1) →
    process_employee w (i + length before) e acc1 st1 = (Raise ex, st2) →
    process_all w i (before ++ e :: after) acc st = (Raise ex, st2).
Proof.
  induction before as [|b before IH]; intros i acc st acc1 st1 st2 Hrun Hstep.
  - cbn [process_all] in Hrun. injection Hrun as <- <-.
    cbn [length] in Hstep. rewrite Nat.add_0_r in Hstep.
    cbn [app process_all]. by rewrite (bind_raise _ _ _ _ _ Hstep).
  - cbn [app process_all] in *. unfold mbind, M_bind, bind in *.
    destruct (process_employee w i b acc st) as [[acc'|e'] st'] eqn:Hb; [|done].
    apply (IH (S i) acc' st' acc1 st1 st2 Hrun).
    cbn [length] in Hstep. by rewrite Nat.add_succ_r in Hstep.
Qed.

(** The run up to the loop, when the input is read and the database
    answers. *)
Lemma main_connected w files records employees :
  w_input w = Some records →
  read_employees records = Ok employees →
  employees ≠ [] →
  w_remove w = Success →
  w_db_connect w = Success →
  main w (initial files)
  = try_finally
      (acc ← process_all w 0 employees (0%nat, true);
       if (acc.1 =? 0)%nat then print OutNoRows else print (OutSaved acc.1))
      (emit EvDbClose)
      (with_events [EvDbConnect] (initial (delete COMBINED_OUTPUT_PATH files))).
Proof.
  intros Hin Hread Hne Hrm Hdb. unfold main.
  rewrite (bind_ok _ _ (initial files) (initial files) employees)
    by (unfold load_employees, lift; by rewrite Hin, Hread).
  destruct employees as [|e rest]; [done|].
  unfold mbind, M_bind, bind, lookup_file, db_connect, check, remove_file, ret, emit.
  rewrite Hrm, Hdb. cbn [fs initial].
  destruct (files !! COMBINED_OUTPUT_PATH) as [f|] eqn:Hf; cbv beta iota.
  - done.
  - unfold initial. by rewrite (delete_id _ _ Hf).
Qed.

(** The run up to the loop, in every world. *)
Lemma main_before_loop w files records employees :
  w_input w = Some records →
  read_employees records = Ok employees →
  employees ≠ [] →
  main w (initial files)
  = match files !! COMBINED_OUTPUT_PATH, w_remove w, w_db_connect w with
    | Some _, Failure msg, _ => (Raise (OSError msg), initial files)
    | _, _, Failure msg =>
        (Raise (DatabaseError msg), initial (delete COMBINED_OUTPUT_PATH files))
    | _, _, Success =>
        try_finally
          (acc ← process_all w 0 employees (0%nat, true);
           if (acc.1 =? 0)%nat then print OutNoRows else print (OutSaved acc.1))
          (emit EvDbClose)
          (with_events [EvDbConnect] (initial (delete COMBINED_OUTPUT_PATH files)))
    end.
Proof.
  intros Hin Hread Hne. unfold main.
  rewrite (bind_ok _ _ (initial files) (initial files) employees)
    by (unfold load_employees, lift; by rewrite Hin, Hread).
  destruct employees as [|e rest]; [done|].
  unfold mbind, M_bind, bind, lookup_file, db_connect, check, remove_file, ret, emit,
    raise.
  cbn [fs initial].
  destruct (files !! COMBINED_OUTPUT_PATH) as [f|] eqn:Hf, (w_remove w) as [|msg],
    (w_db_connect w) as [|msg']; cbv beta iota; try done;
    unfold initial; by rewrite (delete_id _ _ Hf).
Qed.

(** The run when nothing but a send can fail. *)
Lemma main_healthy w files records employees :
  w_input w = Some records →
  read_employees records = Ok employees →
  employees ≠ [] →
  w_remove w = Success →
  w_db_connect w = Success →
  (∀ j, (j < length employees)%nat → step_healthy w j) →
  main w (initial files)
  = (Ok tt,
     with_events [EvDbClose]
       (with_line (if (length (all_rows w 0 employees) =? 0)%nat
                   then OutNoRows
                   else OutSaved (length (all_rows w 0 employees)))
          (batch_state w 0 employees true
             (with_events [EvDbConnect] (initial (delete COMBINED_OUTPUT_PATH files)))))).
Proof.
  intros Hin Hread Hne Hrm Hdb Hh.
  rewrite (main_connected w files records employees Hin Hread Hne Hrm Hdb).
  unfold try_finally.
  rewrite (bind_ok _ _ _ _ _
             (process_all_healthy w employees 0%nat 0%nat true _
                ltac:(intros j Hj; apply Hh; lia))).
  cbn [fst Nat.add].
  unfold print, emit. by destruct (length (all_rows w 0 employees) =? 0)%nat.
Qed.

End batch_facts.

(** ** Sending *)

(** C10, as stated, fails: with a relay that accepts the connection,
    the greeting and the message but answers QUIT with an error, the
    send raises although neither the connection nor sendmail failed. *)
Theorem quit_failure_propagates :
  ¬ send_fails_only_on_connect_or_sendmail_as_stated quit_refused_world 0.
Proof.
  intros H.
  specialize (H "jane.doe@example.com" EMAIL_SUBJECT (body_nothing_found "Jane" "Doe")
                "out/hardware_Jane_Doe.xlsx" [] sample_state (XlsxFile sample_workbook)
                eq_refl eq_refl (λ _ _ _ _, eq_refl)).
  vm_compute in H. discriminate H.
Qed.

(** C10, amended.  When the attachment can be read, the result of a
    send is told by the four answers of the relay: it raises when the
    connection fails; when the greeting raises, the exception is caught
    and sendmail is still called, but on the connection that the
    greeting has closed, so that it raises; otherwise it raises when
    QUIT is answered with an error on leaving the block, or when
    sendmail raises; and it returns when nothing of this happens.  Once
    the connection is made the message is handed to sendmail after the
    greeting, whether the greeting succeeded or not, and the connection
    is closed. *)
Theorem ehlo_failure_is_caught
    (w : world) (i : nat) (to_email subject html_body attachment_path : string)
    (cc_emails : list string) (st : state) (payload : file) :
  fs st !! attachment_path = Some payload →
  (send_email_with_attachment w i to_email subject html_body attachment_path cc_emails st).1
  = match w_smtp_connect w i with
    | Failure msg => Raise (SMTPException msg)
    | Success =>
        match w_smtp_ehlo w i with
        | Failure _ => Raise (SMTPException "please run connect() first")
        | Success =>
            match w_smtp_quit w i, w_smtp_sendmail w i with
            | Failure msg, _ => Raise (SMTPException msg)
            | Success, Failure msg => Raise (SMTPException msg)
            | Success, Success => Ok tt
            end
        end
    end
  ∧ (w_smtp_connect w i = Success →
     ∃ m,
       trace (send_email_with_attachment w i to_email subject html_body
                attachment_path cc_emails st).2
       = trace st ++ [EvSmtpOpen; EvSmtpEhlo (succeeds (w_smtp_ehlo w i));
                      EvSmtpSendmail SENDER_EMAIL (to_email :: cc_emails) m;
                      EvSmtpClose]
       ∧ msg_to m = to_email ∧ msg_subject m = subject
       ∧ msg_html m = html_body ∧ msg_attachment m = payload).
Proof.
  intros Hfile.
  rewrite (send_email_with_attachment_spec w i _ _ _ _ _ st payload Hfile).
  cbn [fst snd with_events trace]. split; [reflexivity|].
  intros Hconn. eexists. unfold send_events. rewrite Hconn.
  split; [reflexivity|done].
Qed.

Lemma ehlo_failure_is_caught_witness :
  fs sample_state !! "out/hardware_Jane_Doe.xlsx" = Some (XlsxFile sample_workbook)
  ∧ (send_email_with_attachment deaf_relay_world 0 "jane.doe@example.com"
       EMAIL_SUBJECT (body_nothing_found "Jane" "Doe")
       "out/hardware_Jane_Doe.xlsx" [] sample_state).1
    = Raise (SMTPException "please run connect() first").
Proof.
  assert (H : fs sample_state !! "out/hardware_Jane_Doe.xlsx"
              = Some (XlsxFile sample_workbook)) by (vm_compute; reflexivity).
  split; [exact H|].
  exact (proj1 (ehlo_failure_is_caught deaf_relay_world 0 "jane.doe@example.com"
                  EMAIL_SUBJECT (body_nothing_found "Jane" "Doe")
                  "out/hardware_Jane_Doe.xlsx" [] sample_state _ H)).
Defined.

(** ** Integer literals *)

Section integer_literals.

#[local] Arguments in_int64 : simpl never.

Lemma digit_not_space_or_sign c :
  isdigit_c c = true →
  isspace_c c = false ∧ Ascii.eqb c "-"%char = false ∧ Ascii.eqb c "+"%char = false.
Proof.
  destruct c as [[] [] [] [] [] [] [] []]; vm_compute; intros H;
    repeat split; congruence.
Qed.

Lemma read_digits_acc (d : Decimal.uint) :
  ∀ p : positive,
    read_digits (Z.pos p) (NilEmpty.string_of_uint d)
    = (Z.pos (Pos.of_uint_acc d p), EmptyString).
Proof.
  induction d; intros p; simpl; [done|..];
    match goal with
    | |- read_digits ?a _ = (Z.pos (Pos.of_uint_acc _ ?q), _) =>
        replace a with (Z.pos q) by (unfold digit_val; simpl; lia)
    end; apply IHd.
Qed.

Lemma read_digits_uint (d : Decimal.uint) :
  read_digits 0 (NilEmpty.string_of_uint d) = (Z.of_N (Pos.of_uint d), EmptyString).
Proof.
  induction d; simpl; [done | exact IHd | apply (read_digits_acc d) ..].
Qed.

Lemma uint_string_head (d : Decimal.uint) :
  d ≠ Decimal.Nil →
  ∃ c r, NilEmpty.string_of_uint d = String c r ∧ isdigit_c c = true.
Proof. destruct d; intros H; [done|..]; eexists _, _; split; reflexivity. Qed.

(** A string of digits, with or without a minus sign before it, is read
    as the number it writes. *)
Lemma parse_int64_digits (d : Decimal.uint) (neg : bool) :
  d ≠ Decimal.Nil →
  let v := Z.of_N (Pos.of_uint d) in
  let z := if neg then (- v)%Z else v in
  parse_int64 ((if neg then "-" else EmptyString) ++ NilEmpty.string_of_uint d)
  = if in_int64 z then Some z else None.
Proof.
  intros Hd v z.
  destruct (uint_string_head d Hd) as (c & r & Hs & Hc).
  destruct (digit_not_space_or_sign c Hc) as (Hsp & Hm & Hp).
  pose proof (read_digits_uint d) as Hr. rewrite Hs in Hr.
  unfold parse_int64. rewrite Hs.
  assert (Hsm : isspace_c "-"%char = false) by reflexivity.
  destruct neg; rewrite ?append_cons, ?append_nil_l; cbn -[read_digits in_int64].
  - rewrite Hsm. cbn -[read_digits in_int64]. rewrite Hc, Hr. done.
  - rewrite Hsp, Hm, Hp, Hc, Hr. done.
Qed.

Lemma str_Z_digits (p : positive) :
  str_Z (Z.pos p) = NilEmpty.string_of_uint (Pos.to_uint p)
  ∧ str_Z (Z.neg p) = String "-" (NilEmpty.string_of_uint (Pos.to_uint p)).
Proof.
  unfold str_Z. simpl. unfold NilZero.string_of_uint.
  pose proof (DecimalPos.Unsigned.to_uint_nonnil p).
  by destruct (Pos.to_uint p).
Qed.

Lemma parse_int64_str_Z (z : Z) :
  in_int64 z = true → parse_int64 (str_Z z) = Some z.
Proof.
  intros Hz. destruct z as [|p|p]; [reflexivity|..].
  - pose proof (parse_int64_digits (Pos.to_uint p) false
                  (DecimalPos.Unsigned.to_uint_nonnil p)) as H.
    cbv zeta in H. rewrite DecimalPos.Unsigned.of_to, append_nil_l in H.
    change (Z.of_N (N.pos p)) with (Z.pos p) in H.
    rewrite Hz in H. by rewrite (proj1 (str_Z_digits p)).
  - pose proof (parse_int64_digits (Pos.to_uint p) true
                  (DecimalPos.Unsigned.to_uint_nonnil p)) as H.
    cbv zeta in H. rewrite DecimalPos.Unsigned.of_to, append_cons, append_nil_l in H.
    change (- Z.of_N (N.pos p))%Z with (Z.neg p) in H.
    rewrite Hz in H. by rewrite (proj2 (str_Z_digits p)).
Qed.

End integer_literals.

(** ** Table file to workbook *)

Section round_trip_facts.

Lemma filter_not_blank (l : list (list string)) :
  Forall (λ r, blank_line r = false) l →
  List.filter (λ r, negb (blank_line r)) l = l.
Proof.
  induction 1 as [|r l Hr _ IH]; [done|]. cbn [List.filter].
  rewrite Hr. cbn [negb]. by rewrite IH.
Qed.

Lemma mapM_map_Some {A B C} (f : B → option C) (g : A → B) (h : A → C) (l : list A) :
  (∀ x, f (g x) = Some (h x)) → mapM f (map g l) = Some (map h l).
Proof.
  intros H. induction l as [|a l IH]; [done|].
  simpl. rewrite H. simpl. rewrite IH. done.
Qed.

(** A text of printable characters holds nothing that a workbook
    refuses. *)
Lemma plain_label_legal (s : string) : plain_label s = true → has_illegal s = false.
Proof.
  unfold plain_label, has_illegal. intros H.
  apply andb_prop in H as [H _]. apply andb_prop in H as [_ H].
  induction (list_ascii_of_string s) as [|c l IH]; [done|].
  cbn [forallb existsb] in *. apply andb_prop in H as [Hc Hl].
  rewrite (IH Hl), orb_false_r. unfold illegal_char.
  apply andb_prop in Hc as [Hc _]. apply Nat.leb_le in Hc.
  assert (Hlt : (nat_of_ascii c <? 32)%nat = false) by (apply Nat.ltb_ge; lia).
  by rewrite Hlt.
Qed.

(** A line of blanks holds neither a text nor an integer. *)
Lemma blank_token_unfaithful (data : list (list string)) (t : string) :
  blank_line [t] = true → faithful_cell data 0 t = false.
Proof.
  cbn [blank_line]. intros H. apply andb_prop in H as [_ H].
  assert (Hnum : forallb number_char (list_ascii_of_string t) = true).
  { induction (list_ascii_of_string t) as [|c l IH]; [done|].
    cbn [forallb] in *. apply andb_prop in H as [Hc Hl]. rewrite (IH Hl), andb_true_r.
    apply orb_prop in Hc as [Hc|Hc]; apply Ascii.eqb_eq in Hc; by subst c. }
  assert (Hskip : skip_spaces t = EmptyString).
  { induction t as [|c t IH]; [done|].
    cbn [list_ascii_of_string forallb] in H. apply andb_prop in H as [Hc Ht].
    cbn [skip_spaces].
    assert (Hsp : isspace_c c = true)
      by (apply orb_prop in Hc as [Hc|Hc]; apply Ascii.eqb_eq in Hc; by subst c).
    rewrite Hsp. apply IH; [exact Ht|].
    cbn [list_ascii_of_string forallb] in Hnum. by apply andb_prop in Hnum as [_ ?]. }
  unfold faithful_cell, text_token, surely_text, small_int_token, parse_int64.
  rewrite Hskip.
  assert (Hex : existsb (λ c, negb (number_char c)) (list_ascii_of_string t) = false).
  { clear -Hnum. induction (list_ascii_of_string t) as [|c l IH]; [done|].
    cbn [forallb existsb] in *. apply andb_prop in Hnum as [Hc Hl].
    by rewrite Hc, (IH Hl). }
  rewrite Hex. cbn. by rewrite andb_false_r.
Qed.

(** What comes back for a token that the round trip is told to keep. *)
Lemma faithful_cell_back (data : list (list string)) (j : nat) (t : string) :
  faithful_cell data j t = true →
  xl_str (excel_cell (infer_cell data j t)) = Some t
  ∧ refused_text (infer_cell data j t) = None.
Proof.
  unfold faithful_cell, infer_cell. intros H.
  destruct (text_token t) eqn:Htext.
  - cbn. split; [done|].
    apply andb_prop in Htext as [_ Hplain]. by rewrite (plain_label_legal t Hplain).
  - cbn [orb] in H. apply andb_prop in H as [Hcol Hint]. rewrite Hcol.
    unfold small_int_token in Hint.
    destruct (parse_int64 t) as [z|]; [|done].
    apply andb_prop in Hint as [Hsmall Heq]. apply String.eqb_eq in Heq.
    cbn [excel_cell]. rewrite Hsmall. cbn. by rewrite Heq.
Qed.

(** The integers of magnitude up to 2^53 are among these tokens. *)
Lemma small_int_token_str_Z (z : Z) :
  (Z.abs z ≤ 2 ^ 53)%Z → small_int_token (str_Z z) = true.
Proof.
  intros Hz. unfold small_int_token.
  rewrite parse_int64_str_Z by (unfold in_int64; lia).
  apply andb_true_intro. split; [lia|apply String.eqb_refl].
Qed.

(** The frame read from a table whose every cell is to be kept. *)
Lemma pd_read_csv_faithful (cols : list string) (data : list (list string)) :
  blank_line cols = false → clean_header cols = true →
  Forall (λ r, length r = length cols) data →
  Forall (λ r, ∀ j t, r !! j = Some t → faithful_cell data j t = true) data →
  pd_read_csv (cols :: data)
  = Ok {| df_columns := map XStr cols; df_rows := map (imap (infer_cell data)) data |}.
Proof.
  intros Hblank Hclean Hrect Hcells.
  unfold pd_read_csv. cbn [List.filter]. rewrite Hblank. cbn [negb].
  rewrite filter_not_blank.
  2:{ apply Forall_forall. intros r Hr.
      rewrite Forall_forall in Hcells. specialize (Hcells r Hr).
      rewrite Forall_forall in Hrect. specialize (Hrect r Hr).
      destruct r as [|t [|t' r]]; [| |done].
      - by destruct cols.
      - destruct (blank_line [t]) eqn:Hb; [|done].
        specialize (Hcells 0%nat t eq_refl).
        by rewrite (blank_token_unfaithful data t Hb) in Hcells. }
  rewrite Hclean.
  assert (Hrectb : forallb (λ r, (length r =? length cols)%nat) data = true).
  { clear -Hrect. induction Hrect as [|r l Hlen _ IH]; [done|]. cbn [forallb].
    rewrite IH, andb_true_r. by apply Nat.eqb_eq. }
  by rewrite Hrectb.
Qed.

Lemma round_trip_faithful (w : world) (i : nat) (given sur : string)
    (cols : list string) (rows : list row) (st : state) :
  w_makedirs w i = Success →
  (∀ path, w_open w i path = Success) →
  blank_line cols = false → clean_header cols = true →
  (Z.of_nat (length rows) ≤ 2 ^ 20)%Z →
  (Z.of_nat (length cols) ≤ 2 ^ 14)%Z →
  Forall (λ r, length r = length cols) rows →
  Forall (λ r, ∀ j t, r !! j = Some t → faithful_cell (map row_text rows) j t = true)
    (map row_text rows) →
  round_trip w i given sur cols rows st = Some (cols, map row_text rows).
Proof.
  intros Hmk Hopen Hblank Hclean Hnrows Hncols Hrect Hcells.
  set (data := map row_text rows) in *.
  assert (Hrect' : Forall (λ r, length r = length cols) data).
  { unfold data. apply Forall_forall. intros r Hr.
    change (map row_text rows) with (row_text <$> rows) in Hr.
    apply list_elem_of_fmap in Hr as (r0 & -> & Hr0).
    rewrite Forall_forall in Hrect. unfold row_text. rewrite length_map. by apply Hrect. }
  pose proof (pd_read_csv_faithful cols data Hblank Hclean Hrect' Hcells) as Hdf.
  assert (Hsafe : to_excel_error
                    {| df_columns := map XStr cols;
                       df_rows := map (imap (infer_cell data)) data |} = None).
  { apply to_excel_error_none; cbn [df_columns df_rows].
    - rewrite length_map. unfold data. rewrite length_map. lia.
    - rewrite length_map. lia.
    - apply Forall_forall. intros v Hv.
      change (map XStr cols) with (XStr <$> cols) in Hv.
      apply list_elem_of_fmap in Hv as (c & -> & Hc). cbn.
      unfold clean_header in Hclean. apply andb_prop in Hclean as [_ Hplain].
      rewrite forallb_forall in Hplain.
      by rewrite (plain_label_legal c (Hplain c (proj1 (list_elem_of_In _ _) Hc))).
    - apply Forall_forall. intros r Hr.
      change (map ?f data) with (f <$> data) in Hr.
      apply list_elem_of_fmap in Hr as (r0 & -> & Hr0).
      apply Forall_forall. intros v Hv.
      apply list_elem_of_lookup in Hv as [j Hj]. rewrite list_lookup_imap in Hj.
      destruct (r0 !! j) as [t|] eqn:Ht; [|done]. cbn in Hj. injection Hj as <-.
      rewrite Forall_forall in Hcells.
      exact (proj2 (faithful_cell_back data j t (Hcells r0 Hr0 j t Ht))). }
  unfold round_trip.
  rewrite (bind_ok _ _ _ _ _ (write_employee_csv_ok w i given sur cols _ st Hmk (Hopen _))).
  fold data.
  rewrite (convert_csv_to_xlsx_ok w i _ _ _ _ (lookup_insert_eq _ _ _) Hdf Hsafe (Hopen _)).
  rewrite with_file_at.
  unfold read_back, to_excel. cbn [wb_header wb_rows df_columns df_rows].
  rewrite (mapM_map_Some xl_str XStr id) by done. cbn [mbind option_bind].
  rewrite map_id.
  assert (Hback : mapM (mapM xl_str) (map (map excel_cell) (map (imap (infer_cell data)) data))
                  = Some data).
  { apply mapM_Some. rewrite !Forall2_fmap_l.
    apply Forall_Forall2_diag, Forall_forall. intros r Hr.
    apply mapM_Some. rewrite Forall2_fmap_l.
    apply Forall2_same_length_lookup_2; [by rewrite length_imap|].
    intros j v t Hv Ht. rewrite list_lookup_imap, Ht in Hv. cbn in Hv.
    injection Hv as <-.
    rewrite Forall_forall in Hcells.
    exact (proj1 (faithful_cell_back data j t (Hcells r Hr j t Ht))). }
  by rewrite Hback.
Qed.

End round_trip_facts.

(** C4, as stated, fails: a cell 007 under the label A is read by the
    conversion as the number seven and comes back as the string 7. *)
Lemma round_trip_loses_leading_zeros :
  ¬ round_trip_faithful_as_stated ["A"] [[Some "007"]].
Proof.
  intros H.
  specialize (H quiet_world 0%nat "Jane" "Doe" (initial ∅) eq_refl (λ _, eq_refl)).
  vm_compute in H. discriminate.
Qed.

(** C4, amended.  When the labels are distinct plain texts, the rows
    have one cell per label, the sheet is not too large, and every cell
    written is either a plain text that can only be text (it holds a
    character that no number holds and is none of the words read as a
    missing value, an infinity or a boolean) or, in a column of integer
    literals, the decimal form of an integer of magnitude up to 2^53 as
    [str] prints it, converting the table file to a workbook and
    reading it back gives the same labels in the same order and cells
    equal as strings to those written.  Every integer of that magnitude
    is such a cell; for the labels A, B and the row 1, 2 the round trip
    gives exactly these strings, and for the labels Maker, SerialNo and
    the rows Dell, 12 and LG, 7 likewise. *)
Theorem round_trip_faithful_table (w : world) (i : nat) (given sur : string)
    (cols : list string) (rows : list row) (st : state) :
  w_makedirs w i = Success →
  (∀ path, w_open w i path = Success) →
  blank_line cols = false → clean_header cols = true →
  (Z.of_nat (length rows) ≤ 2 ^ 20)%Z →
  (Z.of_nat (length cols) ≤ 2 ^ 14)%Z →
  Forall (λ r, length r = length cols) rows →
  Forall (λ r, ∀ j t, r !! j = Some t → faithful_cell (map row_text rows) j t = true)
    (map row_text rows) →
  round_trip w i given sur cols rows st = Some (cols, map row_text rows)
  ∧ (∀ z, (Z.abs z ≤ 2 ^ 53)%Z → small_int_token (str_Z z) = true)
  ∧ round_trip w i given sur ["A"; "B"] [[Some "1"; Some "2"]] st
    = Some (["A"; "B"], [["1"; "2"]])
  ∧ round_trip w i given sur ["Maker"; "SerialNo"]
      [[Some "Dell"; Some "12"]; [Some "LG"; Some "7"]] st
    = Some (["Maker"; "SerialNo"], [["Dell"; "12"]; ["LG"; "7"]]).
Proof.
  intros Hmk Hopen Hblank Hclean Hnrows Hncols Hrect Hcells.
  split_and!.
  - by apply round_trip_faithful.
  - apply small_int_token_str_Z.
  - apply (round_trip_faithful w i given sur ["A"; "B"] [[Some "1"; Some "2"]] st Hmk Hopen);
      [done|by vm_compute|cbn; lia|cbn; lia|by repeat constructor|].
    repeat constructor. intros [|[|j]] t Ht; cbn in Ht; try done;
      injection Ht as <-; by vm_compute.
  - apply (round_trip_faithful w i given sur ["Maker"; "SerialNo"]
             [[Some "Dell"; Some "12"]; [Some "LG"; Some "7"]] st Hmk Hopen);
      [done|by vm_compute|cbn; lia|cbn; lia|by repeat constructor|].
    repeat constructor; intros [|[|j]] t Ht; cbn in Ht; try done;
      injection Ht as <-; by vm_compute.
Qed.

Lemma round_trip_faithful_table_witness :
  (w_makedirs quiet_world 0 = Success
   ∧ (∀ path, w_open quiet_world 0 path = Success)
   ∧ blank_line ["SerialNo"; "Model"; "Qty"] = false
   ∧ clean_header ["SerialNo"; "Model"; "Qty"] = true
   ∧ (Z.of_nat (length [[Some "1042"; Some "Latitude 7440"; Some "-3"]]) ≤ 2 ^ 20)%Z
   ∧ (Z.of_nat (length ["SerialNo"; "Model"; "Qty"]) ≤ 2 ^ 14)%Z
   ∧ Forall (λ r, length r = length ["SerialNo"; "Model"; "Qty"])
       [[Some "1042"; Some "Latitude 7440"; Some "-3"]]
   ∧ Forall (λ r, ∀ j t, r !! j = Some t →
                  faithful_cell
                    (map row_text [[Some "1042"; Some "Latitude 7440"; Some "-3"]]) j t
                  = true)
       (map row_text [[Some "1042"; Some "Latitude 7440"; Some "-3"]]))
  ∧ round_trip quiet_world 0 "Jane" "Doe" ["SerialNo"; "Model"; "Qty"]
      [[Some "1042"; Some "Latitude 7440"; Some "-3"]] (initial ∅)
    = Some (["SerialNo"; "Model"; "Qty"], [["1042"; "Latitude 7440"; "-3"]]).
Proof.
  assert (H3 : blank_line ["SerialNo"; "Model"; "Qty"] = false) by reflexivity.
  assert (H4 : clean_header ["SerialNo"; "Model"; "Qty"] = true) by (vm_compute; reflexivity).
  assert (H5 : (Z.of_nat (length [[Some "1042"; Some "Latitude 7440"; Some "-3"]])
                ≤ 2 ^ 20)%Z) by (cbn; lia).
  assert (H6 : (Z.of_nat (length ["SerialNo"; "Model"; "Qty"]) ≤ 2 ^ 14)%Z) by (cbn; lia).
  assert (H7 : Forall (λ r, length r = length ["SerialNo"; "Model"; "Qty"])
                 [[Some "1042"; Some "Latitude 7440"; Some "-3"]])
    by (by repeat constructor).
  assert (H8 : Forall (λ r, ∀ j t, r !! j = Some t →
                  faithful_cell
                    (map row_text [[Some "1042"; Some "Latitude 7440"; Some "-3"]]) j t
                  = true)
                 (map row_text [[Some "1042"; Some "Latitude 7440"; Some "-3"]])).
  { repeat constructor. intros [|[|[|j]]] t Ht; cbn in Ht; try done;
      injection Ht as <-; by vm_compute. }
  split; [by split_and!|].
  exact (proj1 (round_trip_faithful_table quiet_world 0 "Jane" "Doe"
                  ["SerialNo"; "Model"; "Qty"]
                  [[Some "1042"; Some "Latitude 7440"; Some "-3"]] (initial ∅)
                  eq_refl (λ _, eq_refl) H3 H4 H5 H6 H7 H8)).
Defined.

(** ** An employee without assets *)

Section zero_rows.

Lemma bodies_differ given sur g s table_html :
  body_nothing_found given sur ≠ body_with_rows g s table_html.
Proof. intros H. cbv in H. discriminate H. Qed.

End zero_rows.

(** C9.  For an employee whose query returns no asset row, the preview
    table is the empty string, the body is the nothing-found template
    (which no return-equipment body equals), and the loop body still
    writes the table file with the header record alone and the workbook
    with the header row alone; the message handed to the relay carries
    the nothing-found body.  The columns are taken to be such that the
    header can be converted (it is not a line that pandas passes over
    and holds no character that a workbook refuses), as the nine
    columns that the query selects are. *)
Theorem zero_row_employee (w : world) (i : nat) (given sur : string)
    (cc_emails : list string) (col_names : list string) (total : nat)
    (first_write : bool) (st : state) :
  w_query w i given sur = Ok (col_names, []) →
  writable_table col_names [] →
  w_makedirs w i = Success →
  (∀ path, w_open w i path = Success) →
  let out := process_employee w i (given, sur, cc_emails) (total, first_write) st in
  table_html_of col_names [] = EmptyString
  ∧ body_html_of given sur col_names [] = body_nothing_found given sur
  ∧ (∀ g s table_html, body_nothing_found given sur ≠ body_with_rows g s table_html)
  ∧ out.1 = Ok (total, first_write)
  ∧ fs out.2 !! csv_path_of given sur = Some (CsvFile [col_names])
  ∧ fs out.2 !! xlsx_path_of (csv_path_of given sur)
    = Some (XlsxFile {| wb_sheet := "Hardware";
                        wb_header := if clean_header col_names
                                     then map XStr col_names
                                     else map XInferred col_names;
                        wb_rows := [] |})
  ∧ writable_table asset_columns []
  ∧ ∃ m, trace out.2
         = trace st ++ send_events w i (build_recipient_email given sur RECIPIENT_DOMAIN)
                         cc_emails m
         ∧ msg_html m = body_nothing_found given sur.
Proof.
  intros Hq Hwr Hmk Hopen out.
  destruct (pd_read_csv_writable col_names [] Hwr) as (df & Hdf & Hsafe & Hshape).
  specialize (Hshape eq_refl).
  pose proof (process_employee_ok w i given sur cc_emails col_names [] df total
                first_write st Hq Hmk Hopen Hdf Hsafe) as Hstep.
  fold out in Hstep.
  split_and!.
  - done.
  - done.
  - intros g s table_html. apply bodies_differ.
  - rewrite Hstep. cbn [fst length]. by rewrite Nat.add_0_r.
  - rewrite Hstep. cbn [snd]. unfold notified, with_line, with_events, materialized.
    cbn [fs]. rewrite combined_written_other by apply csv_path_not_combined.
    unfold with_file. cbn [fs].
    rewrite lookup_insert_ne by apply xlsx_path_not_csv.
    apply lookup_insert_eq.
  - rewrite Hstep. cbn [snd]. unfold notified, with_line, with_events, materialized.
    cbn [fs]. rewrite combined_written_other by apply xlsx_path_not_combined.
    unfold with_file at 1. cbn [fs]. rewrite lookup_insert_eq.
    by rewrite Hshape.
  - split_and!; [reflexivity|constructor|by repeat constructor|constructor
                |cbn; lia|cbn; lia].
  - exists (notification given sur cc_emails col_names [] df).
    rewrite Hstep. cbn [snd]. unfold notified, with_line, with_events, materialized.
    cbn [trace].
    by rewrite (proj2 (combined_written_log_trace _ _ _ _)).
Qed.

Lemma zero_row_employee_witness :
  (w_query three_world 0 "Ann" "One" = Ok (asset_columns, [])
   ∧ writable_table asset_columns []
   ∧ w_makedirs three_world 0 = Success
   ∧ (∀ path, w_open three_world 0 path = Success))
  ∧ fs (process_employee three_world 0 ("Ann", "One", ["boss@example.com"])
          (0%nat, true) (initial ∅)).2 !! csv_path_of "Ann" "One"
    = Some (CsvFile [asset_columns]).
Proof.
  assert (H2 : writable_table asset_columns []).
  { split_and!; [reflexivity|constructor|by repeat constructor|constructor
                |cbn; lia|cbn; lia]. }
  split.
  - split_and!; [reflexivity | exact H2 | reflexivity | intros path; reflexivity].
  - exact (proj1 (proj2 (proj2 (proj2 (proj2
             (zero_row_employee three_world 0 "Ann" "One" ["boss@example.com"]
                asset_columns 0 true (initial ∅) eq_refl H2 eq_refl (λ _, eq_refl))))))).
Defined.

(** ** The whole run *)

Section scenario_facts.

Lemma three_world_employees : read_employees three_records = Ok three_employees.
Proof. vm_compute. reflexivity. Qed.

Lemma three_employees_nonempty : three_employees ≠ [].
Proof. discriminate. Qed.

Lemma asset_table_writable (rows : list row) :
  rows = [] ∨ rows = bob_rows → writable_table asset_columns rows.
Proof.
  intros [-> | ->];
    (split_and!; [reflexivity|by repeat constructor|by repeat constructor
                 |by repeat constructor|cbn; lia|cbn; lia]).
Qed.

Lemma three_world_healthy : ∀ j, step_healthy three_world j.
Proof.
  intros j. split; [done|]. split; [done|]. intros g s. cbn.
  apply asset_table_writable. destruct (j =? 1)%nat; [by right|by left].
Qed.

Lemma three_world_columns :
  ∀ j given sur, ∃ rows, w_query three_world j given sur = Ok (asset_columns, rows).
Proof. intros j g s. eexists. reflexivity. Qed.

End scenario_facts.

(** C2.  In a run over at least one employee in which nothing refuses a
    request, every query gives the same columns and no value is one
    that a workbook refuses, the combined file ends as the header
    record once, followed by one record for each row of the employees
    in batch order (the values as texts, the empty text for NULL) and
    nothing else, whatever was at its path before; an employee without
    rows leaves the first-write flag up.  With three employees of whom
    only the second has rows, the file is the header followed by the two
    rows of the second. *)
Theorem combined_header_written_once (w : world) (files : gmap string file)
    (records : list (list string)) (employees : list employee)
    (col_names : list string) :
  w_input w = Some records →
  read_employees records = Ok employees →
  employees ≠ [] →
  w_remove w = Success →
  w_db_connect w = Success →
  (∀ j, step_healthy w j) →
  (∀ j given sur, ∃ rows, w_query w j given sur = Ok (col_names, rows)) →
  (main w (initial files)).1 = Ok tt
  ∧ fs (main w (initial files)).2 !! COMBINED_OUTPUT_PATH
    = Some (CsvFile (col_names
                     :: map (map (λ v, match v with Some s => s | None => EmptyString end))
                          (all_rows w 0 employees)))
  ∧ (∀ i given sur cc_emails total first_write st,
       w_query w i given sur = Ok (col_names, []) →
       (process_employee w i (given, sur, cc_emails) (total, first_write) st).1
       = Ok (total, first_write))
  ∧ fs (main three_world (initial files)).2 !! COMBINED_OUTPUT_PATH
    = Some (CsvFile
              [["ManufacturerName"; "DeviceDescription"; "TypeDescription"; "Description";
                "SerialNo"; "Surname"; "GivenName"; "Location"; "ManagerADLogin"];
               ["Dell"; "Latitude 7440"; "Laptop"; EmptyString; "007";
                "Two"; "Bob"; "Berlin"; "amgr"];
               ["LG"; "27UL850"; "Monitor"; "4K"; "12";
                "Two"; "Bob"; "Berlin"; "amgr"]]).
Proof.
  intros Hin Hread Hne Hrm Hdb Hh Hcols.
  assert (Hflag : ∀ i given sur cc_emails total first_write st,
            w_query w i given sur = Ok (col_names, []) →
            (process_employee w i (given, sur, cc_emails) (total, first_write) st).1
            = Ok (total, first_write)).
  { intros i given sur cc_emails total first_write st Hq.
    rewrite (process_employee_healthy w i (given, sur, cc_emails) total first_write st (Hh i)).
    unfold query_rows. cbn [fst snd]. rewrite Hq.
    cbn [length]. by rewrite Nat.add_0_r. }
  assert (Hgen : ∀ w' records' employees' cols',
            w_input w' = Some records' →
            read_employees records' = Ok employees' →
            employees' ≠ [] →
            w_remove w' = Success →
            w_db_connect w' = Success →
            (∀ j, step_healthy w' j) →
            (∀ j given sur, ∃ rows, w_query w' j given sur = Ok (cols', rows)) →
            (main w' (initial files)).1 = Ok tt
            ∧ fs (main w' (initial files)).2 !! COMBINED_OUTPUT_PATH
              = Some (CsvFile (cols' :: map row_text (all_rows w' 0 employees')))).
  { clear. intros w records employees col_names Hin Hread Hne Hrm Hdb Hh Hcols.
    rewrite (main_healthy w files records employees Hin Hread Hne Hrm Hdb (λ j _, Hh j)).
    split; [done|]. cbn [snd with_events with_line fs].
    pose proof (process_all_combined w col_names employees Hh Hcols 0%nat 0%nat true
                  (with_events [EvDbConnect] (initial (delete COMBINED_OUTPUT_PATH files)))
                  [] (λ _, eq_refl) (or_intror (conj eq_refl Hne))) as Hc.
    rewrite (process_all_healthy w employees 0%nat 0%nat true _ (λ j _, Hh j)) in Hc.
    exact Hc. }
  destruct (Hgen w records employees col_names) as [H1 H2]; try done.
  split; [exact H1|]. split; [exact H2|]. split; [exact Hflag|].
  exact (proj2 (Hgen three_world three_records three_employees asset_columns eq_refl
                  three_world_employees three_employees_nonempty eq_refl eq_refl
                  three_world_healthy three_world_columns)).
Qed.

Lemma combined_header_written_once_witness :
  (w_input three_world = Some three_records
   ∧ read_employees three_records = Ok three_employees
   ∧ three_employees ≠ []
   ∧ w_remove three_world = Success
   ∧ w_db_connect three_world = Success
   ∧ (∀ j, step_healthy three_world j)
   ∧ (∀ j given sur, ∃ rows, w_query three_world j given sur = Ok (asset_columns, rows)))
  ∧ fs (main three_world (initial stale_files)).2 !! COMBINED_OUTPUT_PATH
    = Some (CsvFile
              [["ManufacturerName"; "DeviceDescription"; "TypeDescription"; "Description";
                "SerialNo"; "Surname"; "GivenName"; "Location"; "ManagerADLogin"];
               ["Dell"; "Latitude 7440"; "Laptop"; EmptyString; "007";
                "Two"; "Bob"; "Berlin"; "amgr"];
               ["LG"; "27UL850"; "Monitor"; "4K"; "12";
                "Two"; "Bob"; "Berlin"; "amgr"]]).
Proof.
  split.
  - split_and!; [reflexivity | exact three_world_employees | exact three_employees_nonempty
                | reflexivity | reflexivity | exact three_world_healthy
                | exact three_world_columns].
  - exact (proj1 (proj2 (combined_header_written_once three_world stale_files three_records
                           three_employees asset_columns eq_refl three_world_employees
                           three_employees_nonempty eq_refl eq_refl three_world_healthy
                           three_world_columns))).
Defined.

(** C3.  In a run in which nothing refuses a request except, possibly,
    the relay, and no value is one that a workbook refuses, the run
    returns; every employee gets one line, in batch order, that says
    sent when the send returned and names the recipient and the error
    when the send raised; and the table file and the workbook of every
    employee are there at the end.  With employees 1, 2, 3 of whom only
    the send to 2 fails, the lines are sent, error, sent, and the six
    files exist. *)
Theorem send_failures_are_isolated (w : world) (files : gmap string file)
    (records : list (list string)) (employees : list employee) :
  w_input w = Some records →
  read_employees records = Ok employees →
  employees ≠ [] →
  w_remove w = Success →
  w_db_connect w = Success →
  (∀ j, step_healthy w j) →
  ((main w (initial files)).1 = Ok tt
   ∧ log (main w (initial files)).2
     = notify_lines w 0 employees
       ++ [if (length (all_rows w 0 employees) =? 0)%nat
           then OutNoRows else OutSaved (length (all_rows w 0 employees))]
   ∧ (∀ i e, employees !! i = Some e →
        ∃ l, notify_lines w 0 employees !! i = Some l
             ∧ match w_smtp_connect w i, w_smtp_ehlo w i, w_smtp_sendmail w i,
                     w_smtp_quit w i with
               | Success, Success, Success, Success =>
                   l = OutSent (address_of e) e.2 (length (query_rows w i e))
                         (xlsx_path_of (csv_path_of e.1.1 e.1.2))
               | _, _, _, _ => ∃ mail_ex, l = OutErrorSending (address_of e) mail_ex
               end)
   ∧ ∀ given sur cc_emails, (given, sur, cc_emails) ∈ employees →
       is_Some (fs (main w (initial files)).2 !! csv_path_of given sur)
       ∧ is_Some (fs (main w (initial files)).2 !! xlsx_path_of (csv_path_of given sur)))
  ∧ (log (main three_world (initial files)).2
     = [OutSent "ann.one@example.com" ["boss@example.com"] 0 "out/hardware_Ann_One.xlsx";
        OutErrorSending "bob.two@example.com" (SMTPException "relay down");
        OutSent "cy.three@example.com" ["a@x.com"; "b@x.com"] 0
          "out/hardware_Cy_Three.xlsx";
        OutSaved 2]
     ∧ Forall (λ path, is_Some (fs (main three_world (initial files)).2 !! path))
         ["out/hardware_Ann_One.csv"; "out/hardware_Ann_One.xlsx";
          "out/hardware_Bob_Two.csv"; "out/hardware_Bob_Two.xlsx";
          "out/hardware_Cy_Three.csv"; "out/hardware_Cy_Three.xlsx"]).
Proof.
  intros Hin Hread Hne Hrm Hdb Hh.
  assert (Hgen : ∀ w' records' employees',
            w_input w' = Some records' →
            read_employees records' = Ok employees' →
            employees' ≠ [] →
            w_remove w' = Success →
            w_db_connect w' = Success →
            (∀ j, step_healthy w' j) →
            (main w' (initial files)).1 = Ok tt
            ∧ log (main w' (initial files)).2
              = notify_lines w' 0 employees'
                ++ [if (length (all_rows w' 0 employees') =? 0)%nat
                    then OutNoRows else OutSaved (length (all_rows w' 0 employees'))]
            ∧ ∀ given sur cc_emails, (given, sur, cc_emails) ∈ employees' →
                is_Some (fs (main w' (initial files)).2 !! csv_path_of given sur)
                ∧ is_Some (fs (main w' (initial files)).2
                             !! xlsx_path_of (csv_path_of given sur))).
  { clear. intros w records employees Hin Hread Hne Hrm Hdb Hh.
    rewrite (main_healthy w files records employees Hin Hread Hne Hrm Hdb (λ j _, Hh j)).
    cbn [fst snd with_events with_line fs log].
    destruct (batch_state_facts w employees 0%nat true
                (with_events [EvDbConnect] (initial (delete COMBINED_OUTPUT_PATH files))))
      as (Hlog & _ & _ & Hfiles & _).
    split; [done|]. split; [by rewrite Hlog|].
    intros given sur cc_emails He. exact (Hfiles (given, sur, cc_emails) He). }
  assert (Hlines : ∀ es i0 i e, es !! i = Some e →
            ∃ l, notify_lines w i0 es !! i = Some l
                 ∧ match w_smtp_connect w (i0 + i), w_smtp_ehlo w (i0 + i),
                         w_smtp_sendmail w (i0 + i), w_smtp_quit w (i0 + i) with
                   | Success, Success, Success, Success =>
                       l = OutSent (address_of e) e.2 (length (query_rows w (i0 + i) e))
                             (xlsx_path_of (csv_path_of e.1.1 e.1.2))
                   | _, _, _, _ => ∃ mail_ex, l = OutErrorSending (address_of e) mail_ex
                   end).
  { clear. induction es as [|e0 es IH]; intros i0 i e He; [done|].
    destruct i as [|i].
    - cbn in He. injection He as ->. cbn [notify_lines]. eexists. split; [reflexivity|].
      rewrite Nat.add_0_r. unfold notify_line, send_result, address_of.
      destruct (w_smtp_connect w i0), (w_smtp_ehlo w i0), (w_smtp_sendmail w i0),
        (w_smtp_quit w i0); first [done|by eexists].
    - cbn in He. cbn [notify_lines].
      destruct (IH (S i0) i e He) as (l & Hl & Hcase).
      exists l. split; [exact Hl|]. by rewrite Nat.add_succ_r. }
  split.
  - destruct (Hgen w records employees Hin Hread Hne Hrm Hdb Hh) as (H1 & H2 & H3).
    split_and!; [exact H1|exact H2| |exact H3].
    intros i e He. exact (Hlines employees 0%nat i e He).
  - destruct (Hgen three_world three_records three_employees eq_refl
                three_world_employees three_employees_nonempty eq_refl eq_refl
                three_world_healthy) as (_ & Hlog & Hfiles).
    split; [exact Hlog|].
    repeat constructor.
    + exact (proj1 (Hfiles "Ann" "One" ["boss@example.com"] ltac:(by left))).
    + exact (proj2 (Hfiles "Ann" "One" ["boss@example.com"] ltac:(by left))).
    + exact (proj1 (Hfiles "Bob" "Two" [] ltac:(right; by left))).
    + exact (proj2 (Hfiles "Bob" "Two" [] ltac:(right; by left))).
    + exact (proj1 (Hfiles "Cy" "Three" ["a@x.com"; "b@x.com"] ltac:(right; right; by left))).
    + exact (proj2 (Hfiles "Cy" "Three" ["a@x.com"; "b@x.com"] ltac:(right; right; by left))).
Qed.

Lemma send_failures_are_isolated_witness :
  (w_input three_world = Some three_records
   ∧ read_employees three_records = Ok three_employees
   ∧ three_employees ≠ []
   ∧ w_remove three_world = Success
   ∧ w_db_connect three_world = Success
   ∧ (∀ j, step_healthy three_world j))
  ∧ (main three_world (initial ∅)).1 = Ok tt.
Proof.
  split.
  - split_and!; [reflexivity | exact three_world_employees | exact three_employees_nonempty
                | reflexivity | reflexivity | exact three_world_healthy].
  - exact (proj1 (proj1 (send_failures_are_isolated three_world ∅ three_records
                           three_employees eq_refl three_world_employees
                           three_employees_nonempty eq_refl eq_refl three_world_healthy))).
Defined.

(** C1, as stated, fails: when the table file of the first employee is
    refused, the exception leaves the loop and the run ends with it. *)
Lemma write_failure_is_not_isolated :
  ¬ write_failures_isolated_as_stated refused_world ∅.
Proof.
  intros H.
  destruct (H three_records three_employees eq_refl three_world_employees eq_refl eq_refl
              (λ _, eq_refl) (λ j g s, proj2 (proj2 (three_world_healthy j)) g s))
    as [Hres _].
  vm_compute in Hres. discriminate.
Qed.

(** C1, amended.  A refused write for an employee (the output directory,
    the table file, the workbook, or the combined file when it is
    opened) is not caught in the loop: when the employees before have
    been handled and a write for the next one is refused, the run ends
    with that error; the lines printed are those of the employees
    before and no other, the events are the connection to the database,
    the sends of the employees before and no other, and the closing of
    the database connection; and no file is written for the employees
    after. *)
Theorem write_failure_aborts_run (w : world) (files : gmap string file)
    (records : list (list string)) (before after : list employee)
    (given sur : string) (cc_emails : list string) (msg : string) :
  w_input w = Some records →
  read_employees records = Ok (before ++ (given, sur, cc_emails) :: after) →
  w_remove w = Success →
  w_db_connect w = Success →
  (∀ j, (j < length before)%nat → step_healthy w j) →
  well_formed_result (w_query w (length before) given sur) →
  write_refused w (length before) given sur
    (match all_rows w 0 before with [] => true | _ :: _ => false end) msg →
  (main w (initial files)).1 = Raise (OSError msg)
  ∧ log (main w (initial files)).2 = notify_lines w 0 before
  ∧ trace (main w (initial files)).2
    = EvDbConnect :: batch_events w 0 before ++ [EvDbClose]
  ∧ (∀ path, path ≠ COMBINED_OUTPUT_PATH →
       (∀ e, e ∈ before → ¬ employee_output e path) →
       ¬ employee_output (given, sur, cc_emails) path →
       fs (main w (initial files)).2 !! path = files !! path).
Proof.
  intros Hin Hread Hrm Hdb Hh Hwf Href.
  rewrite (main_connected w files records _ Hin Hread ltac:(by destruct before) Hrm Hdb).
  set (st0 := with_events [EvDbConnect] (initial (delete COMBINED_OUTPUT_PATH files))).
  pose proof (process_all_healthy w before 0%nat 0%nat true st0
                ltac:(intros j Hj; apply Hh; lia)) as Hrun.
  destruct (batch_state_facts w before 0%nat true st0) as (Hlog & Htr & _ & _ & Hother).
  destruct (process_employee_refused w (length before) given sur cc_emails
              (0 + length (all_rows w 0 before))%nat
              (match all_rows w 0 before with [] => true | _ :: _ => false end)
              (batch_state w 0 before true st0) msg Hwf Href)
    as (st2 & Hstep & Hlog2 & Htr2 & Hfs2).
  pose proof (process_all_raises w before (given, sur, cc_emails) after (OSError msg)
                0%nat (0%nat, true) st0 _ _ st2 Hrun Hstep) as Hall.
  unfold try_finally. rewrite (bind_raise _ _ _ _ _ Hall).
  unfold emit. cbn [fst snd with_events log trace fs].
  split_and!.
  - done.
  - by rewrite Hlog2, Hlog.
  - rewrite Htr2, Htr. unfold st0. cbn [with_events trace initial app].
    rewrite <- ?app_assoc. reflexivity.
  - intros path Hcomb Hbefore Hself.
    rewrite Hfs2.
    + rewrite (Hother path Hcomb Hbefore). unfold st0. cbn [with_events fs initial].
      by apply lookup_delete_ne.
    + intros ->. apply Hself. by left.
    + intros ->. apply Hself. by right.
Qed.

Lemma write_failure_aborts_run_witness :
  (w_input refused_later_world = Some three_records
   ∧ read_employees three_records
     = Ok ([("Ann", "One", ["boss@example.com"])]
           ++ ("Bob", "Two", []) :: [("Cy", "Three", ["a@x.com"; "b@x.com"])])
   ∧ w_remove refused_later_world = Success
   ∧ w_db_connect refused_later_world = Success
   ∧ (∀ j, (j < length [("Ann", "One", ["boss@example.com"])])%nat →
        step_healthy refused_later_world j)
   ∧ well_formed_result (w_query refused_later_world 1 "Bob" "Two")
   ∧ write_refused refused_later_world 1 "Bob" "Two" true "[Errno 28] No space left on device")
  ∧ (main refused_later_world (initial ∅)).1
    = Raise (OSError "[Errno 28] No space left on device")
  ∧ log (main refused_later_world (initial ∅)).2
    = [OutSent "ann.one@example.com" ["boss@example.com"] 0 "out/hardware_Ann_One.xlsx"]
  ∧ fs (main refused_later_world (initial ∅)).2 !! "out/hardware_Cy_Three.csv" = None.
Proof.
  assert (H5 : ∀ j, (j < length [("Ann", "One", ["boss@example.com"])])%nat →
                 step_healthy refused_later_world j).
  { intros j Hj. cbn [length] in Hj. assert (j = 0%nat) as -> by lia.
    split; [done|]. split; [|intros g s; apply (asset_table_writable []); by left].
    intros path. reflexivity. }
  assert (H6 : well_formed_result (w_query refused_later_world 1 "Bob" "Two")).
  { apply (asset_table_writable bob_rows). by right. }
  assert (H7 : write_refused refused_later_world 1 "Bob" "Two" true
                 "[Errno 28] No space left on device").
  { right. split; [reflexivity|]. right. left. split; vm_compute; reflexivity. }
  split.
  - split_and!; [reflexivity | exact three_world_employees | reflexivity | reflexivity
                | exact H5 | exact H6 | exact H7].
  - pose proof (write_failure_aborts_run refused_later_world ∅ three_records
                  [("Ann", "One", ["boss@example.com"])]
                  [("Cy", "Three", ["a@x.com"; "b@x.com"])]
                  "Bob" "Two" [] "[Errno 28] No space left on device"
                  eq_refl three_world_employees eq_refl eq_refl H5 H6 H7)
      as (Hres & Hlog & _ & Hfs).
    split; [exact Hres|]. split; [rewrite Hlog; vm_compute; reflexivity|].
    rewrite Hfs; [reflexivity|discriminate| |].
    + intros e He. apply list_elem_of_singleton in He as ->.
      intros [H|H]; vm_compute in H; discriminate H.
    + intros [H|H]; vm_compute in H; discriminate H.
Defined.

(** ** Connections *)

Section connection_facts.

Lemma relay_blocks_nil : relay_blocks 0 [].
Proof. exists []. by split_and!. Qed.

Lemma relay_blocks_app n m a b :
  relay_blocks n a → relay_blocks m b → relay_blocks (n + m) (a ++ b).
Proof.
  intros (ba & -> & Ha & Hna) (bb & -> & Hb & Hnb).
  exists (ba ++ bb). rewrite concat_app, length_app.
  split_and!; [done|by apply Forall_app|lia].
Qed.

Lemma relay_blocks_mono n m seg : (n ≤ m)%nat → relay_blocks n seg → relay_blocks m seg.
Proof. intros Hle (bs & -> & Hb & Hn). exists bs. split_and!; [done|done|lia]. Qed.

Lemma send_events_blocks w i to_email cc_emails m :
  relay_blocks 1 (send_events w i to_email cc_emails m).
Proof.
  unfold send_events. destruct (w_smtp_connect w i).
  - exists [[EvSmtpOpen; EvSmtpEhlo (succeeds (w_smtp_ehlo w i));
             EvSmtpSendmail SENDER_EMAIL (to_email :: cc_emails) m; EvSmtpClose]].
    split_and!; [reflexivity| |cbn; lia].
    constructor; [|constructor]. by eexists _, _, _, _.
  - apply (relay_blocks_mono 0); [lia|apply relay_blocks_nil].
Qed.

Lemma blockwise_silent {A} (m : M A) : (∀ st, trace (m st).2 = trace st) → blockwise 0 m.
Proof.
  intros H st. exists []. rewrite H, app_nil_r. split; [done|apply relay_blocks_nil].
Qed.

Lemma blockwise_bind {A B} n k (m : M A) (f : A → M B) :
  blockwise n m → (∀ a, blockwise k (f a)) → blockwise (n + k) (x ← m; f x).
Proof.
  intros Hm Hf st. unfold mbind, M_bind, bind.
  destruct (Hm st) as (s1 & H1 & Hs1).
  destruct (m st) as [[a|e] st1]; cbn [snd] in *.
  - destruct (Hf a st1) as (s2 & H2 & Hs2). exists (s1 ++ s2).
    rewrite H2, H1, app_assoc. split; [done|by apply relay_blocks_app].
  - exists s1. split; [done|]. apply (relay_blocks_mono n); [lia|done].
Qed.

Lemma blockwise_try_except {A} n k (body : M A) (handler : exn → M A) :
  blockwise n body → (∀ e, blockwise k (handler e)) →
  blockwise (n + k) (try_except body handler).
Proof.
  intros Hb Hh st. unfold try_except.
  destruct (Hb st) as (s1 & H1 & Hs1).
  destruct (body st) as [[a|e] st1]; cbn [snd] in *.
  - exists s1. split; [done|]. apply (relay_blocks_mono n); [lia|done].
  - destruct (Hh e st1) as (s2 & H2 & Hs2). exists (s1 ++ s2).
    rewrite H2, H1, app_assoc. split; [done|by apply relay_blocks_app].
Qed.

Lemma blockwise_ret {A} (a : A) : blockwise 0 (ret a).
Proof. by apply blockwise_silent. Qed.

Lemma blockwise_raise {A} (e : exn) : blockwise 0 (@raise A e).
Proof. by apply blockwise_silent. Qed.

Lemma blockwise_lift {A} (r : result A) : blockwise 0 (lift r).
Proof. by apply blockwise_silent. Qed.

Lemma blockwise_check o : blockwise 0 (check o).
Proof. apply blockwise_silent. intros st. by destruct o. Qed.

Lemma blockwise_print l : blockwise 0 (print l).
Proof. by apply blockwise_silent. Qed.

Lemma blockwise_set_file path f : blockwise 0 (set_file path f).
Proof. by apply blockwise_silent. Qed.

Lemma blockwise_lookup_file path : blockwise 0 (lookup_file path).
Proof. by apply blockwise_silent. Qed.

Lemma blockwise_write_records w i path records :
  blockwise 0 (write_records w i path records).
Proof.
  unfold write_records. apply (blockwise_bind 0 0); [apply blockwise_check|].
  intros _. apply blockwise_set_file.
Qed.

Lemma blockwise_append_records w i path records :
  blockwise 0 (append_records w i path records).
Proof.
  unfold append_records. apply (blockwise_bind 0 0); [apply blockwise_check|]. intros _.
  apply (blockwise_bind 0 0); [apply blockwise_lookup_file|].
  intros [[| |]|]; apply blockwise_set_file.
Qed.

Lemma blockwise_write_employee_csv w i given sur col_names rows :
  blockwise 0 (write_employee_csv w i given sur col_names rows).
Proof.
  unfold write_employee_csv. apply (blockwise_bind 0 0); [apply blockwise_check|]. intros _.
  apply (blockwise_bind 0 0); [apply blockwise_write_records|].
  intros _. apply blockwise_ret.
Qed.

Lemma blockwise_convert_csv_to_xlsx w i csv_path :
  blockwise 0 (convert_csv_to_xlsx w i csv_path).
Proof.
  unfold convert_csv_to_xlsx.
  apply (blockwise_bind 0 0); [apply blockwise_lookup_file|]. intros f.
  apply (blockwise_bind 0 0).
  { destruct f as [[| |]|]; [apply blockwise_ret|apply blockwise_raise..]. }
  intros records. apply (blockwise_bind 0 0); [apply blockwise_lift|]. intros df.
  apply (blockwise_bind 0 0); [apply blockwise_check|]. intros _.
  destruct (to_excel_error df);
    (apply (blockwise_bind 0 0); [apply blockwise_set_file|]); intros _;
    [apply blockwise_raise|apply blockwise_ret].
Qed.

Lemma blockwise_append_to_combined_csv w i col_names rows path first_write :
  blockwise 0 (append_to_combined_csv w i col_names rows path first_write).
Proof.
  unfold append_to_combined_csv.
  destruct rows as [|r rows], first_write;
    (apply (blockwise_bind 0 0); [|intros _; apply blockwise_ret]).
  - apply blockwise_write_records.
  - apply blockwise_ret.
  - apply blockwise_write_records.
  - apply blockwise_append_records.
Qed.

Lemma blockwise_send_email_with_attachment w i to_email subject html_body attachment_path
    cc_emails :
  blockwise 1 (send_email_with_attachment w i to_email subject html_body attachment_path
                 cc_emails).
Proof.
  intros st. destruct (fs st !! attachment_path) as [payload|] eqn:Hfile.
  - rewrite (send_email_with_attachment_spec w i _ _ _ _ _ st payload Hfile).
    eexists. split; [reflexivity|]. apply send_events_blocks.
  - exists []. unfold send_email_with_attachment, mbind, M_bind, bind, lookup_file, raise.
    rewrite Hfile. cbn [snd]. rewrite app_nil_r. split; [done|].
    apply (relay_blocks_mono 0); [lia|apply relay_blocks_nil].
Qed.

Lemma blockwise_process_employee w i e acc : blockwise 1 (process_employee w i e acc).
Proof.
  destruct e as [[given sur] cc_emails], acc as [total first_write].
  unfold process_employee.
  apply (blockwise_bind 0 1); [apply blockwise_lift|]. intros [col_names rows].
  apply (blockwise_bind 0 1); [apply blockwise_write_employee_csv|]. intros csv_path.
  apply (blockwise_bind 0 1); [apply blockwise_convert_csv_to_xlsx|]. intros xlsx_path.
  apply (blockwise_bind 0 1); [apply blockwise_append_to_combined_csv|]. intros written.
  cbv zeta.
  apply (blockwise_bind 1 0); [|intros _; apply blockwise_ret].
  apply (blockwise_try_except 1 0); [|intros mail_ex; apply blockwise_print].
  apply (blockwise_bind 1 0); [apply blockwise_send_email_with_attachment|].
  intros _. apply blockwise_print.
Qed.

Lemma blockwise_process_all w employees :
  ∀ i acc, blockwise (length employees) (process_all w i employees acc).
Proof.
  induction employees as [|e rest IH]; intros i acc; [apply blockwise_ret|].
  cbn [process_all length].
  apply (blockwise_bind 1 (length rest)); [apply blockwise_process_employee|].
  intros acc'. apply IH.
Qed.

(** The loop and the summary under [try: ... finally: conn.close()]. *)
Lemma loop_trace w employees st :
  ∃ seg,
    trace (try_finally
             (acc ← process_all w 0 employees (0%nat, true);
              if (acc.1 =? 0)%nat then print OutNoRows else print (OutSaved acc.1))
             (emit EvDbClose) st).2
    = trace st ++ seg ++ [EvDbClose]
    ∧ relay_blocks (length employees) seg.
Proof.
  unfold try_finally, emit.
  destruct (blockwise_bind (length employees) 0
              (process_all w 0 employees (0%nat, true))
              (λ acc, if (acc.1 =? 0)%nat then print OutNoRows
                      else print (OutSaved acc.1))
              (blockwise_process_all w employees 0%nat (0%nat, true))
              ltac:(intros acc; cbv beta; destruct (acc.1 =? 0)%nat; apply blockwise_print)
              st)
    as (seg & Hseg & Hb).
  rewrite Nat.add_0_r in Hb.
  exists seg. split; [|exact Hb].
  destruct ((acc ← process_all w 0 employees (0%nat, true);
             if (acc.1 =? 0)%nat then print OutNoRows else print (OutSaved acc.1)) st)
    as [r st1]; cbn [snd with_events trace] in *.
  by rewrite Hseg, <- app_assoc.
Qed.

(** The trace of a run, whatever fails: nothing, or the connection to
    the database, then at most one connection to the relay per
    employee, each closed before the next is opened, then the closing
    of the database connection. *)
Lemma main_trace w files :
  trace (main w (initial files)).2 = []
  ∨ ∃ employees seg,
      (∃ records, w_input w = Some records ∧ read_employees records = Ok employees)
      ∧ trace (main w (initial files)).2 = EvDbConnect :: seg ++ [EvDbClose]
      ∧ relay_blocks (length employees) seg.
Proof.
  destruct (w_input w) as [records|] eqn:Hin;
    [|left; unfold main, load_employees; by rewrite Hin].
  destruct (read_employees records) as [employees|ex] eqn:Hread;
    [|left; unfold main, load_employees, lift; by rewrite Hin, Hread].
  destruct employees as [|e rest].
  { left. unfold main.
    by rewrite (bind_ok _ _ (initial files) (initial files) [])
      by (unfold load_employees, lift; by rewrite Hin, Hread). }
  rewrite (main_before_loop w files records (e :: rest) Hin Hread ltac:(done)).
  destruct (loop_trace w (e :: rest)
              (with_events [EvDbConnect] (initial (delete COMBINED_OUTPUT_PATH files))))
    as (seg & Hseg & Hb).
  destruct (files !! COMBINED_OUTPUT_PATH) as [f|], (w_remove w) as [|msg],
    (w_db_connect w) as [|msg']; try (by left);
    right; exists (e :: rest), seg; (split; [by exists records|by split]).
Qed.

End connection_facts.

(** C6, as stated, fails: in a run over three employees the relay is
    connected three times. *)
Lemma relay_is_connected_per_send :
  ¬ connections_acquired_once_as_stated three_world ∅.
Proof.
  unfold connections_acquired_once_as_stated. intros (_ & _ & H & _).
  vm_compute in H. discriminate.
Qed.

(** C6, amended.  Over one whole run, whatever fails, the events are
    none at all, or the connection to the database, then connections to
    the relay, each one opened, used for one greeting and one message
    and closed before the next is opened, at most one per employee,
    then the closing of the database connection: the database
    connection is acquired at most once and, once acquired, is released
    at the end however the run ends, and a connection to the relay is
    released at the end of its send.  The database connection is
    acquired when the input gives a batch that is not empty, the
    combined file of an earlier run, if there is one, can be removed,
    and the database accepts the connection.  When moreover nothing
    refuses a write, the connections to the relay are those of the
    sends of the batch, one for each employee whose connection the
    relay accepts. *)
Theorem connections_are_scoped (w : world) (files : gmap string file) :
  (trace (main w (initial files)).2 = []
   ∨ ∃ blocks,
       trace (main w (initial files)).2 = EvDbConnect :: concat blocks ++ [EvDbClose]
       ∧ Forall (λ b, ∃ ok sender recipients m,
                     b = [EvSmtpOpen; EvSmtpEhlo ok; EvSmtpSendmail sender recipients m;
                          EvSmtpClose]) blocks
       ∧ ∃ records employees,
           w_input w = Some records ∧ read_employees records = Ok employees
           ∧ (length blocks ≤ length employees)%nat)
  ∧ (∀ records employees,
       w_input w = Some records →
       read_employees records = Ok employees →
       employees ≠ [] →
       files !! COMBINED_OUTPUT_PATH = None ∨ w_remove w = Success →
       w_db_connect w = Success →
       ∃ seg, trace (main w (initial files)).2 = EvDbConnect :: seg ++ [EvDbClose])
  ∧ (∀ records employees,
       w_input w = Some records →
       read_employees records = Ok employees →
       employees ≠ [] →
       w_remove w = Success →
       w_db_connect w = Success →
       (∀ j, (j < length employees)%nat → step_healthy w j) →
       trace (main w (initial files)).2
       = EvDbConnect :: batch_events w 0 employees ++ [EvDbClose]
       ∧ length (List.filter (λ i, succeeds (w_smtp_connect w i))
                   (seq 0 (length employees)))
         = count_events is_smtp_open (batch_events w 0 employees)).
Proof.
  split_and!.
  - destruct (main_trace w files)
      as [Hnone|(employees & seg & (records & Hin & Hread) & Htr & blocks & -> & Hb & Hn)];
      [by left|right].
    exists blocks. split_and!; [exact Htr|exact Hb|]. by exists records, employees.
  - intros records employees Hin Hread Hne Hrm Hdb.
    rewrite (main_before_loop w files records employees Hin Hread Hne), Hdb.
    destruct (loop_trace w employees
                (with_events [EvDbConnect] (initial (delete COMBINED_OUTPUT_PATH files))))
      as (seg & Hseg & _).
    exists seg.
    destruct Hrm as [Hnone|Hrm]; [rewrite Hnone|rewrite Hrm];
      [by destruct (w_remove w)|by destruct (files !! COMBINED_OUTPUT_PATH)].
  - intros records employees Hin Hread Hne Hrm Hdb Hh. split.
    + rewrite (main_healthy w files records employees Hin Hread Hne Hrm Hdb Hh).
      cbn [snd with_events with_line trace].
      rewrite (proj1 (proj2 (batch_state_facts w employees 0%nat true _))).
      cbn [with_events trace initial app]. rewrite <- ?app_assoc. reflexivity.
    + clear. generalize 0%nat.
      induction employees as [|e rest IH]; intros i; [done|].
      cbn [length seq List.filter batch_events]. rewrite count_events_app, <- IH.
      unfold send_events. destruct (w_smtp_connect w i); cbn; done.
Qed.

Lemma connections_are_scoped_witness :
  (w_input three_world = Some three_records
   ∧ read_employees three_records = Ok three_employees
   ∧ three_employees ≠ []
   ∧ w_remove three_world = Success
   ∧ w_db_connect three_world = Success
   ∧ (∀ j, (j < length three_employees)%nat → step_healthy three_world j))
  ∧ trace (main three_world (initial ∅)).2
    = EvDbConnect :: batch_events three_world 0 three_employees ++ [EvDbClose]
  ∧ count_events is_smtp_open (batch_events three_world 0 three_employees) = 3%nat.
Proof.
  split.
  - split_and!; [reflexivity | exact three_world_employees | exact three_employees_nonempty
                | reflexivity | reflexivity | intros j _; exact (three_world_healthy j)].
  - destruct (proj2 (proj2 (connections_are_scoped three_world ∅)) three_records
                three_employees eq_refl three_world_employees three_employees_nonempty
                eq_refl eq_refl (λ j _, three_world_healthy j)) as [Htr Hcount].
    split; [exact Htr|]. rewrite <- Hcount. reflexivity.
Defined.

(** * Further properties of the code *)

(** ** Trimming and splitting *)

Section trimming_facts.

Lemma rstrip_idem s : rstrip (rstrip s) = rstrip s.
Proof.
  induction s as [|c r IH]; [done|]. cbn [rstrip].
  destruct (rstrip r) as [|x r'] eqn:Hr.
  - destruct (isspace c) eqn:Hc; [done|]. cbn [rstrip]. by rewrite Hc.
  - cbn [rstrip]. cbn [rstrip] in IH. by rewrite IH.
Qed.

Lemma rstrip_keeps_head c r :
  isspace c = false → ∃ r', rstrip (String c r) = String c r'.
Proof.
  intros Hc. cbn [rstrip]. destruct (rstrip r); [rewrite Hc|]; by eexists.
Qed.

Lemma lstrip_head s :
  lstrip s = EmptyString ∨ ∃ c r, lstrip s = String c r ∧ isspace c = false.
Proof.
  induction s as [|c r IH]; [by left|]. cbn [lstrip].
  destruct (isspace c) eqn:Hc; [exact IH|]. right. by exists c, r.
Qed.

Lemma lstrip_fixed c r : isspace c = false → lstrip (String c r) = String c r.
Proof. intros Hc. cbn [lstrip]. by rewrite Hc. Qed.

Lemma strip_idem s : strip (strip s) = strip s.
Proof.
  unfold strip. destruct (lstrip_head s) as [->|(c & r & -> & Hc)]; [done|].
  destruct (rstrip_keeps_head c r Hc) as [r' Hr]. rewrite Hr.
  rewrite (lstrip_fixed c r' Hc), <- Hr. apply rstrip_idem.
Qed.

Lemma contains_lstrip c s : contains c (lstrip s) = true → contains c s = true.
Proof.
  induction s as [|x r IH]; [done|]. cbn [lstrip].
  destruct (isspace x); [|done]. intros H. cbn [contains].
  destruct (Ascii.eqb x c); [done|]. by apply IH.
Qed.

Lemma contains_rstrip c s : contains c (rstrip s) = true → contains c s = true.
Proof.
  induction s as [|x r IH]; [done|]. cbn [rstrip contains].
  destruct (Ascii.eqb x c) eqn:Hx.
  - done.
  - destruct (rstrip r) as [|y r'] eqn:Hr.
    + destruct (isspace x); cbn [contains]; [done|]. by rewrite Hx.
    + cbn [contains]. rewrite Hx. exact IH.
Qed.

Lemma contains_strip c s : contains c (strip s) = true → contains c s = true.
Proof. intros H. by apply contains_lstrip, contains_rstrip. Qed.

Lemma split_piece_no_sep sep s t : t ∈ split sep s → contains sep t = false.
Proof.
  revert t. induction s as [|x r IH]; intros t Ht.
  - apply list_elem_of_singleton in Ht as ->. done.
  - cbn [split] in Ht. destruct (Ascii.eqb x sep) eqn:Hx.
    + apply elem_of_cons in Ht as [->|Ht]; [done|by apply IH].
    + destruct (split sep r) as [|h l] eqn:Hs.
      * apply list_elem_of_singleton in Ht as ->. cbn [contains]. by rewrite Hx.
      * apply elem_of_cons in Ht as [->|Ht].
        -- cbn [contains]. rewrite Hx. apply IH. by left.
        -- apply IH. by right.
Qed.

Lemma split_piece_sub sep c s t :
  t ∈ split sep s → contains c t = true → contains c s = true.
Proof.
  revert t. induction s as [|x r IH]; intros t Ht Hc.
  - apply list_elem_of_singleton in Ht as ->. done.
  - cbn [split] in Ht. cbn [contains]. destruct (Ascii.eqb x c) eqn:Hxc; [done|].
    destruct (Ascii.eqb x sep) eqn:Hx.
    + apply elem_of_cons in Ht as [->|Ht]; [done|by eapply IH].
    + destruct (split sep r) as [|h l] eqn:Hs.
      * apply list_elem_of_singleton in Ht as ->. cbn [contains] in Hc.
        by rewrite Hxc in Hc.
      * apply elem_of_cons in Ht as [->|Ht].
        -- cbn [contains] in Hc. rewrite Hxc in Hc. apply (IH h); [by left|done].
        -- apply (IH t); [by right|done].
Qed.

(** The tokens before the empty ones are dropped: the trimmed pieces of
    some list of strings, each a part of [raw]. *)
Lemma split_emails_shape raw :
  ∃ pieces,
    _split_emails raw = filter (λ p, truthy p = true) (map strip pieces)
    ∧ (∀ t c, t ∈ pieces → contains c t = true → contains c raw = true)
    ∧ (∀ t, t ∈ pieces → contains ";"%char t = false)
    ∧ (contains ";"%char raw = false → ∀ t, t ∈ pieces → contains ","%char t = false).
Proof.
  unfold _split_emails. destruct raw as [|x raw].
  { exists []. split_and!; [done|..]; intros;
      match goal with H : _ ∈ [] |- _ => by apply not_elem_of_nil in H end. }
  cbn [truthy negb split_on_first]. set (s := String x raw).
  destruct (contains ";"%char s) eqn:Hsemi.
  - exists (split ";"%char s).
    pose proof (split_nonempty ";"%char s).
    destruct (map strip (split ";"%char s)) eqn:Hm;
      [by destruct (split ";"%char s)|].
    split_and!; [done| |by apply split_piece_no_sep|done].
    intros t c. apply split_piece_sub.
  - destruct (contains ","%char s) eqn:Hcomma.
    + exists (split ","%char s).
      pose proof (split_nonempty ","%char s).
      destruct (map strip (split ","%char s)) eqn:Hm;
        [by destruct (split ","%char s)|].
      split_and!; [done| | |].
      * intros t c. apply split_piece_sub.
      * intros t Ht. destruct (contains ";"%char t) eqn:Hc; [|done].
        by rewrite (split_piece_sub _ _ _ _ Ht Hc) in Hsemi.
      * intros _ t. apply split_piece_no_sep.
    + exists [s]. split_and!; [done| | |].
      * intros t c Ht. by apply list_elem_of_singleton in Ht as ->.
      * intros t Ht. by apply list_elem_of_singleton in Ht as ->.
      * intros _ t Ht. by apply list_elem_of_singleton in Ht as ->.
Qed.

End trimming_facts.

(** X1.  Every address [_split_emails] returns is non-empty and has no
    blank at either end: trimming it again changes nothing. *)
Theorem split_emails_tokens_trimmed (raw t : string) :
  t ∈ _split_emails raw → t ≠ EmptyString ∧ strip t = t.
Proof.
  destruct (split_emails_shape raw) as (pieces & -> & _).
  intros Ht. apply list_elem_of_filter in Ht as [Hne Ht].
  split; [by apply truthy_true|].
  change (map strip pieces) with (strip <$> pieces) in Ht.
  apply list_elem_of_fmap in Ht as (p & -> & _). apply strip_idem.
Qed.

Lemma split_emails_tokens_trimmed_witness :
  "b@x.com" ∈ _split_emails " a@x.com ;; b@x.com "
  ∧ "b@x.com" ≠ EmptyString ∧ strip "b@x.com" = "b@x.com".
Proof.
  assert (H : "b@x.com" ∈ _split_emails " a@x.com ;; b@x.com ")
    by (apply (bool_decide_unpack _); vm_compute; exact I).
  split; [exact H|].
  exact (split_emails_tokens_trimmed " a@x.com ;; b@x.com " "b@x.com" H).
Defined.

(** X2.  No address [_split_emails] returns contains a semicolon, and
    one contains a comma only when the raw string held a semicolon: the
    semicolon is tried first, and a raw string that has one is not split
    at its commas. *)
Theorem split_emails_separator_precedence (raw t : string) :
  t ∈ _split_emails raw →
  contains ";"%char t = false
  ∧ (contains ","%char t = true → contains ";"%char raw = true).
Proof.
  destruct (split_emails_shape raw) as (pieces & -> & Hsub & Hsemi & Hcomma).
  intros Ht. apply list_elem_of_filter in Ht as [_ Ht].
  change (map strip pieces) with (strip <$> pieces) in Ht.
  apply list_elem_of_fmap in Ht as (p & -> & Hp). split.
  - destruct (contains ";"%char (strip p)) eqn:Hc; [|done].
    apply contains_strip in Hc. by rewrite (Hsemi p Hp) in Hc.
  - intros Hc. apply contains_strip in Hc.
    destruct (contains ";"%char raw) eqn:Hr; [done|].
    by rewrite (Hcomma eq_refl p Hp) in Hc.
Qed.

Lemma split_emails_separator_precedence_witness :
  "a,b@x.com" ∈ _split_emails "a,b@x.com; c@x.com"
  ∧ contains ";"%char "a,b@x.com" = false.
Proof.
  assert (H : "a,b@x.com" ∈ _split_emails "a,b@x.com; c@x.com")
    by (apply (bool_decide_unpack _); vm_compute; exact I).
  split; [exact H|].
  exact (proj1 (split_emails_separator_precedence "a,b@x.com; c@x.com" "a,b@x.com" H)).
Defined.

(** ** The Cc header read back *)

Section join_facts.

Lemma contains_app c (a b : string) :
  contains c (a ++ b) = contains c a || contains c b.
Proof.
  induction a as [|x a IH]; [done|]. rewrite append_cons. cbn [contains].
  destruct (Ascii.eqb x c); [done|exact IH].
Qed.

Lemma split_without_sep sep a : contains sep a = false → split sep a = [a].
Proof.
  induction a as [|x a IH]; [done|]. cbn [contains split].
  destruct (Ascii.eqb x sep); [done|]. intros H. by rewrite (IH H).
Qed.

Lemma split_at_sep sep (a b : string) :
  contains sep a = false → split sep (a ++ String sep b) = a :: split sep b.
Proof.
  induction a as [|x a IH].
  - intros _. rewrite append_nil_l. cbn [split]. by rewrite Ascii.eqb_refl.
  - cbn [contains]. rewrite append_cons. cbn [split].
    destruct (Ascii.eqb x sep); [done|]. intros H. by rewrite (IH H).
Qed.

Lemma join_cons2 sep x y (l : list string) :
  join sep (x :: y :: l) = (x ++ sep ++ join sep (y :: l))%string.
Proof. done. Qed.

Lemma split_comma_join x (l : list string) :
  Forall (λ t, contains ","%char t = false) (x :: l) →
  split ","%char (join ", " (x :: l)) = x :: map (String " "%char) l.
Proof.
  revert x. induction l as [|y l IH]; intros x Hall.
  - apply Forall_cons in Hall as [Hx _]. by apply split_without_sep.
  - apply Forall_cons in Hall as [Hx Hl]. rewrite join_cons2.
    change (", " ++ join ", " (y :: l))%string
      with (String ","%char (String " "%char (join ", " (y :: l)))).
    rewrite (split_at_sep _ _ _ Hx). cbn [split map].
    change (Ascii.eqb " "%char ","%char) with false. cbv iota.
    by rewrite (IH y Hl).
Qed.

Lemma strip_after_space t : strip (String " "%char t) = strip t.
Proof. done. Qed.

Lemma join_no_char c sep (l : list string) :
  contains c sep = false →
  Forall (λ t, contains c t = false) l →
  contains c (join sep l) = false.
Proof.
  intros Hsep. induction 1 as [|x l Hx Hl IH]; [done|].
  destruct l as [|y l]; [exact Hx|].
  rewrite join_cons2, !contains_app, Hx, Hsep. exact IH.
Qed.

Lemma filter_all {A} (P : A → Prop) `{∀ x, Decision (P x)} (l : list A) :
  Forall P l → filter P l = l.
Proof.
  induction 1 as [|x l Hx _ IH]; [done|].
  rewrite filter_cons, decide_True by done. by rewrite IH.
Qed.

Lemma split_emails_join (cc : list string) :
  Forall clean_address cc → _split_emails (join ", " cc) = cc.
Proof.
  intros Hall. destruct cc as [|x l]; [done|].
  assert (Hsemi : Forall (λ t, contains ";"%char t = false) (x :: l)).
  { eapply Forall_impl; [exact Hall|]. by intros t (_ & _ & ? & _). }
  assert (Hcomma : Forall (λ t, contains ","%char t = false) (x :: l)).
  { eapply Forall_impl; [exact Hall|]. by intros t (_ & _ & _ & ?). }
  assert (Htruthy : Forall (λ p, truthy p = true) (x :: l)).
  { eapply Forall_impl; [exact Hall|]. intros t (? & _). by apply truthy_true. }
  assert (Hstrip : map strip (x :: map (String " "%char) l) = x :: l).
  { apply Forall_cons in Hall as [(_ & Hx & _) Hl]. cbn [map]. rewrite Hx. f_equal.
    clear -Hl. induction Hl as [|y l (_ & Hy & _) _ IH]; [done|].
    cbn [map]. by rewrite strip_after_space, Hy, IH. }
  unfold _split_emails.
  assert (Hraw : truthy (join ", " (x :: l)) = true).
  { apply Forall_cons in Hall as [(Hx & _) _]. destruct x as [|c x]; [done|].
    by destruct l. }
  rewrite Hraw. cbn [negb split_on_first].
  rewrite (join_no_char ";"%char ", " (x :: l) eq_refl Hsemi).
  destruct l as [|y l].
  - apply Forall_cons in Hcomma as [Hx _]. cbn [join]. rewrite Hx.
    apply Forall_cons in Hall as [(_ & Hs & _) _]. rewrite Hs.
    by apply filter_all.
  - assert (Hc : contains ","%char (join ", " (x :: y :: l)) = true).
    { rewrite join_cons2, !contains_app. cbn. by rewrite orb_true_r. }
    rewrite Hc, (split_comma_join x (y :: l) Hcomma), Hstrip.
    by apply filter_all.
Qed.

End join_facts.

(** X3.  The Cc header of a message reads back as the CC list it was
    made from: for addresses that are not empty, carry no blank at
    either end and hold no semicolon or comma, [_split_emails] of their
    join by a comma and a blank is the list itself, and an empty list
    gives no header. *)
Theorem cc_header_round_trip
    (to_email subject html_body attachment_path : string)
    (cc_emails : list string) (payload : file) :
  Forall clean_address cc_emails →
  _split_emails (join ", " cc_emails) = cc_emails
  ∧ match msg_cc (build_message to_email subject html_body attachment_path
                    cc_emails payload) with
    | Some header => _split_emails header = cc_emails
    | None => cc_emails = []
    end.
Proof.
  intros Hall. split; [by apply split_emails_join|].
  unfold build_message. cbn [msg_cc].
  destruct cc_emails as [|x l]; [done|]. by apply split_emails_join.
Qed.

Lemma cc_header_round_trip_witness :
  Forall clean_address ["a@x.com"; "b@x.com"]
  ∧ _split_emails (join ", " ["a@x.com"; "b@x.com"]) = ["a@x.com"; "b@x.com"].
Proof.
  assert (H : Forall clean_address ["a@x.com"; "b@x.com"]).
  { repeat constructor; discriminate. }
  split; [exact H|].
  exact (proj1 (cc_header_round_trip "t@x.com" EMAIL_SUBJECT EmptyString
                  "out/a.xlsx" ["a@x.com"; "b@x.com"] (CsvFile []) H)).
Defined.

(** ** More on the directive loader *)

Section loader_more.

Lemma omap_length_le {A B} (f : A → option B) (l : list A) :
  (length (omap f l) ≤ length l)%nat.
Proof.
  induction l as [|a l IH]; [done|]. cbn [omap list_omap].
  simpl. destruct (f a); simpl; lia.
Qed.

Lemma read_row_valid fieldnames cc_col row e :
  read_row fieldnames cc_col row = Some e → valid_employee e.
Proof.
  unfold read_row.
  set (d := dict_of_row fieldnames row).
  destruct (truthy (strip (get_or_empty d "GivenName"))) eqn:Hg; [|done].
  destruct (truthy (strip (get_or_empty d "Surname"))) eqn:Hs; [|done].
  cbn [negb orb]. intros [= <-]. unfold valid_employee. cbn [fst snd].
  split_and!; [by apply truthy_true | apply strip_idem | by apply truthy_true
              | apply strip_idem |].
  apply Forall_forall. intros t Ht.
  destruct (split_emails_shape (strip (get_or_empty d cc_col))) as (pieces & Heq & _).
  rewrite Heq in Ht. apply list_elem_of_filter in Ht as [Hne Ht].
  split; [by apply truthy_true|].
  change (map strip pieces) with (strip <$> pieces) in Ht.
  apply list_elem_of_fmap in Ht as (p & -> & _). apply strip_idem.
Qed.

Lemma foldl_zip_absent (key : string) :
  ∀ (fns row : list string) (d : gmap string (option string)),
    key ∉ fns →
    foldl (λ d kv, <[kv.1 := Some kv.2]> d) d (zip fns row) !! key = d !! key.
Proof.
  induction fns as [|a fns IH]; intros row d Hk; [done|].
  destruct row as [|r row]; [done|]. cbn [zip zip_with foldl fst snd].
  apply not_elem_of_cons in Hk as [Hne Hk].
  rewrite (IH row _ Hk). by apply lookup_insert_ne.
Qed.

Lemma foldl_zip_at (key : string) :
  ∀ (fns row : list string) (d : gmap string (option string)) (i : nat),
    NoDup fns → fns !! i = Some key →
    foldl (λ d kv, <[kv.1 := Some kv.2]> d) d (zip fns row) !! key
    = match row !! i with Some v => Some (Some v) | None => d !! key end.
Proof.
  induction fns as [|a fns IH]; intros row d i Hnd Hi; [done|].
  apply NoDup_cons in Hnd as [Ha Hnd].
  destruct row as [|r row]; [done|]. cbn [zip zip_with foldl fst snd].
  destruct i as [|i].
  - injection Hi as ->. rewrite (foldl_zip_absent key fns row _ Ha).
    cbn. apply lookup_insert_eq.
  - cbn in Hi. rewrite (IH row _ i Hnd Hi). cbn.
    destruct (row !! i); [done|]. apply lookup_insert_ne.
    intros ->. apply Ha. by eapply list_elem_of_lookup_2.
Qed.

Lemma foldl_none_at (key : string) :
  ∀ (l : list string) (d : gmap string (option string)),
    foldl (λ d x, <[x := None]> d) d l !! key
    = if decide (key ∈ l) then Some None else d !! key.
Proof.
  induction l as [|a l IH]; intros d.
  - cbn. by rewrite decide_False by apply not_elem_of_nil.
  - cbn [foldl]. rewrite IH.
    destruct (decide (key ∈ l)) as [Hin|Hin].
    + by rewrite decide_True by (by right).
    + destruct (decide (a = key)) as [->|Hne].
      * rewrite decide_True by left. apply lookup_insert_eq.
      * rewrite decide_False.
        -- by apply lookup_insert_ne.
        -- intros H. apply elem_of_cons in H as [->|H]; [done|by apply Hin].
Qed.

(** With field names that do not repeat, the dictionary of a row holds
    under a name the cell at the position of the name, and [None] when
    the row is too short. *)
Lemma dict_of_row_at (fns row : list string) (i : nat) (key : string) :
  NoDup fns → fns !! i = Some key →
  dict_of_row fns row !! key = Some (row !! i).
Proof.
  intros Hnd Hi. unfold dict_of_row. rewrite foldl_none_at.
  destruct (decide (key ∈ drop (length row) fns)) as [Hin|Hin].
  - apply list_elem_of_lookup in Hin as [j Hj]. rewrite lookup_drop in Hj.
    pose proof (NoDup_lookup _ _ _ _ Hnd Hi Hj) as ->.
    by rewrite lookup_ge_None_2 by lia.
  - rewrite (foldl_zip_at key fns row ∅ i Hnd Hi).
    destruct (row !! i) as [v|] eqn:Hr; [done|]. exfalso. apply Hin.
    apply lookup_ge_None in Hr. apply list_elem_of_lookup.
    exists (i - length row)%nat. rewrite lookup_drop.
    by replace (length row + (i - length row))%nat with i by lia.
Qed.

Lemma dict_of_row_absent (fns row : list string) (key : string) :
  key ∉ fns → dict_of_row fns row !! key = None.
Proof.
  intros Hk. unfold dict_of_row. rewrite foldl_none_at.
  rewrite decide_False by (intros H; by apply Hk, (subseteq_drop (length row) fns)).
  by rewrite foldl_zip_absent.
Qed.

Lemma omap_none {A B} (f : A → option B) (l : list A) :
  (∀ x, f x = None) → omap f l = [].
Proof.
  intros H. induction l as [|a l IH]; [done|]. simpl. by rewrite H.
Qed.

Lemma read_employees_ok_inv header rows employees :
  read_employees (header :: rows) = Ok employees →
  ∃ cc_col,
    find_cc_col (list_to_set (map strip header)) = Some cc_col
    ∧ employees
      = omap (read_row header cc_col)
          (List.filter (λ r, negb (bool_decide (r = []))) rows).
Proof.
  unfold read_employees. cbn [tail].
  destruct (missing_required _); [|done].
  destruct (find_cc_col _) as [cc_col|]; [|done].
  intros [= <-]. by exists cc_col.
Qed.

End loader_more.

(** X4.  Every employee [read_employees] returns has a given name and a
    surname that are not empty and are trimmed, and CC addresses that
    are not empty and are trimmed; and there are no more employees than
    data records: a record with a blank name is passed over without an
    error. *)
Theorem read_employees_valid (records : list (list string)) (employees : list employee) :
  read_employees records = Ok employees →
  Forall valid_employee employees
  ∧ (length employees ≤ length (tail records))%nat.
Proof.
  intros Hread. destruct records as [|header rows].
  { by vm_compute in Hread. }
  destruct (read_employees_ok_inv header rows employees Hread) as (cc_col & _ & ->).
  split.
  - apply Forall_forall. intros e He.
    apply list_elem_of_omap in He as (row & _ & Hrow).
    by eapply read_row_valid.
  - cbn [tail]. etrans; [apply omap_length_le|]. apply List.filter_length_le.
Qed.

Lemma read_employees_valid_witness :
  read_employees [["Surname"; "GivenName"; "CC"];
                  ["Doe"; " Jane "; " a@x.com ; "];
                  ["Roe"; "  "; "b@x.com"]]
  = Ok [("Jane", "Doe", ["a@x.com"])]
  ∧ Forall valid_employee [("Jane", "Doe", ["a@x.com"])].
Proof.
  assert (H : read_employees [["Surname"; "GivenName"; "CC"];
                              ["Doe"; " Jane "; " a@x.com ; "];
                              ["Roe"; "  "; "b@x.com"]]
              = Ok [("Jane", "Doe", ["a@x.com"])]) by (vm_compute; reflexivity).
  split; [exact H|].
  exact (proj1 (read_employees_valid _ _ H)).
Defined.

(** X5.  The schema check trims the field names but the rows are looked
    up under the exact labels: when the header does not hold the exact
    label Surname, or not the exact label GivenName (it may hold them
    with blanks around), no employee is returned; and when it does not
    hold the chosen CC label exactly, every employee returned has an
    empty CC list. *)
Theorem read_employees_exact_labels
    (header : list string) (rows : list (list string)) (employees : list employee) :
  read_employees (header :: rows) = Ok employees →
  ("Surname" ∉ header ∨ "GivenName" ∉ header → employees = [])
  ∧ (∀ cc_col, find_cc_col (list_to_set (map strip header)) = Some cc_col →
       cc_col ∉ header → Forall (λ e, e.2 = []) employees).
Proof.
  intros Hread.
  destruct (read_employees_ok_inv header rows employees Hread) as (cc_col & Hcc & ->).
  split.
  - intros Habs. apply omap_none. intros row. unfold read_row, get_or_empty.
    destruct Habs as [Habs|Habs]; rewrite (dict_of_row_absent header row _ Habs).
    + by rewrite orb_true_r.
    + done.
  - intros c Hc Habs. rewrite Hcc in Hc. injection Hc as <-.
    apply Forall_forall. intros e He.
    apply list_elem_of_omap in He as (row & _ & Hrow).
    unfold read_row, get_or_empty in Hrow.
    rewrite (dict_of_row_absent header row cc_col Habs) in Hrow.
    destruct (negb _ || negb _); [done|]. by injection Hrow as <-.
Qed.

Lemma read_employees_exact_labels_witness :
  read_employees [["Surname"; "GivenName"; " Email"]; ["Doe"; "Jane"; "a@x.com"]]
  = Ok [("Jane", "Doe", [])]
  ∧ Forall (λ e : employee, e.2 = []) [("Jane", "Doe", [])].
Proof.
  assert (H : read_employees [["Surname"; "GivenName"; " Email"];
                              ["Doe"; "Jane"; "a@x.com"]]
              = Ok [("Jane", "Doe", [])])
    by (vm_compute; reflexivity).
  split; [exact H|].
  refine (proj2 (read_employees_exact_labels _ _ _ H) "Email" _ _).
  - vm_compute. reflexivity.
  - apply (bool_decide_unpack _); vm_compute; exact I.
Defined.

(** X6.  With field names that do not repeat, the order of the columns
    is free: when Surname is the field at position [i], GivenName the
    one at [j] and the chosen CC label the one at [k], the loader
    returns, for each record with a cell, the trimmed cells at [j] and
    [i] and the split of the trimmed cell at [k], a cell missing from a
    short record counting as empty, and passes over the records whose
    given name or surname is blank. *)
Theorem read_employees_by_position
    (header : list string) (rows : list (list string)) (i j k : nat) (cc_col : string) :
  NoDup header →
  header !! i = Some "Surname" →
  header !! j = Some "GivenName" →
  find_cc_col (list_to_set (map strip header)) = Some cc_col →
  header !! k = Some cc_col →
  read_employees (header :: rows)
  = Ok (omap (read_row_at i j k)
          (List.filter (λ r, negb (bool_decide (r = []))) rows)).
Proof.
  intros Hnd Hi Hj Hcc Hk. unfold read_employees. cbn [tail].
  assert (Hmiss : missing_required (list_to_set (map strip header)) = []).
  { unfold missing_required. cbn [List.filter].
    rewrite !bool_decide_eq_true_2; [done| |].
    - apply elem_of_list_to_set. change (map strip header) with (strip <$> header).
      apply list_elem_of_fmap. exists "Surname". split; [done|].
      by eapply list_elem_of_lookup_2.
    - apply elem_of_list_to_set. change (map strip header) with (strip <$> header).
      apply list_elem_of_fmap. exists "GivenName". split; [done|].
      by eapply list_elem_of_lookup_2. }
  rewrite Hmiss, Hcc. f_equal. apply omap_ext_all. intros row.
  unfold read_row, read_row_at, get_or_empty.
  rewrite (dict_of_row_at header row i _ Hnd Hi), (dict_of_row_at header row j _ Hnd Hj),
    (dict_of_row_at header row k _ Hnd Hk).
  by destruct (row !! i), (row !! j), (row !! k).
Qed.

Lemma read_employees_by_position_witness :
  (NoDup ["Email"; "GivenName"; "Dept"; "Surname"]
   ∧ ["Email"; "GivenName"; "Dept"; "Surname"] !! 3%nat = Some "Surname"
   ∧ ["Email"; "GivenName"; "Dept"; "Surname"] !! 1%nat = Some "GivenName"
   ∧ find_cc_col (list_to_set (map strip ["Email"; "GivenName"; "Dept"; "Surname"]))
     = Some "Email"
   ∧ ["Email"; "GivenName"; "Dept"; "Surname"] !! 0%nat = Some "Email")
  ∧ read_employees [["Email"; "GivenName"; "Dept"; "Surname"];
                    ["a@x.com"; "Jane"; "IT"; "Doe"]; ["b@x.com"; "Rick"]]
    = Ok [("Jane", "Doe", ["a@x.com"])].
Proof.
  assert (H1 : NoDup ["Email"; "GivenName"; "Dept"; "Surname"]).
  { apply (bool_decide_unpack _). vm_compute. exact I. }
  assert (H4 : find_cc_col (list_to_set (map strip ["Email"; "GivenName"; "Dept"; "Surname"]))
               = Some "Email") by (vm_compute; reflexivity).
  split; [by split_and!|].
  exact (read_employees_by_position ["Email"; "GivenName"; "Dept"; "Surname"]
           [["a@x.com"; "Jane"; "IT"; "Doe"]; ["b@x.com"; "Rick"]] 3 1 0 "Email"
           H1 eq_refl eq_refl H4 eq_refl).
Defined.

(** ** More on the recipient address *)

Section recipient_more.

Lemma strip_spaces_no_space s : contains " "%char (strip_spaces s) = false.
Proof.
  unfold strip_spaces. induction s as [|c s IH]; [done|].
  cbn [list_ascii_of_string]. rewrite filter_cons.
  destruct (decide (c ≠ " "%char)) as [Hc|Hc]; [|exact IH].
  cbn [string_of_list_ascii contains].
  destruct (Ascii.eqb_spec c " "%char); [done|exact IH].
Qed.

End recipient_more.

(** X7.  A derived address is a local part, the at sign and the domain
    as it was given, and the local part holds no space, whatever the
    names. *)
Theorem recipient_local_part_has_no_space (given sur domain : string) :
  ∃ local_part,
    build_recipient_email given sur domain = (local_part ++ "@" ++ domain)%string
    ∧ contains " "%char local_part = false.
Proof.
  exists (strip_spaces (lower (given ++ "." ++ sur))). split.
  - unfold build_recipient_email. by rewrite replace_space_strip.
  - apply strip_spaces_no_space.
Qed.

(** ** The HTML preview *)

Section html_facts.

Lemma replace_removes old new s :
  contains old new = false → contains old (replace old new s) = false.
Proof.
  intros Hnew. induction s as [|x s IH]; [done|]. cbn [replace].
  destruct (Ascii.eqb x old) eqn:Hx.
  - by rewrite contains_app, Hnew, IH.
  - cbn [contains]. by rewrite Hx.
Qed.

Lemma replace_keeps_absent c old new s :
  contains c new = false → contains c s = false →
  contains c (replace old new s) = false.
Proof.
  intros Hnew. induction s as [|x s IH]; [done|]. cbn [contains replace].
  destruct (Ascii.eqb x c) eqn:Hxc; [done|]. intros Hs.
  destruct (Ascii.eqb x old).
  - by rewrite contains_app, Hnew, IH.
  - cbn [contains]. rewrite Hxc. by apply IH.
Qed.

Lemma replace_absent old new s : contains old s = false → replace old new s = s.
Proof.
  induction s as [|x s IH]; [done|]. cbn [contains replace].
  destruct (Ascii.eqb x old); [done|]. intros H. by rewrite IH.
Qed.

Lemma esc_no_angle x :
  contains "<"%char (esc x) = false ∧ contains ">"%char (esc x) = false.
Proof.
  unfold esc. split.
  - apply replace_keeps_absent; [done|]. by apply replace_removes.
  - by apply replace_removes.
Qed.

Lemma count_char_app c (a b : string) :
  count_char c (a ++ b) = (count_char c a + count_char c b)%nat.
Proof.
  induction a as [|x a IH]; [done|]. rewrite append_cons. cbn [count_char].
  rewrite IH. lia.
Qed.

Lemma count_char_absent c s : contains c s = false → count_char c s = 0%nat.
Proof.
  induction s as [|x s IH]; [done|]. cbn [contains count_char].
  destruct (Ascii.eqb x c); [done|]. exact IH.
Qed.

Lemma count_char_concat_all c (l : list string) :
  count_char c (concat_all l) = sum_list (map (count_char c) l).
Proof.
  unfold concat_all. induction l as [|x l IH]; [done|].
  destruct l as [|y l].
  - cbn. lia.
  - rewrite join_cons2, append_nil_l, count_char_app, IH. done.
Qed.

Lemma sum_list_map_const {A} (f : A → nat) (n : nat) (l : list A) :
  (∀ x, f x = n) → sum_list (map f l) = (n * length l)%nat.
Proof.
  intros H. induction l as [|a l IH]; [cbn; lia|]. cbn. rewrite H, IH. lia.
Qed.

End html_facts.

(** X8.  What [esc] returns holds no angle bracket, whatever the value;
    a value without ampersand and angle brackets is returned as it is,
    and no value as the empty string. *)
Theorem esc_is_safe (x : cell) (s : string) :
  contains "<"%char (esc x) = false
  ∧ contains ">"%char (esc x) = false
  ∧ esc None = EmptyString
  ∧ (contains "&"%char s = false → contains "<"%char s = false →
     contains ">"%char s = false → esc (Some s) = s).
Proof.
  destruct (esc_no_angle x) as [H1 H2]. split_and!; [exact H1|exact H2|done|].
  intros Ha Hl Hg. unfold esc. by rewrite (replace_absent "&"%char _ s Ha),
    (replace_absent "<"%char _ s Hl), (replace_absent ">"%char _ s Hg).
Qed.

Lemma esc_is_safe_witness :
  (contains "&"%char "Latitude 5520" = false
   ∧ contains "<"%char "Latitude 5520" = false
   ∧ contains ">"%char "Latitude 5520" = false)
  ∧ esc (Some "Latitude 5520") = "Latitude 5520".
Proof.
  split; [by split_and!|].
  exact (proj2 (proj2 (proj2 (esc_is_safe None "Latitude 5520")))
           eq_refl eq_refl eq_refl).
Defined.

(** X9.  The values of a table cannot add markup to the preview: the
    number of opening angle brackets in [build_html_table], and the
    number of closing ones, depends on the number of columns and on the
    width of each row only: eight for the frame, two for each header
    cell, two for each row and two for each of its cells. *)
Theorem html_table_markup_is_fixed (col_names : list string) (rows : list row) :
  count_char "<"%char (build_html_table col_names rows)
  = (8 + 2 * length col_names + sum_list (map (λ r, 2 + 2 * length r) rows))%nat
  ∧ count_char ">"%char (build_html_table col_names rows)
    = (8 + 2 * length col_names + sum_list (map (λ r, 2 + 2 * length r) rows))%nat.
Proof.
  assert (Hgen : ∀ c, (c = "<" ∨ c = ">")%char →
            count_char c (build_html_table col_names rows)
            = (8 + 2 * length col_names
               + sum_list (map (λ r, 2 + 2 * length r) rows))%nat).
  { intros c Hc.
    assert (Hesc : ∀ x, count_char c (esc x) = 0%nat).
    { intros x. apply count_char_absent.
      destruct Hc as [->| ->]; apply esc_no_angle. }
    assert (Hcell : ∀ v : cell,
              count_char c (concat_all ["<td style="; dq;
                                        "padding:6px; border:1px solid #ccc;"; dq; ">";
                                        esc v; "</td>"]) = 2%nat).
    { intros v. rewrite count_char_concat_all. cbn [map sum_list]. rewrite Hesc.
      destruct Hc as [->| ->]; reflexivity. }
    assert (Hth : ∀ h : string,
              count_char c (concat_all ["<th style="; dq;
                 "background:#f2f2f2; padding:6px; border:1px solid #ccc; text-align:left;";
                 dq; ">"; esc (Some h); "</th>"]) = 2%nat).
    { intros h. rewrite count_char_concat_all. cbn [map sum_list]. rewrite Hesc.
      destruct Hc as [->| ->]; reflexivity. }
    assert (Hdq : count_char c dq = 0%nat) by (destruct Hc as [->| ->]; reflexivity).
    unfold build_html_table. rewrite count_char_concat_all. cbn [map sum_list].
    rewrite !count_char_concat_all, !map_map.
    rewrite (sum_list_map_const _ 2 col_names) by exact Hth.
    match goal with
    | |- context [sum_list (map ?f rows)] =>
        assert (Hf : ∀ r, f r = (2 + 2 * length r)%nat);
          [|rewrite (map_ext f (λ r, (2 + 2 * length r)%nat) Hf rows)]
    end.
    { intros r. rewrite count_char_concat_all.
      cbn [map sum_list sum_list_with]. rewrite count_char_concat_all, map_map.
      rewrite (sum_list_map_const _ 2 r) by exact Hcell.
      unfold id. destruct Hc as [->| ->]; cbn -[Nat.mul]; lia. }
    unfold id. rewrite !Hdq. destruct Hc as [->| ->]; cbn -[Nat.mul]; lia. }
  split; apply Hgen; [by left|by right].
Qed.

(** ** More on paths *)

Section path_more.

Lemma length_append (a b : string) :
  String.length (a ++ b) = (String.length a + String.length b)%nat.
Proof.
  induction a as [|x a IH]; [done|]. rewrite append_cons. cbn [String.length].
  by rewrite IH.
Qed.

Lemma rfind_absent c s : contains c s = false → rfind c s = None.
Proof.
  induction s as [|x s IH]; [done|]. cbn [contains rfind].
  destruct (Ascii.eqb x c); [done|]. intros H. by rewrite (IH H).
Qed.

Lemma rfind_app c (a b : string) :
  rfind c (a ++ b)
  = match rfind c b with
    | Some i => Some (String.length a + i)%nat
    | None => rfind c a
    end.
Proof.
  induction a as [|x a IH]; [rewrite append_nil_l; by destruct (rfind c b)|].
  rewrite append_cons. cbn [rfind String.length]. rewrite IH.
  by destruct (rfind c b).
Qed.

Lemma substring_skip (a s : string) (k m : nat) :
  substring (String.length a + k) m (a ++ s) = substring k m s.
Proof.
  induction a as [|x a IH]; [done|]. rewrite append_cons. exact IH.
Qed.

Lemma substring_prefix (a b : string) : substring 0 (String.length a) (a ++ b) = a.
Proof.
  induction a as [|x a IH]; [rewrite append_nil_l; by destruct b|].
  rewrite append_cons. cbn [String.length substring]. by rewrite IH.
Qed.

Lemma substring_all (s : string) : substring 0 (String.length s) s = s.
Proof. induction s as [|x s IH]; [done|]. cbn [String.length substring]. by rewrite IH. Qed.

(** [os.path.splitext] and [os.path.basename] on a path whose last
    component has one extension and does not start with a dot. *)
Lemma splitext_root_plain (dir ext r : string) (c : ascii) :
  c ≠ "."%char →
  contains "/"%char (String c r) = false →
  contains "/"%char ext = false →
  contains "."%char ext = false →
  splitext_root (dir ++ "/" ++ String c r ++ "." ++ ext)
  = (dir ++ "/" ++ String c r)%string.
Proof.
  intros Hc Hname Hext Hdot. unfold splitext_root.
  set (name := String c r) in *.
  assert (Hsl : rfind "/"%char (dir ++ "/" ++ name ++ "." ++ ext)
                = Some (String.length dir)).
  { rewrite rfind_app.
    change ("/" ++ name ++ "." ++ ext)%string
      with (String "/"%char (name ++ "." ++ ext)).
    cbn [rfind]. rewrite rfind_absent.
    - cbn. f_equal. lia.
    - rewrite contains_app, Hname. cbn. exact Hext. }
  assert (Hpt : rfind "."%char (dir ++ "/" ++ name ++ "." ++ ext)
                = Some (String.length (dir ++ "/" ++ name))).
  { rewrite <- !append_assoc, rfind_app, (rfind_absent _ _ Hdot), rfind_app.
    cbn. f_equal. rewrite !length_append. cbn [String.length]. lia. }
  rewrite Hsl, Hpt.
  assert (Hlen : String.length (dir ++ "/" ++ name)
                 = (String.length dir + 1 + S (String.length r))%nat).
  { unfold name. rewrite !length_append. cbn [String.length]. lia. }
  assert (Hle : (S (String.length dir) <=? String.length (dir ++ "/" ++ name))%nat = true)
    by (apply Nat.leb_le; lia).
  assert (Hsub : substring (S (String.length dir))
                   (String.length (dir ++ "/" ++ name) - S (String.length dir))
                   (dir ++ "/" ++ name ++ "." ++ ext)
                 = String c (substring 0 (String.length r) (r ++ "." ++ ext))).
  { replace (String.length (dir ++ "/" ++ name) - S (String.length dir))%nat
      with (S (String.length r)) by lia.
    replace (S (String.length dir)) with (String.length dir + 1)%nat by lia.
    by rewrite substring_skip. }
  rewrite Hle, Hsub. cbn [list_ascii_of_string forallb].
  replace (Ascii.eqb "."%char c) with false
    by (symmetry; apply Ascii.eqb_neq; congruence).
  cbn [andb negb].
  replace (dir ++ "/" ++ name ++ "." ++ ext)%string
    with ((dir ++ "/" ++ name) ++ "." ++ ext)%string by (by rewrite !append_assoc).
  apply substring_prefix.
Qed.

Lemma basename_plain (dir name : string) :
  contains "/"%char name = false → basename (dir ++ "/" ++ name) = name.
Proof.
  intros Hname. unfold basename. rewrite rfind_app.
  change ("/" ++ name)%string with (String "/"%char name).
  cbn [rfind]. rewrite (rfind_absent _ _ Hname). cbn [Ascii.eqb Bool.eqb].
  rewrite !length_append. cbn [String.length].
  replace (S (String.length dir + 0)) with (String.length dir + 1)%nat by lia.
  rewrite substring_skip. cbn [substring].
  replace (String.length dir + S (String.length name) - (String.length dir + 1))%nat
    with (String.length name) by lia.
  apply substring_all.
Qed.

End path_more.

(** X10.  For names without a slash, the workbook of an employee is
    [out/hardware_<name>.xlsx], where the name is the given name, an
    underscore and the surname with every space turned into an
    underscore; the attachment is named by the last component,
    [hardware_<name>.xlsx]; and the name holds no space. *)
Theorem attachment_path_of_employee (given sur : string) :
  contains "/"%char given = false →
  contains "/"%char sur = false →
  csv_path_of given sur = ("out/hardware_" ++ safe_name given sur ++ ".csv")%string
  ∧ xlsx_path_of (csv_path_of given sur)
    = ("out/hardware_" ++ safe_name given sur ++ ".xlsx")%string
  ∧ basename (xlsx_path_of (csv_path_of given sur))
    = ("hardware_" ++ safe_name given sur ++ ".xlsx")%string
  ∧ contains " "%char (safe_name given sur) = false.
Proof.
  intros Hg Hs.
  assert (Hsafe : contains "/"%char (safe_name given sur) = false).
  { unfold safe_name. apply replace_keeps_absent; [done|].
    by rewrite !contains_app, Hg, Hs. }
  assert (Hroot : splitext_root (csv_path_of given sur)
                  = ("out" ++ "/" ++ "hardware_" ++ safe_name given sur)%string).
  { change (csv_path_of given sur)
      with ("out" ++ "/" ++ String "h"%char ("ardware_" ++ safe_name given sur)
              ++ "." ++ "csv")%string.
    rewrite splitext_root_plain; [done|done| |done|done].
    change (String "h" ("ardware_" ++ safe_name given sur))
      with ("hardware_" ++ safe_name given sur)%string.
    by rewrite contains_app, Hsafe. }
  split_and!.
  - done.
  - unfold xlsx_path_of. rewrite Hroot. by rewrite !append_assoc.
  - unfold xlsx_path_of. rewrite Hroot.
    rewrite (append_assoc "out" _ ".xlsx"), (append_assoc "/" _ ".xlsx").
    rewrite basename_plain; [by rewrite append_assoc|].
    by rewrite !contains_app, Hsafe.
  - unfold safe_name. by apply replace_removes.
Qed.

Lemma attachment_path_of_employee_witness :
  (contains "/"%char "Jane Ann" = false ∧ contains "/"%char "Doe" = false)
  ∧ basename (xlsx_path_of (csv_path_of "Jane Ann" "Doe")) = "hardware_Jane_Ann_Doe.xlsx".
Proof.
  split; [split; reflexivity|].
  exact (proj1 (proj2 (proj2 (attachment_path_of_employee "Jane Ann" "Doe"
                                eq_refl eq_refl)))).
Defined.

(** ** Column widths *)

Section width_facts.

Lemma max_len_loop_max (values : list (option string)) :
  ∀ m, max_len_loop m values
       = Nat.max m (max_list (map (λ v, match v with
                                        | Some s => String.length s
                                        | None => 0%nat
                                        end) values)).
Proof.
  induction values as [|v rest IH]; intros m; cbn [max_len_loop map].
  - unfold max_list. cbn [foldr]. lia.
  - rewrite IH.
    match goal with
    | |- context [max_list (?x :: ?l)] =>
        change (max_list (x :: l)) with (Nat.max x (max_list l))
    end.
    destruct (Nat.ltb_spec m (match v with
                              | Some s => String.length s
                              | None => 0%nat
                              end)); lia.
Qed.

End width_facts.

(** X11.  The width given to a column is the longest of the label and
    the cell texts, plus two, capped at eighty: it is never above
    eighty, and a label or a cell of up to seventy-eight characters fits
    with two to spare. *)
Theorem column_width_fits (col : string) (values : list (option string)) :
  column_width col values
  = Nat.min (Nat.max (String.length col)
               (max_list (map (λ v, match v with
                                    | Some s => String.length s
                                    | None => 0%nat
                                    end) values)) + 2) 80
  ∧ (column_width col values ≤ 80)%nat
  ∧ (Nat.min (String.length col + 2) 80 ≤ column_width col values)%nat
  ∧ ∀ s, Some s ∈ values →
      (Nat.min (String.length s + 2) 80 ≤ column_width col values)%nat.
Proof.
  unfold column_width. rewrite max_len_loop_max. split_and!; [done|lia|lia|].
  intros s Hs.
  assert (String.length s
          ≤ max_list (map (λ v, match v with
                                | Some s => String.length s
                                | None => 0%nat
                                end) values))%nat; [|lia].
  apply max_list_elem_of_le.
  change (map ?f values) with (f <$> values). apply list_elem_of_fmap.
  by exists (Some s).
Qed.

Lemma column_width_fits_witness :
  Some "Latitude 5520" ∈ [Some "Latitude 5520"; None; Some "XPS"]
  ∧ (Nat.min (String.length "Latitude 5520" + 2) 80
     ≤ column_width "Model" [Some "Latitude 5520"; None; Some "XPS"])%nat.
Proof.
  assert (H : Some "Latitude 5520" ∈ [Some "Latitude 5520"; None; Some "XPS"])
    by (by left).
  split; [exact H|].
  exact (proj2 (proj2 (proj2 (column_width_fits "Model"
                                [Some "Latitude 5520"; None; Some "XPS"])))
           "Latitude 5520" H).
Defined.

(** ** More on the materializer *)

(** X12.  How [append_to_combined_csv] opens the file.  Without rows
    and not on the first write it opens nothing and returns zero,
    whatever the file system would answer.  On the first write it
    truncates: the file then holds the header and the rows, whatever it
    held.  Otherwise it appends: the file holds the records it held,
    followed by the rows, and no header is added, so that a file that
    was not there is created without one.  When the file is opened and
    the open is refused, the error is raised and nothing is changed. *)
Theorem combined_append_modes (w : world) (i : nat) (col_names : list string)
    (rows : list row) (path : string) (st : state) :
  append_to_combined_csv w i col_names [] path false st = (Ok 0%nat, st)
  ∧ (w_open w i path = Success →
     append_to_combined_csv w i col_names rows path true st
     = (Ok (length rows),
        with_file path (CsvFile (col_names :: map row_text rows)) st))
  ∧ (w_open w i path = Success → rows ≠ [] →
     ∀ existing, fs st !! path = Some (CsvFile existing) →
       append_to_combined_csv w i col_names rows path false st
       = (Ok (length rows),
          with_file path (CsvFile (existing ++ map row_text rows)) st))
  ∧ (w_open w i path = Success → rows ≠ [] → fs st !! path = None →
     append_to_combined_csv w i col_names rows path false st
     = (Ok (length rows), with_file path (CsvFile (map row_text rows)) st))
  ∧ (∀ msg first_write, w_open w i path = Failure msg →
       first_write = true ∨ rows ≠ [] →
       append_to_combined_csv w i col_names rows path first_write st
       = (Raise (OSError msg), st)).
Proof.
  split_and!.
  - done.
  - intros Hopen. unfold append_to_combined_csv, mbind, M_bind, bind, ret.
    destruct rows; by rewrite (write_records_ok _ _ _ _ _ Hopen).
  - intros Hopen Hne existing Hfile.
    unfold append_to_combined_csv, mbind, M_bind, bind, ret.
    destruct rows as [|r rows]; [done|].
    by rewrite (append_records_ok _ _ _ _ _ Hopen), Hfile.
  - intros Hopen Hne Hnone. unfold append_to_combined_csv, mbind, M_bind, bind, ret.
    destruct rows as [|r rows]; [done|].
    by rewrite (append_records_ok _ _ _ _ _ Hopen), Hnone.
  - intros msg first_write Hopen Hcase.
    unfold append_to_combined_csv, mbind, M_bind, bind, ret.
    destruct rows as [|r rows], first_write;
      try (by rewrite (write_records_refused _ _ _ _ _ _ Hopen)).
    + by destruct Hcase.
    + unfold append_records, check, raise, mbind, M_bind, bind. by rewrite Hopen.
Qed.

Lemma combined_append_modes_witness :
  (w_open quiet_world 0 "hardwareOutput.csv" = Success
   ∧ [[Some "Dell"; None]] ≠ @nil row
   ∧ fs (initial {[ "hardwareOutput.csv" := CsvFile [["Maker"; "Note"]; ["LG"; "4K"]] ]})
       !! "hardwareOutput.csv"
     = Some (CsvFile [["Maker"; "Note"]; ["LG"; "4K"]]))
  ∧ append_to_combined_csv quiet_world 0 ["Maker"; "Note"] [[Some "Dell"; None]]
      "hardwareOutput.csv" false
      (initial {[ "hardwareOutput.csv" := CsvFile [["Maker"; "Note"]; ["LG"; "4K"]] ]})
    = (Ok 1%nat,
       with_file "hardwareOutput.csv"
         (CsvFile [["Maker"; "Note"]; ["LG"; "4K"]; ["Dell"; EmptyString]])
         (initial {[ "hardwareOutput.csv" := CsvFile [["Maker"; "Note"]; ["LG"; "4K"]] ]})).
Proof.
  assert (H2 : [[Some "Dell"; None]] ≠ @nil row) by discriminate.
  assert (H3 : fs (initial {[ "hardwareOutput.csv"
                              := CsvFile [["Maker"; "Note"]; ["LG"; "4K"]] ]})
                 !! "hardwareOutput.csv"
               = Some (CsvFile [["Maker"; "Note"]; ["LG"; "4K"]]))
    by (vm_compute; reflexivity).
  split; [by split_and!|].
  exact (proj1 (proj2 (proj2 (combined_append_modes quiet_world 0 ["Maker"; "Note"]
                                [[Some "Dell"; None]] "hardwareOutput.csv" _)))
           eq_refl H2 _ H3).
Defined.

(** X13.  [convert_csv_to_xlsx] writes at most the workbook path: every
    other file, the log and the trace are as before, whatever happens;
    so the table file of an employee is still there, unchanged, after
    its conversion.  A table file that is not there raises
    FileNotFoundError, and one without a header line raises
    EmptyDataError; in both cases nothing is written. *)
Theorem convert_touches_only_workbook (w : world) (i : nat) (csv_path : string)
    (st : state) :
  (∀ path, path ≠ xlsx_path_of csv_path →
     fs (convert_csv_to_xlsx w i csv_path st).2 !! path = fs st !! path)
  ∧ log (convert_csv_to_xlsx w i csv_path st).2 = log st
  ∧ trace (convert_csv_to_xlsx w i csv_path st).2 = trace st
  ∧ (∀ given sur, csv_path = csv_path_of given sur →
       fs (convert_csv_to_xlsx w i csv_path st).2 !! csv_path = fs st !! csv_path)
  ∧ (fs st !! csv_path = None →
     convert_csv_to_xlsx w i csv_path st = (Raise (FileNotFoundError csv_path), st))
  ∧ (∀ records, fs st !! csv_path = Some (CsvFile records) →
       Forall (λ r, r = []) records →
       convert_csv_to_xlsx w i csv_path st = (Raise EmptyDataError, st)).
Proof.
  assert (Hframe : (∀ path, path ≠ xlsx_path_of csv_path →
                      fs (convert_csv_to_xlsx w i csv_path st).2 !! path = fs st !! path)
                   ∧ log (convert_csv_to_xlsx w i csv_path st).2 = log st
                   ∧ trace (convert_csv_to_xlsx w i csv_path st).2 = trace st).
  { unfold convert_csv_to_xlsx, mbind, M_bind, bind, lookup_file, lift, check, ret, raise,
      set_file.
    destruct (fs st !! csv_path) as [[records|wb|df0]|]; [|done..].
    destruct (pd_read_csv records) as [df|e]; [|done].
    destruct (w_open w i (xlsx_path_of csv_path)); [|done].
    destruct (to_excel_error df);
      (split_and!; [|done|done]); intros path Hne; cbn [snd];
      by apply lookup_with_file_ne. }
  destruct Hframe as (Hfs & Hlog & Htr).
  split_and!; [exact Hfs|exact Hlog|exact Htr| | |].
  - intros given sur ->. apply Hfs. intros H. symmetry in H.
    by apply xlsx_path_not_csv in H.
  - intros Hnone. unfold convert_csv_to_xlsx, mbind, M_bind, bind, lookup_file, raise.
    by rewrite Hnone.
  - intros records Hfile Hblank.
    unfold convert_csv_to_xlsx, mbind, M_bind, bind, lookup_file, lift, ret.
    rewrite Hfile.
    assert (Hread : pd_read_csv records = Raise EmptyDataError).
    { unfold pd_read_csv.
      assert (Hf : List.filter (λ r, negb (blank_line r)) records = []).
      { clear -Hblank. induction Hblank as [|r l -> _ IH]; [done|]. exact IH. }
      by rewrite Hf. }
    by rewrite Hread.
Qed.

Lemma convert_touches_only_workbook_witness :
  fs (initial ∅) !! "out/hardware_Jane_Doe.csv" = None
  ∧ convert_csv_to_xlsx quiet_world 0 "out/hardware_Jane_Doe.csv" (initial ∅)
    = (Raise (FileNotFoundError "out/hardware_Jane_Doe.csv"), initial ∅).
Proof.
  split; [reflexivity|].
  exact (proj1 (proj2 (proj2 (proj2 (proj2
           (convert_touches_only_workbook quiet_world 0 "out/hardware_Jane_Doe.csv"
              (initial ∅)))))) eq_refl).
Defined.

(** X14.  Converting a table file whose header is not a blank line,
    whose records all have one cell per label, that holds no character
    a workbook refuses and is not too large, gives a workbook named
    Hardware with one header cell per label and one row for each record
    that is not a blank line, each row as wide as the header; with two
    labels or more no record is a blank line, and there is one row per
    record. *)
Theorem convert_keeps_shape (w : world) (i : nat) (csv_path : string)
    (header : list string) (data : list (list string)) (st : state) :
  fs st !! csv_path = Some (CsvFile (header :: data)) →
  blank_line header = false →
  Forall (λ r, length r = length header) data →
  Forall (λ c, has_illegal c = false) header →
  Forall (Forall (λ t, has_illegal t = false)) data →
  (Z.of_nat (length data) ≤ 2 ^ 20)%Z →
  (Z.of_nat (length header) ≤ 2 ^ 14)%Z →
  w_open w i (xlsx_path_of csv_path) = Success →
  ∃ wb,
    convert_csv_to_xlsx w i csv_path st
    = (Ok (xlsx_path_of csv_path), with_file (xlsx_path_of csv_path) (XlsxFile wb) st)
    ∧ wb_sheet wb = "Hardware"
    ∧ length (wb_header wb) = length header
    ∧ length (wb_rows wb) = length (List.filter (λ r, negb (blank_line r)) data)
    ∧ Forall (λ cells, length cells = length header) (wb_rows wb)
    ∧ ((2 ≤ length header)%nat → length (wb_rows wb) = length data).
Proof.
  intros Hfile Hblank Hrect Hlabels Hcells Hnrows Hncols Hopen.
  set (kept := List.filter (λ r, negb (blank_line r)) data).
  assert (Hkept : ∀ r, r ∈ kept → r ∈ data).
  { intros r Hr. apply list_elem_of_In, List.filter_In in Hr as [Hr _].
    by apply list_elem_of_In. }
  assert (Hrectb : forallb (λ r, (length r =? length header)%nat) kept = true).
  { apply forallb_forall. intros r Hr. apply Nat.eqb_eq.
    rewrite Forall_forall in Hrect. by apply Hrect, Hkept, list_elem_of_In. }
  assert (Hdf : pd_read_csv (header :: data)
                = Ok {| df_columns := if clean_header header then map XStr header
                                      else map XInferred header;
                        df_rows := map (imap (infer_cell kept)) kept |}).
  { unfold pd_read_csv. cbn [List.filter]. rewrite Hblank. cbn [negb].
    fold kept. by rewrite Hrectb. }
  destruct (pd_read_csv_header header data Hblank)
    as (df & Hdf' & Hcolumns & Hlen & Hvalues & _).
  rewrite Hdf in Hdf'. injection Hdf' as <-. cbn [df_columns df_rows] in *.
  assert (Hsafe : to_excel_error
                    {| df_columns := if clean_header header then map XStr header
                                     else map XInferred header;
                       df_rows := map (imap (infer_cell kept)) kept |} = None).
  { apply to_excel_error_none; cbn [df_columns df_rows].
    - lia.
    - destruct (clean_header header); rewrite length_map; lia.
    - destruct (clean_header header); apply Forall_forall; intros v Hv;
        change (map ?f header) with (f <$> header) in Hv;
        apply list_elem_of_fmap in Hv as (c & -> & Hc);
        rewrite Forall_forall in Hlabels; cbn; by rewrite (Hlabels c Hc).
    - apply Forall_forall. intros r Hr. apply Forall_forall. intros v Hv.
      destruct (Hvalues r v Hr Hv) as [[z ->]|(t & row & Hrow & Ht & Hcase)]; [done|].
      rewrite Forall_forall in Hcells. specialize (Hcells row Hrow).
      rewrite Forall_forall in Hcells. specialize (Hcells t Ht).
      destruct Hcase as [-> | ->]; cbn; by rewrite Hcells. }
  rewrite (convert_csv_to_xlsx_ok w i csv_path _ _ st Hfile Hdf Hsafe Hopen).
  eexists. split; [reflexivity|].
  unfold to_excel. cbn [wb_sheet wb_header wb_rows df_columns df_rows].
  split_and!.
  - done.
  - destruct (clean_header header); by rewrite length_map.
  - by rewrite !length_map.
  - apply Forall_forall. intros cells Hc.
    change (map ?f (map ?g kept)) with (f <$> (g <$> kept)) in Hc.
    apply list_elem_of_fmap in Hc as (r1 & -> & Hr1).
    apply list_elem_of_fmap in Hr1 as (r0 & -> & Hr0).
    rewrite length_map, length_imap.
    rewrite Forall_forall in Hrect. by apply Hrect, Hkept.
  - intros Htwo. rewrite !length_map. unfold kept. f_equal.
    apply filter_not_blank. eapply Forall_impl; [exact Hrect|].
    intros r Hr. cbn beta in Hr. destruct r as [|t [|t' r]]; [|cbn in Hr; lia|done].
    cbn in Hr. lia.
Qed.

Lemma convert_keeps_shape_witness :
  (fs (with_file "out/t.csv" (CsvFile [["A"]; ["x"]; [" "]; ["1"]]) (initial ∅)) !! "out/t.csv"
   = Some (CsvFile [["A"]; ["x"]; [" "]; ["1"]])
   ∧ blank_line ["A"] = false
   ∧ Forall (λ r, length r = length ["A"]) [["x"]; [" "]; ["1"]]
   ∧ Forall (λ c, has_illegal c = false) ["A"]
   ∧ Forall (Forall (λ t, has_illegal t = false)) [["x"]; [" "]; ["1"]]
   ∧ (Z.of_nat (length [["x"]; [" "]; ["1"]]) ≤ 2 ^ 20)%Z
   ∧ (Z.of_nat (length ["A"]) ≤ 2 ^ 14)%Z
   ∧ w_open quiet_world 0 (xlsx_path_of "out/t.csv") = Success)
  ∧ ∃ wb : workbook,
      convert_csv_to_xlsx quiet_world 0 "out/t.csv"
        (with_file "out/t.csv" (CsvFile [["A"]; ["x"]; [" "]; ["1"]]) (initial ∅))
      = (Ok "out/t.xlsx",
         with_file "out/t.xlsx" (XlsxFile wb)
           (with_file "out/t.csv" (CsvFile [["A"]; ["x"]; [" "]; ["1"]]) (initial ∅)))
      ∧ length (wb_rows wb) = 2%nat.
Proof.
  assert (H1 : fs (with_file "out/t.csv" (CsvFile [["A"]; ["x"]; [" "]; ["1"]]) (initial ∅))
                 !! "out/t.csv" = Some (CsvFile [["A"]; ["x"]; [" "]; ["1"]]))
    by (vm_compute; reflexivity).
  assert (H3 : Forall (λ r, length r = length ["A"]) [["x"]; [" "]; ["1"]])
    by (by repeat constructor).
  assert (H4 : Forall (λ c, has_illegal c = false) ["A"]) by (by repeat constructor).
  assert (H5 : Forall (Forall (λ t, has_illegal t = false)) [["x"]; [" "]; ["1"]])
    by (by repeat constructor).
  assert (H6 : (Z.of_nat (length [["x"]; [" "]; ["1"]]) ≤ 2 ^ 20)%Z) by (cbn; lia).
  assert (H7 : (Z.of_nat (length ["A"]) ≤ 2 ^ 14)%Z) by (cbn; lia).
  split; [by split_and!|].
  destruct (convert_keeps_shape quiet_world 0 "out/t.csv" ["A"] [["x"]; [" "]; ["1"]]
              _ H1 eq_refl H3 H4 H5 H6 H7 eq_refl) as (wb & Hrun & _ & _ & Hrows & _).
  exists wb. split; [exact Hrun|exact Hrows].
Defined.

(** X15.  A send writes no file and prints nothing: the files and the
    log are as before, whatever the relay answers; and when the
    attachment is not there it raises FileNotFoundError before any
    connection to the relay is made. *)
Theorem send_leaves_files_alone (w : world) (i : nat)
    (to_email subject html_body attachment_path : string)
    (cc_emails : list string) (st : state) :
  fs (send_email_with_attachment w i to_email subject html_body attachment_path
        cc_emails st).2 = fs st
  ∧ log (send_email_with_attachment w i to_email subject html_body attachment_path
           cc_emails st).2 = log st
  ∧ (fs st !! attachment_path = None →
     send_email_with_attachment w i to_email subject html_body attachment_path
       cc_emails st
     = (Raise (FileNotFoundError attachment_path), st)).
Proof.
  assert (Hnone : fs st !! attachment_path = None →
            send_email_with_attachment w i to_email subject html_body attachment_path
              cc_emails st
            = (Raise (FileNotFoundError attachment_path), st)).
  { intros H. unfold send_email_with_attachment, mbind, M_bind, bind, lookup_file, raise.
    by rewrite H. }
  destruct (fs st !! attachment_path) as [payload|] eqn:Hfile.
  - rewrite (send_email_with_attachment_spec w i _ _ _ _ _ st payload Hfile).
    by split_and!.
  - rewrite (Hnone eq_refl). by split_and!.
Qed.

Lemma send_leaves_files_alone_witness :
  fs (initial ∅) !! "out/missing.xlsx" = None
  ∧ send_email_with_attachment quiet_world 0 "jane.doe@example.com" EMAIL_SUBJECT
      EmptyString "out/missing.xlsx" [] (initial ∅)
    = (Raise (FileNotFoundError "out/missing.xlsx"), initial ∅).
Proof.
  split; [reflexivity|].
  exact (proj2 (proj2 (send_leaves_files_alone quiet_world 0 "jane.doe@example.com"
                         EMAIL_SUBJECT EmptyString "out/missing.xlsx" [] (initial ∅)))
           eq_refl).
Defined.

(** ** What the steps leave as they are *)

#[local] Instance same_log_preorder : PreOrder same_log.
Proof.
  split; [done|]. intros x y z H1 H2. unfold same_log in *. congruence.
Qed.

#[local] Instance same_outside_preorder (allowed : string → Prop) :
  PreOrder (same_outside allowed).
Proof.
  split; [done|]. intros x y z H1 H2 path Hp. unfold same_outside in *.
  by rewrite H2, H1.
Qed.

Section returned_paths.

Lemma write_employee_csv_returns w i given sur col_names rows st csv_path :
  (write_employee_csv w i given sur col_names rows st).1 = Ok csv_path →
  csv_path = csv_path_of given sur.
Proof.
  unfold write_employee_csv, write_records, set_file, mbind, M_bind, bind.
  destruct (w_makedirs w i); [|done].
  destruct (w_open w i (csv_path_of given sur)); [|done].
  cbn. congruence.
Qed.

Lemma convert_csv_to_xlsx_returns w i csv_path st xlsx_path :
  (convert_csv_to_xlsx w i csv_path st).1 = Ok xlsx_path →
  xlsx_path = xlsx_path_of csv_path.
Proof.
  unfold convert_csv_to_xlsx, mbind, M_bind, bind, lookup_file, lift, set_file.
  destruct (fs st !! csv_path) as [[records|wb|df0]|]; [|done..].
  cbn. destruct (pd_read_csv records) as [df|e]; [|done].
  destruct (w_open w i (xlsx_path_of csv_path)); [|done].
  cbn. destruct (to_excel_error df); cbn; [done|congruence].
Qed.

End returned_paths.

Section frame_facts.

Context (R : relation state) `{!PreOrder R}.

Lemma preserves_ret {A} (a : A) : preserves R (ret a).
Proof. intros st. reflexivity. Qed.

Lemma preserves_raise {A} (e : exn) : preserves R (@raise A e).
Proof. intros st. reflexivity. Qed.

Lemma preserves_lift {A} (r : result A) : preserves R (lift r).
Proof. intros st. reflexivity. Qed.

Lemma preserves_check (o : outcome) : preserves R (check o).
Proof. destruct o; [apply preserves_ret|apply preserves_raise]. Qed.

Lemma preserves_smtp_failure (o : outcome) : preserves R (smtp_failure o).
Proof. destruct o; [apply preserves_ret|apply preserves_raise]. Qed.

Lemma preserves_lookup_file (path : string) : preserves R (lookup_file path).
Proof. intros st. reflexivity. Qed.

Lemma preserves_bind {A B} (m : M A) (k : A → M B) :
  preserves R m → (∀ a, preserves R (k a)) → preserves R (m ≫= k).
Proof.
  intros Hm Hk st. unfold mbind, M_bind, bind. specialize (Hm st).
  destruct (m st) as [[a|e] st1]; cbn [snd] in *; [|done].
  etrans; [exact Hm|apply Hk].
Qed.

Lemma preserves_bind_val {A B} (m : M A) (k : A → M B) (P : A → Prop) :
  preserves R m → (∀ st a, (m st).1 = Ok a → P a) →
  (∀ a, P a → preserves R (k a)) → preserves R (m ≫= k).
Proof.
  intros Hm HP Hk st. unfold mbind, M_bind, bind.
  specialize (Hm st). specialize (HP st).
  destruct (m st) as [[a|e] st1]; cbn [fst snd] in *; [|done].
  etrans; [exact Hm|]. by apply Hk, HP.
Qed.

Lemma preserves_try_except {A} (body : M A) (handler : exn → M A) :
  preserves R body → (∀ e, preserves R (handler e)) →
  preserves R (try_except body handler).
Proof.
  intros Hb Hh st. unfold try_except. specialize (Hb st).
  destruct (body st) as [[a|e] st1]; cbn [snd] in *; [done|].
  etrans; [exact Hb|apply Hh].
Qed.

Lemma preserves_try_finally {A} (body : M A) (fin : M unit) :
  preserves R body → preserves R fin → preserves R (try_finally body fin).
Proof.
  intros Hb Hf st. unfold try_finally. specialize (Hb st).
  destruct (body st) as [r st1]. specialize (Hf st1).
  destruct (fin st1) as [[[]|e] st2]; cbn [snd] in *; by etrans.
Qed.

(** The steps that write files and talk to the relay, for a relation
    that events do not break, nor writes to the [allowed] paths. *)
Context (allowed : string → Prop).
Hypothesis R_events : ∀ es st, R st (with_events es st).
Hypothesis R_file : ∀ path f st, allowed path → R st (with_file path f st).

Lemma preserves_emit (e : event) : preserves R (emit e).
Proof. intros st. apply R_events. Qed.

Lemma preserves_set_file (path : string) (f : file) :
  allowed path → preserves R (set_file path f).
Proof. intros H st. by apply R_file. Qed.

Lemma preserves_write_records w i path records :
  allowed path → preserves R (write_records w i path records).
Proof.
  intros H. apply preserves_bind; [apply preserves_check|].
  intros _. by apply preserves_set_file.
Qed.

Lemma preserves_append_records w i path records :
  allowed path → preserves R (append_records w i path records).
Proof.
  intros H. apply preserves_bind; [apply preserves_check|]. intros _.
  apply preserves_bind; [apply preserves_lookup_file|].
  intros [[existing|wb|df]|]; by apply preserves_set_file.
Qed.

Lemma preserves_write_employee_csv w i given sur col_names rows :
  allowed (csv_path_of given sur) →
  preserves R (write_employee_csv w i given sur col_names rows).
Proof.
  intros H. apply preserves_bind; [apply preserves_check|]. intros _.
  apply preserves_bind; [by apply preserves_write_records|].
  intros _. apply preserves_ret.
Qed.

Lemma preserves_convert_csv_to_xlsx w i csv_path :
  allowed (xlsx_path_of csv_path) →
  preserves R (convert_csv_to_xlsx w i csv_path).
Proof.
  intros H. apply preserves_bind; [apply preserves_lookup_file|]. intros f.
  apply preserves_bind.
  { destruct f as [[records|wb|df]|]; [apply preserves_ret|apply preserves_raise..]. }
  intros records. apply preserves_bind; [apply preserves_lift|]. intros df.
  apply preserves_bind; [apply preserves_check|]. intros _.
  destruct (to_excel_error df);
    (apply preserves_bind; [by apply preserves_set_file|]); intros _;
    [apply preserves_raise|apply preserves_ret].
Qed.

Lemma preserves_append_to_combined_csv w i col_names rows path first_write :
  allowed path →
  preserves R (append_to_combined_csv w i col_names rows path first_write).
Proof.
  intros H. unfold append_to_combined_csv.
  destruct rows as [|r rows], first_write;
    (apply preserves_bind; [|intros _; apply preserves_ret]).
  - by apply preserves_write_records.
  - apply preserves_ret.
  - by apply preserves_write_records.
  - by apply preserves_append_records.
Qed.

Lemma preserves_send_email_with_attachment w i to_email subject html_body
    attachment_path cc_emails :
  preserves R (send_email_with_attachment w i to_email subject html_body
                 attachment_path cc_emails).
Proof.
  apply preserves_bind; [apply preserves_lookup_file|]. intros f.
  apply preserves_bind.
  { destruct f; [apply preserves_ret|apply preserves_raise]. }
  intros payload. cbv zeta. unfold with_smtp.
  apply preserves_bind; [apply preserves_smtp_failure|]. intros _.
  apply preserves_bind; [apply preserves_emit|]. intros _.
  apply preserves_try_finally.
  - apply preserves_bind.
    { apply preserves_try_except; [|intros _; apply preserves_ret].
      apply preserves_bind; [apply preserves_emit|].
      intros _. apply preserves_smtp_failure. }
    intros _. apply preserves_bind; [apply preserves_emit|].
    intros _. destruct (still_connected w i);
      [apply preserves_smtp_failure|apply preserves_raise].
  - apply preserves_bind; [apply preserves_emit|].
    intros _. destruct (still_connected w i);
      [apply preserves_smtp_failure|apply preserves_ret].
Qed.

(** The loop, for a relation that printing does not break either. *)
Hypothesis R_line : ∀ l st, R st (with_line l st).

Lemma preserves_print (l : out_line) : preserves R (print l).
Proof. intros st. apply R_line. Qed.

Lemma preserves_process_employee w i e acc :
  allowed (csv_path_of e.1.1 e.1.2) →
  allowed (xlsx_path_of (csv_path_of e.1.1 e.1.2)) →
  allowed COMBINED_OUTPUT_PATH →
  preserves R (process_employee w i e acc).
Proof.
  destruct e as [[given sur] cc_emails], acc as [total first_write].
  cbn [fst snd]. intros Hcsv Hxlsx Hcomb. unfold process_employee.
  apply preserves_bind; [apply preserves_lift|]. intros [col_names rows].
  apply (preserves_bind_val _ _ (λ p, p = csv_path_of given sur)).
  { apply preserves_write_employee_csv, Hcsv. }
  { intros st p. apply write_employee_csv_returns. }
  intros csv_path ->.
  apply preserves_bind; [by apply preserves_convert_csv_to_xlsx|]. intros xlsx_path.
  apply preserves_bind; [by apply preserves_append_to_combined_csv|]. intros written.
  cbv zeta.
  apply preserves_bind; [|intros _; apply preserves_ret].
  apply preserves_try_except; [|intros mail_ex; apply preserves_print].
  apply preserves_bind; [apply preserves_send_email_with_attachment|].
  intros _. apply preserves_print.
Qed.

Lemma preserves_process_all w employees :
  (∀ e, e ∈ employees →
     allowed (csv_path_of e.1.1 e.1.2)
     ∧ allowed (xlsx_path_of (csv_path_of e.1.1 e.1.2))) →
  allowed COMBINED_OUTPUT_PATH →
  ∀ i acc, preserves R (process_all w i employees acc).
Proof.
  intros Hall Hcomb. induction employees as [|e rest IH]; intros i acc.
  - apply preserves_ret.
  - cbn [process_all]. apply preserves_bind.
    + destruct (Hall e ltac:(by left)). by apply preserves_process_employee.
    + intros acc'. apply IH. intros e' He'. apply Hall. by right.
Qed.

End frame_facts.

Section frame_instances.

Lemma same_log_events es st : same_log st (with_events es st).
Proof. done. Qed.

Lemma same_log_file path f st : True → same_log st (with_file path f st).
Proof. done. Qed.

Lemma same_outside_events allowed es st : same_outside allowed st (with_events es st).
Proof. done. Qed.

Lemma same_outside_line allowed l st : same_outside allowed st (with_line l st).
Proof. done. Qed.

Lemma same_outside_file (allowed : string → Prop) path f st :
  allowed path → same_outside allowed st (with_file path f st).
Proof.
  intros H p Hp. apply lookup_with_file_ne. by intros ->.
Qed.

Lemma same_outside_remove (allowed : string → Prop) path st :
  allowed path → same_outside allowed st (without_file path st).
Proof.
  intros H p Hp. unfold without_file. cbn [fs]. apply lookup_delete_ne. by intros ->.
Qed.

End frame_instances.

(** X16.  A run writes and removes nothing but its own outputs,
    whatever fails: a file that is neither the combined file nor the
    table file or workbook of an employee of the input is, at the end,
    as it was. *)
Theorem main_touches_only_outputs (w : world) (files : gmap string file)
    (path : string) :
  ¬ run_output w path →
  fs (main w (initial files)).2 !! path = files !! path.
Proof.
  intros Hpath.
  assert (Hmain : preserves (same_outside (run_output w)) (main w)).
  { intros st. unfold main.
    destruct (load_employees w st) as [[employees|ex] st0] eqn:Hload.
    - assert (Hread : ∃ records, w_input w = Some records
                                 ∧ read_employees records = Ok employees ∧ st0 = st).
      { unfold load_employees, raise, lift in Hload.
        destruct (w_input w) as [records|]; [|done].
        exists records. by injection Hload as -> ->. }
      destruct Hread as (records & Hin & Hread & ->).
      rewrite (bind_ok _ _ _ _ _ Hload).
      destruct employees as [|e rest]; [apply same_outside_line|].
      assert (Hcomb : run_output w COMBINED_OUTPUT_PATH) by by left.
      revert st Hload. 
      assert (H : preserves (same_outside (run_output w))
                (present ← lookup_file COMBINED_OUTPUT_PATH;
                 (match present with
                  | Some _ => check (w_remove w);; remove_file COMBINED_OUTPUT_PATH
                  | None => ret tt
                  end);;
                 db_connect w;;
                 try_finally
                   (acc ← process_all w 0 (e :: rest) (0%nat, true);
                    if (acc.1 =? 0)%nat then print OutNoRows else print (OutSaved acc.1))
                   (emit EvDbClose))); [|intros st _; apply H].
      apply (preserves_bind (same_outside (run_output w))); [apply (preserves_lookup_file (same_outside (run_output w)))|]. intros present.
      apply (preserves_bind (same_outside (run_output w))).
      { destruct present; [|apply (preserves_ret (same_outside (run_output w)))].
        apply (preserves_bind (same_outside (run_output w))); [apply (preserves_check (same_outside (run_output w)))|].
        intros _ st. by apply same_outside_remove. }
      intros _. apply (preserves_bind (same_outside (run_output w))).
      { unfold db_connect. destruct (w_db_connect w); [|apply (preserves_raise (same_outside (run_output w)))].
        intros st. apply same_outside_events. }
      intros _. apply (preserves_try_finally (same_outside (run_output w))); [|intros st; apply same_outside_events].
      apply (preserves_bind (same_outside (run_output w))).
      + apply (preserves_process_all (same_outside (run_output w)) (run_output w)).
        * apply same_outside_events.
        * apply same_outside_file.
        * apply same_outside_line.
        * intros e' He'. split; right; exists records, (e :: rest), e';
            (split_and!; [done|done|done|]); [by left|by right].
        * exact Hcomb.
      + intros acc. destruct (acc.1 =? 0)%nat; intros st; apply same_outside_line.
    - rewrite (bind_raise _ _ _ _ _ Hload). cbn [snd].
      unfold load_employees, raise, lift in Hload.
      destruct (w_input w); injection Hload as _ <-; done. }
  exact (Hmain (initial files) path Hpath).
Qed.

Lemma main_touches_only_outputs_witness :
  ¬ run_output three_world "out/notes.txt"
  ∧ fs (main three_world (initial {[ "out/notes.txt" := CsvFile [["keep"]] ]})).2
      !! "out/notes.txt"
    = Some (CsvFile [["keep"]]).
Proof.
  assert (H : ¬ run_output three_world "out/notes.txt").
  { intros [H|(records & employees & e & Hin & Hread & He & Hout)]; [discriminate|].
    injection Hin as <-. rewrite three_world_employees in Hread.
    injection Hread as <-.
    unfold three_employees in He.
    repeat (apply elem_of_cons in He as [->|He]; [destruct Hout; discriminate|]).
    by apply not_elem_of_nil in He. }
  split; [exact H|].
  exact (main_touches_only_outputs three_world _ "out/notes.txt" H).
Defined.

(** ** The lines of a run, in every world *)

Section line_facts.

Lemma process_employee_lines w i e acc st :
  match (process_employee w i e acc st).1 with
  | Ok _ => ∃ l, log (process_employee w i e acc st).2 = log st ++ [l]
                 ∧ mentions (address_of e) l
  | Raise _ => log (process_employee w i e acc st).2 = log st
  end.
Proof.
  destruct e as [[given sur] cc_emails], acc as [total first_write].
  unfold address_of. cbn [fst snd]. unfold process_employee, mbind, M_bind, bind, lift.
  destruct (w_query w i given sur) as [[col_names rows]|ex]; [|done].
  pose proof (preserves_write_employee_csv same_log (λ _, True) same_log_file
                w i given sur col_names rows I st) as H1.
  destruct (write_employee_csv w i given sur col_names rows st) as [[csv_path|ex] st1];
    cbn [fst snd] in *; [|exact H1].
  pose proof (preserves_convert_csv_to_xlsx same_log (λ _, True) same_log_file
                w i csv_path I st1) as H2.
  destruct (convert_csv_to_xlsx w i csv_path st1) as [[xlsx_path|ex] st2];
    cbn [fst snd] in *; [|by rewrite H2].
  pose proof (preserves_append_to_combined_csv same_log (λ _, True) same_log_file
                w i col_names rows COMBINED_OUTPUT_PATH first_write I st2) as H3.
  destruct (append_to_combined_csv w i col_names rows COMBINED_OUTPUT_PATH first_write st2)
    as [[written|ex] st3]; cbn [fst snd] in *; [|by rewrite H3, H2].
  unfold try_except.
  pose proof (preserves_send_email_with_attachment same_log same_log_events w i
                (build_recipient_email given sur RECIPIENT_DOMAIN) EMAIL_SUBJECT
                (body_html_of given sur col_names rows) xlsx_path cc_emails st3) as H4.
  destruct (send_email_with_attachment w i
              (build_recipient_email given sur RECIPIENT_DOMAIN) EMAIL_SUBJECT
              (body_html_of given sur col_names rows) xlsx_path cc_emails st3)
    as [[[]|ex] st4]; cbn [fst snd print ret with_line log] in *;
    eexists; (split; [by rewrite H4, H3, H2, H1|done]).
Qed.

Lemma process_all_lines w employees :
  ∀ i acc st, ∃ lines,
    (length lines ≤ length employees)%nat
    ∧ Forall2 (λ e l, mentions (address_of e) l) (take (length lines) employees) lines
    ∧ log (process_all w i employees acc st).2 = log st ++ lines
    ∧ (∀ acc', (process_all w i employees acc st).1 = Ok acc' →
         length lines = length employees).
Proof.
  induction employees as [|e rest IH]; intros i acc st.
  - exists []. cbn [process_all ret snd length take].
    split_and!; [lia|constructor|by rewrite app_nil_r|done].
  - cbn [process_all]. unfold mbind, M_bind, bind.
    pose proof (process_employee_lines w i e acc st) as Hs.
    destruct (process_employee w i e acc st) as [[acc1|ex] st1]; cbn [fst snd] in Hs.
    + destruct Hs as (l & Hlog & Hm).
      destruct (IH (S i) acc1 st1) as (lines & Hlen & Hall & Hlog' & Hok).
      exists (l :: lines). cbn [length take].
      split_and!; [lia|by constructor|by rewrite Hlog', Hlog, <- app_assoc|].
      intros acc' H. f_equal. by eapply Hok.
    + exists []. cbn [length take snd fst].
      split_and!; [lia|constructor|by rewrite app_nil_r|done].
Qed.

End line_facts.

(** X17.  In every world, the loop body prints exactly one line when it
    returns, about the employee it was run for, and no line when it
    raises; a line that reports a send names the CC addresses of the
    employee and the path of the workbook. *)
Theorem one_line_per_processed_employee (w : world) (i : nat) (e : employee)
    (acc : nat * bool) (st : state) :
  match (process_employee w i e acc st).1 with
  | Ok _ => ∃ l, log (process_employee w i e acc st).2 = log st ++ [l]
                 ∧ mentions (address_of e) l
                 ∧ match l with
                   | OutSent _ cc_emails _ xlsx_path =>
                       cc_emails = e.2
                       ∧ xlsx_path = xlsx_path_of (csv_path_of e.1.1 e.1.2)
                   | _ => True
                   end
  | Raise _ => log (process_employee w i e acc st).2 = log st
  end.
Proof.
  pose proof (process_employee_lines w i e acc st) as H.
  destruct (process_employee w i e acc st) as [[acc'|ex] st'] eqn:Hrun;
    cbn [fst snd] in *; [|exact H].
  destruct H as (l & Hlog & Hm). exists l. split; [exact Hlog|]. split; [exact Hm|].
  destruct l as [|t c n x| | |]; try exact I.
  destruct e as [[given sur] cc_emails], acc as [total first_write].
  cbn [fst snd]. revert Hrun Hlog.
  unfold process_employee, mbind, M_bind, bind, lift.
  destruct (w_query w i given sur) as [[col_names rows]|ex]; [|done].
  pose proof (write_employee_csv_returns w i given sur col_names rows st) as Hp.
  destruct (write_employee_csv w i given sur col_names rows st) as [[csv_path|ex] st1];
    [|done].
  rewrite (Hp csv_path eq_refl).
  pose proof (convert_csv_to_xlsx_returns w i (csv_path_of given sur) st1) as Hx.
  destruct (convert_csv_to_xlsx w i (csv_path_of given sur) st1)
    as [[xlsx_path|ex] st2]; [|done].
  rewrite (Hx xlsx_path eq_refl).
  destruct (append_to_combined_csv w i col_names rows COMBINED_OUTPUT_PATH first_write st2)
    as [[written|ex] st3]; [|done].
  unfold try_except.
  pose proof (preserves_send_email_with_attachment same_log same_log_events w i
                (build_recipient_email given sur RECIPIENT_DOMAIN) EMAIL_SUBJECT
                (body_html_of given sur col_names rows)
                (xlsx_path_of (csv_path_of given sur)) cc_emails st3) as H4.
  destruct (send_email_with_attachment w i
              (build_recipient_email given sur RECIPIENT_DOMAIN) EMAIL_SUBJECT
              (body_html_of given sur col_names rows)
              (xlsx_path_of (csv_path_of given sur)) cc_emails st3)
    as [[[]|ex] st4]; cbn [fst snd print ret with_line log] in *;
    intros Hrun Hlog; injection Hrun as _ <-; cbn [log] in Hlog;
    apply app_inj_tail in Hlog as [_ Hl]; [by injection Hl as <- <- <- <-|discriminate].
Qed.

(** X18.  In every world, a run over a batch that is not empty prints
    one line per employee, in batch order, for the employees it got
    through, and nothing else before them: when it returns it got
    through all of them and the summary line follows; when it raises,
    the lines are those of a leading part of the batch. *)
Theorem run_prints_one_line_per_employee (w : world) (files : gmap string file)
    (records : list (list string)) (employees : list employee) :
  w_input w = Some records →
  read_employees records = Ok employees →
  employees ≠ [] →
  ∃ lines,
    (length lines ≤ length employees)%nat
    ∧ Forall2 (λ e l, mentions (address_of e) l) (take (length lines) employees) lines
    ∧ match (main w (initial files)).1 with
      | Ok _ => length lines = length employees
                ∧ ∃ summary, log (main w (initial files)).2 = lines ++ [summary]
                             ∧ is_summary summary
      | Raise _ => log (main w (initial files)).2 = lines
      end.
Proof.
  intros Hin Hread Hne.
  assert (Hloop : ∀ st0, log st0 = [] →
            ∃ lines,
              (length lines ≤ length employees)%nat
              ∧ Forall2 (λ e l, mentions (address_of e) l)
                  (take (length lines) employees) lines
              ∧ match (try_finally
                         (acc ← process_all w 0 employees (0%nat, true);
                          if (acc.1 =? 0)%nat then print OutNoRows
                          else print (OutSaved acc.1))
                         (emit EvDbClose) st0).1 with
                | Ok _ => length lines = length employees
                          ∧ ∃ summary,
                              log (try_finally
                                     (acc ← process_all w 0 employees (0%nat, true);
                                      if (acc.1 =? 0)%nat then print OutNoRows
                                      else print (OutSaved acc.1))
                                     (emit EvDbClose) st0).2 = lines ++ [summary]
                              ∧ is_summary summary
                | Raise _ =>
                    log (try_finally
                           (acc ← process_all w 0 employees (0%nat, true);
                            if (acc.1 =? 0)%nat then print OutNoRows
                            else print (OutSaved acc.1))
                           (emit EvDbClose) st0).2 = lines
                end).
  { intros st0 Hlog0.
    destruct (process_all_lines w employees 0%nat (0%nat, true) st0)
      as (lines & Hlen & Hall & Hlog & Hok).
    exists lines. split; [exact Hlen|]. split; [exact Hall|].
    unfold try_finally, mbind, M_bind, bind, emit.
    destruct (process_all w 0 employees (0%nat, true) st0) as [[acc|ex] st1];
      cbn [fst snd] in *.
    - rewrite Hlog0 in Hlog. cbn [app] in Hlog.
      destruct (Nat.eqb_spec acc.1 0) as [Hz|Hz]; cbn [print fst snd with_events log with_line];
        (split; [by eapply Hok|]); eexists; (split; [by rewrite Hlog|]).
      + by left.
      + right. by exists acc.1.
    - cbn [with_events log]. by rewrite Hlog, Hlog0. }
  rewrite (main_before_loop w files records employees Hin Hread Hne).
  destruct (files !! COMBINED_OUTPUT_PATH) as [f|], (w_remove w) as [|msg],
    (w_db_connect w) as [|msg'];
    first [by apply Hloop
          |exists []; cbn [length take fst snd log initial];
           split_and!; [lia|apply Forall2_nil_2|done]].
Qed.

Lemma run_prints_one_line_per_employee_witness :
  (w_input query_fails_world = Some three_records
   ∧ read_employees three_records = Ok three_employees
   ∧ three_employees ≠ [])
  ∧ ∃ lines, (length lines ≤ 3)%nat
             ∧ log (main query_fails_world (initial ∅)).2 = lines.
Proof.
  split; [split_and!; [reflexivity|exact three_world_employees
                      |exact three_employees_nonempty]|].
  destruct (run_prints_one_line_per_employee query_fails_world ∅ three_records
              three_employees eq_refl three_world_employees three_employees_nonempty)
    as (lines & Hlen & _ & Hlog).
  exists lines. split; [exact Hlen|].
  assert (Hres : (main query_fails_world (initial ∅)).1
                 = Raise (DatabaseError "Invalid object name"))
    by (vm_compute; reflexivity).
  rewrite Hres in Hlog. exact Hlog.
Defined.

(** ** Runs that stop early *)

(** X19.  A run stops before it has touched anything when the input
    cannot be read, when its header is refused, or when it holds no
    valid employee: the error of the loader is the error of the run,
    and a run without employees returns after one line; in all three
    cases the files are as they were, the combined file of an earlier
    run included, and neither the database nor the relay is
    contacted. *)
Theorem main_stops_before_any_effect (w : world) (files : gmap string file) :
  (w_input w = None →
   main w (initial files)
   = (Raise (FileNotFoundError INPUT_EMPLOYEES_CSV), initial files))
  ∧ (∀ records ex, w_input w = Some records → read_employees records = Raise ex →
       main w (initial files) = (Raise ex, initial files))
  ∧ (∀ records, w_input w = Some records → read_employees records = Ok [] →
       main w (initial files) = (Ok tt, with_line OutNoEmployees (initial files))).
Proof.
  split_and!.
  - intros Hin. unfold main, load_employees. rewrite Hin. done.
  - intros records ex Hin Hread. unfold main, load_employees, lift.
    rewrite Hin, Hread. done.
  - intros records Hin Hread. unfold main.
    by rewrite (bind_ok _ _ (initial files) (initial files) [])
      by (unfold load_employees, lift; by rewrite Hin, Hread).
Qed.

Lemma main_stops_before_any_effect_witness :
  (w_input header_only_world = Some [["Surname"; "GivenName"; "Email"]]
   ∧ read_employees [["Surname"; "GivenName"; "Email"]] = Ok [])
  ∧ main header_only_world (initial stale_files)
    = (Ok tt, with_line OutNoEmployees (initial stale_files)).
Proof.
  split; [by split|].
  exact (proj2 (proj2 (main_stops_before_any_effect header_only_world stale_files))
           [["Surname"; "GivenName"; "Email"]] eq_refl eq_refl).
Defined.

(** X20.  With employees to process, a combined file of an earlier run
    that cannot be removed ends the run with that error before the
    database is contacted, and the file stays; a database that refuses
    the connection ends the run with its error after the old combined
    file has been removed: no file is written, nothing is printed, and
    no connection is recorded as opened or closed. *)
Theorem main_fails_before_the_loop (w : world) (files : gmap string file)
    (records : list (list string)) (employees : list employee) :
  w_input w = Some records →
  read_employees records = Ok employees →
  employees ≠ [] →
  (∀ msg, is_Some (files !! COMBINED_OUTPUT_PATH) → w_remove w = Failure msg →
     main w (initial files) = (Raise (OSError msg), initial files))
  ∧ (∀ msg, files !! COMBINED_OUTPUT_PATH = None ∨ w_remove w = Success →
       w_db_connect w = Failure msg →
       main w (initial files)
       = (Raise (DatabaseError msg), initial (delete COMBINED_OUTPUT_PATH files))).
Proof.
  intros Hin Hread Hne.
  rewrite (main_before_loop w files records employees Hin Hread Hne). split.
  - intros msg [f Hf] Hrm. by rewrite Hf, Hrm.
  - intros msg Hcase Hdb. rewrite Hdb.
    destruct (files !! COMBINED_OUTPUT_PATH) as [f|]; [|done].
    destruct Hcase as [|Hrm]; [done|]. by rewrite Hrm.
Qed.

Lemma main_fails_before_the_loop_witness :
  (w_input db_down_world = Some three_records
   ∧ read_employees three_records = Ok three_employees
   ∧ three_employees ≠ []
   ∧ w_remove db_down_world = Success
   ∧ w_db_connect db_down_world = Failure "Login timeout expired")
  ∧ main db_down_world (initial stale_files)
    = (Raise (DatabaseError "Login timeout expired"),
       initial (delete COMBINED_OUTPUT_PATH stale_files)).
Proof.
  split; [split_and!; [reflexivity|exact three_world_employees
                      |exact three_employees_nonempty|reflexivity|reflexivity]|].
  exact (proj2 (main_fails_before_the_loop db_down_world stale_files three_records
                  three_employees eq_refl three_world_employees
                  three_employees_nonempty)
           "Login timeout expired" (or_intror eq_refl) eq_refl).
Defined.

Section query_facts.

Lemma process_employee_query_raises w i given sur cc_emails acc st ex :
  w_query w i given sur = Raise ex →
  process_employee w i (given, sur, cc_emails) acc st = (Raise ex, st).
Proof.
  intros Hq. destruct acc as [total first_write]. unfold process_employee.
  by rewrite (bind_raise _ _ st st ex) by (unfold lift; by rewrite Hq).
Qed.

End query_facts.

(** X21.  A query that fails ends the run with its error: the employees
    before the failing one have their line, their send and their files,
    nothing is written, printed or sent for the failing employee or for
    those after it, no summary is printed, and the database connection
    is closed. *)
Theorem query_failure_aborts_run (w : world) (files : gmap string file)
    (records : list (list string)) (before after : list employee)
    (given sur : string) (cc_emails : list string) (ex : exn) :
  w_input w = Some records →
  read_employees records = Ok (before ++ (given, sur, cc_emails) :: after) →
  w_remove w = Success →
  w_db_connect w = Success →
  (∀ j, (j < length before)%nat → step_healthy w j) →
  w_query w (length before) given sur = Raise ex →
  (main w (initial files)).1 = Raise ex
  ∧ log (main w (initial files)).2 = notify_lines w 0 before
  ∧ trace (main w (initial files)).2
    = EvDbConnect :: batch_events w 0 before ++ [EvDbClose]
  ∧ (∀ e, e ∈ before →
       is_Some (fs (main w (initial files)).2 !! csv_path_of e.1.1 e.1.2)
       ∧ is_Some (fs (main w (initial files)).2 !! xlsx_path_of (csv_path_of e.1.1 e.1.2)))
  ∧ (∀ path, path ≠ COMBINED_OUTPUT_PATH →
       (∀ e, e ∈ before → ¬ employee_output e path) →
       fs (main w (initial files)).2 !! path = files !! path).
Proof.
  intros Hin Hread Hrm Hdb Hh Hq.
  rewrite (main_connected w files records _ Hin Hread ltac:(by destruct before) Hrm Hdb).
  set (st0 := with_events [EvDbConnect] (initial (delete COMBINED_OUTPUT_PATH files))).
  pose proof (process_all_healthy w before 0%nat 0%nat true st0
                ltac:(intros j Hj; apply Hh; lia)) as Hrun.
  destruct (batch_state_facts w before 0%nat true st0)
    as (Hlog & Htr & _ & Hfiles & Hother).
  pose proof (process_employee_query_raises w (length before) given sur cc_emails
                ((0 + length (all_rows w 0 before))%nat,
                 match all_rows w 0 before with [] => true | _ :: _ => false end)
                (batch_state w 0 before true st0) ex Hq) as Hstep.
  pose proof (process_all_raises w before (given, sur, cc_emails) after ex
                0%nat (0%nat, true) st0 _ _ _ Hrun Hstep) as Hall.
  unfold try_finally. rewrite (bind_raise _ _ _ _ _ Hall).
  unfold emit. cbn [fst snd with_events log trace fs].
  split_and!.
  - done.
  - by rewrite Hlog.
  - rewrite Htr. unfold st0. cbn [with_events trace initial app].
    rewrite <- ?app_assoc. reflexivity.
  - exact Hfiles.
  - intros path Hcomb Hbefore. rewrite (Hother path Hcomb Hbefore).
    unfold st0. cbn [with_events fs initial]. by apply lookup_delete_ne.
Qed.

Lemma query_failure_aborts_run_witness :
  (w_input query_fails_world = Some three_records
   ∧ read_employees three_records
     = Ok ([("Ann", "One", ["boss@example.com"])]
           ++ ("Bob", "Two", []) :: [("Cy", "Three", ["a@x.com"; "b@x.com"])])
   ∧ w_remove query_fails_world = Success
   ∧ w_db_connect query_fails_world = Success
   ∧ (∀ j, (j < length [("Ann", "One", ["boss@example.com"])])%nat →
        step_healthy query_fails_world j)
   ∧ w_query query_fails_world (length [("Ann", "One", ["boss@example.com"])])
       "Bob" "Two"
     = Raise (DatabaseError "Invalid object name"))
  ∧ (main query_fails_world (initial ∅)).1 = Raise (DatabaseError "Invalid object name")
  ∧ log (main query_fails_world (initial ∅)).2
    = [OutSent "ann.one@example.com" ["boss@example.com"] 0 "out/hardware_Ann_One.xlsx"]
  ∧ fs (main query_fails_world (initial ∅)).2 !! "out/hardware_Bob_Two.csv" = None.
Proof.
  assert (Hh : ∀ j, (j < length [("Ann", "One", ["boss@example.com"])])%nat →
                 step_healthy query_fails_world j).
  { intros j Hj. cbn [length] in Hj. assert (j = 0%nat) as -> by lia.
    split; [done|]. split; [done|]. intros g s. apply (asset_table_writable []). by left. }
  split; [split_and!; [reflexivity|exact three_world_employees|reflexivity|reflexivity
                      |exact Hh|reflexivity]|].
  destruct (query_failure_aborts_run query_fails_world ∅ three_records
              [("Ann", "One", ["boss@example.com"])]
              [("Cy", "Three", ["a@x.com"; "b@x.com"])] "Bob" "Two" []
              (DatabaseError "Invalid object name") eq_refl three_world_employees
              eq_refl eq_refl Hh eq_refl) as (Hres & Hlog & _ & _ & Hfs).
  split; [exact Hres|]. split; [rewrite Hlog; vm_compute; reflexivity|].
  rewrite Hfs; [reflexivity|discriminate|].
  intros e He. apply list_elem_of_singleton in He as ->.
  intros [H|H]; vm_compute in H; discriminate H.
Defined.

(** ** What is sent *)



(** ** A value that a workbook refuses *)

Section control_facts.
















End control_facts.




